(** * PPO continuous-action notebook: actor-critic agents and the
      Bayesian-to-deterministic sampling transform

    Shallow embedding of the first cell of
    [cleanrl/ppo_continuous_action_isaacgym/ppo_continuous_action_isaacgym.ipynb]
    ([layer_init], [Agent], [SampledAgent], [BayesianAgent]) and of the
    agent set-up lines of its second cell.

    Modelling choices.
    - A torch tensor is a shape together with its row-major data.  Floating
      point arithmetic is kept abstract: every statement below holds for any
      interpretation of the scalar operations (class [Scalar]), among them
      the two tests that the argument validation of [Normal] makes on a
      float ([x == x] and [0 < x]).
    - Observations and actions are tensors of any rank, broadcast as torch
      broadcasts them.  Parameters have the ranks [nn.Linear] gives them (a
      matrix and a vector); a forward pass on parameters of another rank is
      the result [Raise Unsupported].
    - Parameters are mutable and can be shared, so parameter tensors live in
      a store ([heap]) and modules hold locations.  Assigning [p.data = t]
      makes the parameter point at the storage of [t]; [deepcopy] allocates
      new storage.
    - The pseudorandom generator is threaded explicitly ([gen]).
    - Python exceptions are results [Raise e]; the state reached when the
      exception is raised is kept. *)

From Stdlib Require Import ZArith QArith String List Lia.
From stdpp Require Import base list option.
Import ListNotations.

Local Open Scope nat_scope.
Local Open Scope list_scope.

(** ** Scalars and the random generator *)

(** The float operations used by the notebook, through torch. *)
Class Scalar (F : Type) := {
  fzero : F;
  fadd : F -> F -> F;
  fmul : F -> F -> F;
  fexp : F -> F;
  ftanh : F -> F;
  fsqrt : F -> F;
  of_Q : Q -> F;
  (** [Normal(loc, scale).log_prob(value)] at one element. *)
  normal_log_prob : F -> F -> F -> F;
  (** [Normal(loc, scale).entropy()] at one element; torch computes it from
      the scale alone. *)
  normal_entropy : F -> F;
  (** [nn.Linear.reset_parameters]: a unit uniform draw rescaled to the
      interval fixed by the fan-in. *)
  linear_init_value : nat -> F -> F;
  (** [nn.init.orthogonal_]: the entry at a flat index of the orthogonal
      factor of a [rows] x [cols] matrix of standard normal draws. *)
  orthogonal_entry : nat -> nat -> list F -> nat -> F;
  (** [x != x]: the float is NaN. *)
  fis_nan : F -> bool;
  (** [0 < x]. *)
  fpositive : F -> bool;
}.

(** torch's default generator: one draw at a time. *)
Class Generator (G F : Type) := {
  next_normal : G -> F * G;
  next_uniform : G -> F * G;
}.

Section Draws.
Context {G F : Type} `{Generator G F}.

(** [n] consecutive draws. *)
Fixpoint draws (next : G -> F * G) (n : nat) (g : G) : list F * G :=
  match n with
  | 0 => ([], g)
  | S n' =>
      let '(x, g1) := next g in
      let '(xs, g2) := draws next n' g1 in
      (x :: xs, g2)
  end.
End Draws.

(** ** Exceptions *)

Inductive Exn :=
| AssertionError (msg : string)
| RuntimeError      (* torch: shapes do not fit *)
| IndexError        (* [shape[i]] or a [dim] out of range *)
| ValueError        (* [orthogonal_] on a tensor with fewer than 2 dimensions;
                       an argument that [Normal] refuses *)
| TypeError         (* a size that is not an integer; a plain tensor assigned to
                       a registered parameter *)
| InvalidRef        (* a location outside the store; no Python object has one *)
| Unsupported.      (* a use of torch outside the fragment modelled here *)

Inductive Result (A : Type) :=
| Ok (a : A)
| Raise (e : Exn).
Arguments Ok {A} a.
Arguments Raise {A} e.

Definition rbind {A B} (r : Result A) (k : A -> Result B) : Result B :=
  match r with
  | Ok a => k a
  | Raise e => Raise e
  end.

Declare Scope result_scope.
Delimit Scope result_scope with result.
Notation "'let?' x ':=' c 'in' k" := (rbind c (fun x => k))
  (at level 10, x pattern, c at level 100, k at level 200) : result_scope.

(** ** Tensors *)

Section Tensors.
Context {F : Type} `{Scalar F}.

Record Tensor := { shape : list nat; data : list F }.

Definition numel (s : list nat) : nat := fold_right Nat.mul 1 s.

(** [k] consecutive rows of [n] entries. *)
Fixpoint chunks (n k : nat) (l : list F) : list (list F) :=
  match k with
  | 0 => []
  | S k' => take n l :: chunks n k' (drop n l)
  end.

Definition fsum (l : list F) : F := fold_left fadd l fzero.

Definition dot (u v : list F) : F := fsum (zip_with fmul u v).

Definition torch_zeros (s : list nat) : Tensor :=
  {| shape := s; data := repeat fzero (numel s) |}.

(** Elementwise maps keep the shape. *)
Definition tmap (f : F -> F) (t : Tensor) : Tensor :=
  {| shape := shape t; data := map f (data t) |}.

Definition torch_exp : Tensor -> Tensor := tmap fexp.
Definition torch_tanh : Tensor -> Tensor := tmap ftanh.

(** [constraints.real.check(t).all()]: no entry is NaN. *)
Definition all_real (t : Tensor) : bool :=
  forallb (fun v => negb (fis_nan v)) (data t).

(** [constraints.positive.check(t).all()]: every entry is above 0. *)
Definition all_positive (t : Tensor) : bool := forallb fpositive (data t).

(** [F.linear(x, W, b)]: [x] is [...; n_in] with at least one dimension,
    [W] is [n_out; n_in], [b] is [n_out]; the result is [...; n_out],
    each row of [x] mapped to [W r + b].  Weights that are not a matrix
    and biases that are not a vector of [n_out] entries are outside the
    fragment. *)
Definition F_linear (x W b : Tensor) : Result Tensor :=
  match shape W, shape b with
  | [n_out; n_in], [n_out'] =>
      match rev (shape x) with
      | [] => Raise RuntimeError
      | n :: batch_rev =>
          if negb (n =? n_in) then Raise RuntimeError
          else if negb (n_out' =? n_out) then Raise Unsupported
          else
            let batch := rev batch_rev in
            Ok {| shape := batch ++ [n_out];
                  data := concat (map (fun r =>
                            zip_with fadd (map (dot r) (chunks n_in n_out (data W))) (data b))
                            (chunks n_in (numel batch) (data x))) |}
      end
  | _, _ => Raise Unsupported
  end.

(** Broadcasting.  Shapes are aligned at their last dimension; two sizes
    fit when they are equal or one of them is 1. *)
Definition broadcast_dim (a b : nat) : option nat :=
  if a =? b then Some a
  else if a =? 1 then Some b
  else if b =? 1 then Some a
  else None.

(** On reversed shapes: last dimension first. *)
Fixpoint broadcast_rev (s1 s2 : list nat) : option (list nat) :=
  match s1, s2 with
  | [], s2 => Some s2
  | s1, [] => Some s1
  | a :: s1', b :: s2' =>
      match broadcast_dim a b, broadcast_rev s1' s2' with
      | Some d, Some r => Some (d :: r)
      | _, _ => None
      end
  end.

(** [torch.broadcast_shapes(s1, s2)], [None] when the shapes do not fit. *)
Definition broadcast_shapes (s1 s2 : list nat) : option (list nat) :=
  option_map (@rev nat) (broadcast_rev (rev s1) (rev s2)).

(** A shape with dimensions of size 1 put before it, up to rank [r]. *)
Definition pad_shape (r : nat) (s : list nat) : list nat :=
  repeat 1 (r - length s) ++ s.

(** The data of a tensor of shape [src] expanded to [tgt], two shapes of
    the same rank: along a dimension of size 1 the one block is repeated. *)
Fixpoint expand_data (src tgt : list nat) (d : list F) : list F :=
  match src, tgt with
  | s :: src', t :: tgt' =>
      let blocks := map (expand_data src' tgt') (chunks (numel src') s d) in
      if s =? t then concat blocks else concat (repeat (concat blocks) t)
  | _, _ => d
  end.

Definition expandable (src tgt : list nat) : bool :=
  (length src <=? length tgt)
    && forallb (fun st => (st.1 =? st.2) || (st.1 =? 1))
               (zip (pad_shape (length tgt) src) tgt).

(** [t.expand(sizes)]: new leading dimensions and dimensions of size 1
    are repeated, any other size has to agree. *)
Definition expand (t : Tensor) (sizes : list nat) : Result Tensor :=
  if expandable (shape t) sizes then
    Ok {| shape := sizes;
          data := expand_data (pad_shape (length sizes) (shape t)) sizes (data t) |}
  else Raise RuntimeError.

(** [t.expand_as(other)] *)
Definition expand_as (t other : Tensor) : Result Tensor := expand t (shape other).

(** The data of [t] broadcast to a shape it fits; a tensor that has the
    shape already is taken as it is. *)
Definition broadcast_to (t : Tensor) (s : list nat) : list F :=
  if bool_decide (shape t = s) then data t
  else expand_data (pad_shape (length s) (shape t)) s (data t).

(** The sum of rows of [n] entries, entry by entry. *)
Definition sum_rows (n : nat) (rows : list (list F)) : list F :=
  fold_left (zip_with fadd) rows (repeat fzero n).

(** [t.sum(1)]: a matrix gives the vector of its row sums; with more
    dimensions, dimension 1 is summed out of every block of dimension 0;
    a tensor with fewer than two dimensions has no dimension 1. *)
Definition sum1 (t : Tensor) : Result Tensor :=
  match shape t with
  | [B; D] => Ok {| shape := [B]; data := map fsum (chunks D B (data t)) |}
  | d0 :: d1 :: rest =>
      Ok {| shape := d0 :: rest;
            data := concat (map (fun block =>
                              sum_rows (numel rest) (chunks (numel rest) d1 block))
                              (chunks (d1 * numel rest) d0 (data t))) |}
  | _ => Raise IndexError
  end.

(** The entry [t[i, j]] of a matrix. *)
Definition entry (t : Tensor) (i j : nat) : F :=
  nth (i * nth 1 (shape t) 0 + j) (data t) fzero.

(** [t.shape[i]]. *)
Definition shape_at (t : Tensor) (i : nat) : Result nat :=
  match shape t !! i with
  | Some n => Ok n
  | None => Raise IndexError
  end.
End Tensors.
Arguments Tensor F : clear implicits.

(** ** The store of parameter tensors and the generator *)

Abbreviation loc := nat.

Section State.
Context {F G : Type} `{Scalar F} `{Generator G F}.

Record State := { heap : list (Tensor F); gen : G }.

Definition M (A : Type) : Type := State -> Result A * State.

Definition ret {A} (a : A) : M A := fun s => (Ok a, s).

Definition bind {A B} (c : M A) (k : A -> M B) : M B :=
  fun s =>
    match c s with
    | (Ok a, s') => k a s'
    | (Raise e, s') => (Raise e, s')
    end.

Definition raise {A} (e : Exn) : M A := fun s => (Raise e, s).

Definition lift {A} (r : Result A) : M A := fun s => (r, s).

(** A computation that only reads the store. *)
Definition reading {A} (f : list (Tensor F) -> Result A) : M A :=
  fun s => (f (heap s), s).

(** New storage, after everything allocated so far. *)
Definition alloc (t : Tensor F) : M loc :=
  fun s => (Ok (length (heap s)), {| heap := heap s ++ [t]; gen := gen s |}).

Definition lookup_tensor (h : list (Tensor F)) (l : loc) : Result (Tensor F) :=
  match h !! l with
  | Some t => Ok t
  | None => Raise InvalidRef
  end.

Definition load (l : loc) : M (Tensor F) := reading (fun h => lookup_tensor h l).

(** In-place update of the storage at [l]. *)
Definition store (l : loc) (t : Tensor F) : M unit :=
  fun s =>
    if l <? length (heap s)
    then (Ok tt, {| heap := <[l := t]> (heap s); gen := gen s |})
    else (Raise InvalidRef, s).

Definition draw (next : G -> F * G) (n : nat) : M (list F) :=
  fun s =>
    let '(xs, g) := draws next n (gen s) in
    (Ok xs, {| heap := heap s; gen := g |}).
End State.
Arguments State F G : clear implicits.
Arguments M F G A : clear implicits.

Declare Scope monad_scope.
Delimit Scope monad_scope with monad.
Notation "x <- c ;; k" := (bind c (fun x => k))
  (at level 100, c at next level, right associativity) : monad_scope.
Notation "c ;; k" := (bind c (fun _ => k))
  (at level 100, right associativity) : monad_scope.
Local Open Scope monad_scope.

(** ** torch.nn: linear layers, [layer_init], [nn.Sequential] *)

(** [nn.Linear]: its two parameters are references to storage. *)
Record Linear := {
  in_features : nat;
  out_features : nat;
  weight : loc;
  bias : loc;
}.

(** The deterministic components of an [nn.Sequential]: the two classes
    the notebook uses, and any other [nn.Module] class, whose forward pass
    and parameters are not modelled. *)
Inductive Module :=
| Linear_ (l : Linear)
| Tanh_
| Other_ (class_name : string).

Section Torch.
Context {F G : Type} `{Scalar F} `{Generator G F}.

#[local] Abbreviation M := (M F G).

(** [nn.Linear(in_features, out_features, bias=True)]: allocates the
    weight [out; in] and the bias [out] and initialises both with uniform
    draws ([reset_parameters]). *)
Definition nn_Linear (n_in n_out : nat) : M Linear :=
  w <- draw next_uniform (n_out * n_in) ;;
  lw <- alloc {| shape := [n_out; n_in]; data := map (linear_init_value n_in) w |} ;;
  b <- draw next_uniform n_out ;;
  lb <- alloc {| shape := [n_out]; data := map (linear_init_value n_in) b |} ;;
  ret {| in_features := n_in; out_features := n_out; weight := lw; bias := lb |}.

(** [torch.nn.init.orthogonal_(tensor, gain)], in place. *)
Definition orthogonal_ (l : loc) (gain : F) : M unit :=
  t <- load l ;;
  match shape t with
  | rows :: _ :: _ =>
      if numel (shape t) =? 0 then ret tt
      else
        let cols := numel (shape t) / rows in
        noise <- draw next_normal (rows * cols) ;;
        store l {| shape := shape t;
                   data := imap (fun k _ => fmul (orthogonal_entry rows cols noise k) gain)
                                (data t) |}
  | _ => raise ValueError
  end.

(** [torch.nn.init.constant_(tensor, val)], in place. *)
Definition constant_ (l : loc) (val : F) : M unit :=
  t <- load l ;;
  store l {| shape := shape t; data := map (fun _ => val) (data t) |}.

(** [def layer_init(layer, std=np.sqrt(2), bias_const=0.0)] *)
Definition layer_init (layer : Linear) (std : F) (bias_const : F) : M Linear :=
  orthogonal_ (weight layer) std ;;
  constant_ (bias layer) bias_const ;;
  ret layer.

Definition default_std : F := fsqrt (of_Q 2).
Definition default_bias_const : F := of_Q 0.

(** [deepcopy] of a parameter: the same values in new storage. *)
Definition deepcopy_param (l : loc) : M loc :=
  t <- load l ;;
  alloc t.

(** [deepcopy] of an [nn.Linear]. *)
Definition deepcopy_Linear (l : Linear) : M Linear :=
  lw <- deepcopy_param (weight l) ;;
  lb <- deepcopy_param (bias l) ;;
  ret {| in_features := in_features l; out_features := out_features l;
         weight := lw; bias := lb |}.

(** The forward pass of one component, reading the parameters from the
    store. *)
Definition Module_forward (h : list (Tensor F)) (m : Module) (x : Tensor F)
  : Result (Tensor F) :=
  match m with
  | Linear_ l =>
      (let? W := lookup_tensor h (weight l) in
       let? b := lookup_tensor h (bias l) in
       F_linear x W b)%result
  | Tanh_ => Ok (torch_tanh x)
  | Other_ _ => Raise Unsupported
  end.

(** [nn.Sequential.forward]: the components in order. *)
Fixpoint Sequential_forward (h : list (Tensor F)) (ms : list Module) (x : Tensor F)
  : Result (Tensor F) :=
  match ms with
  | [] => Ok x
  | m :: ms' =>
      (let? y := Module_forward h m x in
       Sequential_forward h ms' y)%result
  end.

(** ** torch.distributions.normal.Normal *)

Record Normal := { loc_ : Tensor F; scale : Tensor F }.

(** [Normal(loc, scale)] for two tensors of the same shape, as the
    notebook builds it.  The constructor validates its arguments (torch's
    default): it raises [ValueError] unless no entry of [loc] is NaN and
    every entry of [scale] is above 0. *)
Definition new_Normal (loc scale : Tensor F) : Result Normal :=
  if all_real loc && all_positive scale then Ok {| loc_ := loc; scale := scale |}
  else Raise ValueError.

(** [probs.sample()]: one standard normal draw per element, scaled and
    shifted. *)
Definition Normal_sample (p : Normal) : M (Tensor F) :=
  eps <- draw next_normal (numel (shape (loc_ p))) ;;
  ret {| shape := shape (loc_ p);
         data := zip_with (fun ms e => fadd (fmul e ms.2) ms.1)
                          (zip (data (loc_ p)) (data (scale p))) eps |}.

(** [probs.log_prob(value)].  The value is validated first: [ValueError]
    when its shape cannot be broadcast with the shape of the distribution
    or when it has a NaN entry.  The result has the broadcast shape. *)
Definition Normal_log_prob (p : Normal) (value : Tensor F) : Result (Tensor F) :=
  match broadcast_shapes (shape value) (shape (loc_ p)) with
  | Some s =>
      if all_real value then
        Ok {| shape := s;
              data := zip_with (fun ms v => normal_log_prob ms.1 ms.2 v)
                               (zip (broadcast_to (loc_ p) s) (broadcast_to (scale p) s))
                               (broadcast_to value s) |}
      else Raise ValueError
  | None => Raise ValueError
  end.

(** [probs.entropy()]. *)
Definition Normal_entropy (p : Normal) : Tensor F :=
  tmap normal_entropy (scale p).
End Torch.
Arguments Normal F : clear implicits.

(** ** The environment, as far as the agents look at it *)

(** [gym.spaces]: the notebook reads only the class of a space and its
    [shape]. *)
Inductive Space :=
| Box (shape : list nat)
| Discrete (n : nat)
| MultiDiscrete (nvec : list nat)
| MultiBinary (n : nat).

Definition Space_shape (s : Space) : list nat :=
  match s with
  | Box sh => sh
  | Discrete _ => []
  | MultiDiscrete nvec => [length nvec]
  | MultiBinary n => [n]
  end.

(** [isinstance(space, gym.spaces.Box)] *)
Definition is_Box (s : Space) : bool :=
  match s with
  | Box _ => true
  | _ => false
  end.

Record Envs := {
  single_observation_space : Space;
  single_action_space : Space;
}.

(** [np.array(shape).prod()] and [np.prod(shape)].  For an empty shape
    numpy returns the float [1.0], which torch refuses as a size: the
    constructor given it raises [TypeError].  numpy multiplies 64-bit
    integers; the product below is the one it returns for the shapes that
    fit ([fits_int64]). *)
Definition np_prod (shape : list nat) : Result nat :=
  match shape with
  | [] => Raise TypeError
  | _ => Ok (numel shape)
  end.

(** The two sizes read from the environment, when the shapes are not
    empty. *)
Definition obs_dim (envs : Envs) : nat := numel (Space_shape (single_observation_space envs)).
Definition act_dim (envs : Envs) : nat := numel (Space_shape (single_action_space envs)).

(** The sizes of a shape and their product are below 2^63. *)
Definition fits_int64 (shape : list nat) : bool :=
  forallb (fun d => (Z.of_nat d <? 2 ^ 63)%Z) shape
    && (Z.of_nat (numel shape) <? 2 ^ 63)%Z.

Definition Envs_fit (envs : Envs) : bool :=
  fits_int64 (Space_shape (single_observation_space envs))
    && fits_int64 (Space_shape (single_action_space envs)).

Definition Envs_ok (envs : Envs) : bool :=
  negb (bool_decide (Space_shape (single_observation_space envs) = []))
    && negb (bool_decide (Space_shape (single_action_space envs) = [])).

(** ** class Agent *)

Module Agent.
Record t := {
  critic : list Module;
  actor_mean : list Module;
  actor_logstd : loc;
}.

Section Methods.
Context {F G : Type} `{Scalar F} `{Generator G F}.

#[local] Abbreviation M := (M F G).

(** [Agent.__init__(self, envs)] *)
Definition init (envs : Envs) : M t :=
  c0 <- (n <- lift (np_prod (Space_shape (single_observation_space envs))) ;;
         l <- nn_Linear n 256 ;; layer_init l default_std default_bias_const) ;;
  c2 <- (l <- nn_Linear 256 256 ;; layer_init l default_std default_bias_const) ;;
  c4 <- (l <- nn_Linear 256 1 ;; layer_init l (of_Q 1) default_bias_const) ;;
  a0 <- (n <- lift (np_prod (Space_shape (single_observation_space envs))) ;;
         l <- nn_Linear n 256 ;; layer_init l default_std default_bias_const) ;;
  a2 <- (l <- nn_Linear 256 256 ;; layer_init l default_std default_bias_const) ;;
  a4 <- (n <- lift (np_prod (Space_shape (single_action_space envs))) ;;
         l <- nn_Linear 256 n ;; layer_init l (of_Q (1 # 100)) default_bias_const) ;;
  ls <- (n <- lift (np_prod (Space_shape (single_action_space envs))) ;;
         alloc (torch_zeros [1; n])) ;;
  ret {| critic := [Linear_ c0; Tanh_; Linear_ c2; Tanh_; Linear_ c4];
         actor_mean := [Linear_ a0; Tanh_; Linear_ a2; Tanh_; Linear_ a4];
         actor_logstd := ls |}.

(** [def get_value(self, x): return self.critic(x)] *)
Definition get_value (self : t) (h : list (Tensor F)) (x : Tensor F)
  : Result (Tensor F) :=
  Sequential_forward h (critic self) x.

(** The distribution [probs] built by the first four lines of
    [get_action_and_value]. *)
Definition policy (self : t) (h : list (Tensor F)) (x : Tensor F)
  : Result (Normal F) :=
  (let? action_mean := Sequential_forward h (actor_mean self) x in
   let? logstd := lookup_tensor h (actor_logstd self) in
   let? action_logstd := expand_as logstd action_mean in
   let action_std := torch_exp action_logstd in
   new_Normal action_mean action_std)%result.

(** [def get_action_and_value(self, x, action=None)] *)
Definition get_action_and_value (self : t) (x : Tensor F) (action : option (Tensor F))
  : M (Tensor F * Tensor F * Tensor F * Tensor F) :=
  probs <- reading (fun h => policy self h x) ;;
  action <- match action with
            | None => Normal_sample probs
            | Some a => ret a
            end ;;
  log_prob <- lift (let? lp := Normal_log_prob probs action in sum1 lp)%result ;;
  entropy <- lift (sum1 (Normal_entropy probs)) ;;
  value <- reading (fun h => Sequential_forward h (critic self) x) ;;
  ret (action, log_prob, entropy, value).
End Methods.
End Agent.

(** ** class SampledAgent(Agent) *)

(** A tensor as Python hands it over: an [nn.Parameter] or a plain
    [torch.Tensor], on its storage. *)
Inductive TensorArg :=
| Parameter_ (l : loc)
| Tensor_ (l : loc).

Module SampledAgent.
Section Methods.
Context {F G : Type} `{Scalar F} `{Generator G F}.

(** [SampledAgent.__init__(self, envs, critic, actor_mean, actor_logstd)]:
    the parent constructor builds a whole [Agent], whose three
    attributes are then replaced by the arguments.  [actor_logstd] is a
    registered parameter by then: [nn.Module.__setattr__] takes an
    [nn.Parameter] for it and raises [TypeError] on a plain tensor. *)
Definition init (envs : Envs) (critic actor_mean : list Module)
           (actor_logstd : TensorArg) : M F G Agent.t :=
  _ <- Agent.init envs ;;
  match actor_logstd with
  | Parameter_ l =>
      ret {| Agent.critic := critic;
             Agent.actor_mean := actor_mean;
             Agent.actor_logstd := l |}
  | Tensor_ _ => raise TypeError
  end.
End Methods.
End SampledAgent.

(** ** custom_layers.BayesianLinear *)

(** Modelled from the spec: the module [custom_layers] (class
    [BayesianLinear] with its [weight_sampler] and [bias_sampler]) is
    imported by the notebook but is not part of the sources.  Following
    sections 3 and 4.1 of the specification, a sampler owns a mean tensor and
    a spread tensor of the same shape, and [sample()] returns one new tensor
    of that shape, each element drawn from its own (mean, spread) pair,
    without changing the parameters. *)
Record Sampler := { mu : loc; rho : loc }.

Record BayesianLinear := {
  b_in_features : nat;
  b_out_features : nat;
  neuron_types_in : nat;
  neuron_types_out : nat;
  weight_sampler : Sampler;
  bias_sampler : Sampler;
}.

(** Modelled from the spec: what [custom_layers] leaves open to this
    development.  The spread parameter is mapped to a standard deviation by
    a positivity-guaranteeing transform, and the constructor gives the
    parameters initial values the specification does not fix. *)
Class BayesianOps (F G : Type) := {
  spread_to_std : F -> F;
  mu_init : G -> F * G;
  rho_init : G -> F * G;
}.

Section Bayesian.
Context {F G : Type} `{Scalar F} `{Generator G F} `{BayesianOps F G}.

#[local] Abbreviation M := (M F G).

(** Modelled from the spec: [sampler.sample()] of the missing
    [custom_layers]: mean + std * noise per element, in new storage. *)
Definition Sampler_sample (s : Sampler) : M loc :=
  m <- load (mu s) ;;
  r <- load (rho s) ;;
  if bool_decide (shape m = shape r) then
    eps <- draw next_normal (numel (shape m)) ;;
    alloc {| shape := shape m;
             data := zip_with (fun mr e => fadd mr.1 (fmul (spread_to_std mr.2) e))
                              (zip (data m) (data r)) eps |}
  else raise Unsupported.

(** Modelled from the spec: the constructor of the missing
    [custom_layers.BayesianLinear]: a (mean, spread) pair per weight
    element, [out; in], and per bias element, [out]. *)
Definition new_Sampler (s : list nat) : M Sampler :=
  m <- draw mu_init (numel s) ;;
  lm <- alloc {| shape := s; data := m |} ;;
  r <- draw rho_init (numel s) ;;
  lr <- alloc {| shape := s; data := r |} ;;
  ret {| mu := lm; rho := lr |}.

Definition new_BayesianLinear (n_in n_out types_in types_out : nat) : M BayesianLinear :=
  ws <- new_Sampler [n_out; n_in] ;;
  bs <- new_Sampler [n_out] ;;
  ret {| b_in_features := n_in; b_out_features := n_out;
         neuron_types_in := types_in; neuron_types_out := types_out;
         weight_sampler := ws; bias_sampler := bs |}.
End Bayesian.

(** ** class BayesianAgent *)

(** [BayesianAgent.get_value] and [BayesianAgent.get_action_and_value] run
    the forward pass of [BayesianLinear], which the sources do not contain
    and the specification does not describe; they are not modelled.  The
    constructor and the sampling transform are.

    The components of the Bayesian agent's [nn.Sequential]s: a Bayesian
    layer or one of the deterministic modules. *)
Inductive BModule :=
| BayesianLinear_ (b : BayesianLinear)
| Plain (m : Module).

(** [type(a_layer)] *)
Inductive ModuleType :=
| T_BayesianLinear
| T_Linear
| T_Tanh
| T_Other (class_name : string).

Definition type_of (a_layer : BModule) : ModuleType :=
  match a_layer with
  | BayesianLinear_ _ => T_BayesianLinear
  | Plain (Linear_ _) => T_Linear
  | Plain Tanh_ => T_Tanh
  | Plain (Other_ c) => T_Other c
  end.

(** The type of a deterministic module. *)
Definition Module_type (m : Module) : ModuleType :=
  match m with
  | Linear_ _ => T_Linear
  | Tanh_ => T_Tanh
  | Other_ c => T_Other c
  end.

Module BayesianAgent.
Record t := {
  critic : list BModule;
  actor_mean : list BModule;
  actor_logstd : loc;
  envs : Envs;
}.

Section Methods.
Context {F G : Type} `{Scalar F} `{Generator G F} `{BayesianOps F G}.

#[local] Abbreviation M := (M F G).

(** [BayesianAgent.__init__(self, envs, number_of_cell_types)] *)
Definition init (envs : Envs) (number_of_cell_types : nat) : M t :=
  c0 <- (n <- lift (np_prod (Space_shape (single_observation_space envs))) ;;
         new_BayesianLinear n 256 number_of_cell_types number_of_cell_types) ;;
  c2 <- new_BayesianLinear 256 256 number_of_cell_types number_of_cell_types ;;
  c4 <- (l <- nn_Linear 256 1 ;; layer_init l (of_Q 1) default_bias_const) ;;
  a0 <- (n <- lift (np_prod (Space_shape (single_observation_space envs))) ;;
         new_BayesianLinear n 256 number_of_cell_types number_of_cell_types) ;;
  a2 <- new_BayesianLinear 256 256 number_of_cell_types number_of_cell_types ;;
  a4 <- (n <- lift (np_prod (Space_shape (single_action_space envs))) ;;
         l <- nn_Linear 256 n ;; layer_init l (of_Q (1 # 100)) default_bias_const) ;;
  ls <- (n <- lift (np_prod (Space_shape (single_action_space envs))) ;;
         alloc (torch_zeros [1; n])) ;;
  ret {| critic := [BayesianLinear_ c0; Plain Tanh_; BayesianLinear_ c2; Plain Tanh_;
                    Plain (Linear_ c4)];
         actor_mean := [BayesianLinear_ a0; Plain Tanh_; BayesianLinear_ a2; Plain Tanh_;
                        Plain (Linear_ a4)];
         actor_logstd := ls;
         envs := envs |}.

(** [def construct_vanilla_layer(self, weights, biases)]: a new
    [nn.Linear] whose parameters are then pointed at the storage of the
    two arguments. *)
Definition construct_vanilla_layer (weights biases : loc) : M Linear :=
  w <- load weights ;;
  n_in <- lift (shape_at w 1) ;;
  n_out <- lift (shape_at w 0) ;;
  layer <- nn_Linear n_in n_out ;;
  ret {| in_features := in_features layer; out_features := out_features layer;
         weight := weights; bias := biases |}.

(** The body of the two loops of [sample_vanilla_agent]: what one
    component appends to the list of layers.  The first case is
    [if type(a_layer) == BayesianLinear], the second
    [elif type(a_layer) == nn.Linear]; there is no [else]. *)
Definition sample_layer (a_layer : BModule) : M (list Module) :=
  match a_layer with
  | BayesianLinear_ b =>
      weights <- Sampler_sample (weight_sampler b) ;;
      biases <- Sampler_sample (bias_sampler b) ;;
      layer <- construct_vanilla_layer weights biases ;;
      ret [Linear_ layer; Tanh_]
  | Plain (Linear_ l) =>
      l' <- deepcopy_Linear l ;;
      ret [Linear_ l']
  | Plain Tanh_ | Plain (Other_ _) => ret []
  end.

(** [for _, a_layer in enumerate(seq): ...], appending to [layers]. *)
Fixpoint sample_layers (seq : list BModule) (layers : list Module) : M (list Module) :=
  match seq with
  | [] => ret layers
  | a_layer :: seq' =>
      new <- sample_layer a_layer ;;
      sample_layers seq' (layers ++ new)
  end.

(** [def sample_vanilla_agent(self)] *)
Definition sample_vanilla_agent (self : t) : M Agent.t :=
  actor_mean_layers <- sample_layers (actor_mean self) [] ;;
  critic_layers <- sample_layers (critic self) [] ;;
  actor_logstd <- deepcopy_param (actor_logstd self) ;;
  SampledAgent.init (envs self) critic_layers actor_mean_layers
                    (Parameter_ actor_logstd).
End Methods.
End BayesianAgent.

(** ** The agent set-up of the notebook's second cell *)

Section Setup.
Context {F G : Type} `{Scalar F} `{Generator G F} `{BayesianOps F G}.

(** [assert cond, msg] *)
Definition py_assert (cond : bool) (msg : string) : M F G unit :=
  if cond then ret tt else raise (AssertionError msg).

(** The last three statements of the cell:
    [assert isinstance(envs.single_action_space, gym.spaces.Box), "..."],
    [agent = BayesianAgent(envs=envs, number_of_cell_types=256).cuda()],
    [sampled_agent = agent.sample_vanilla_agent()].  Device placement
    ([.cuda()]) is not modelled. *)
Definition setup (envs : Envs) : M F G (BayesianAgent.t * Agent.t) :=
  py_assert (is_Box (single_action_space envs))
            "only continuous action space is supported" ;;
  agent <- BayesianAgent.init envs 256 ;;
  sampled_agent <- BayesianAgent.sample_vanilla_agent agent ;;
  ret (agent, sampled_agent).
End Setup.

(** ** Parameter locations and well-formedness *)

Definition Module_params (m : Module) : list loc :=
  match m with
  | Linear_ l => [weight l; bias l]
  | Tanh_ | Other_ _ => []
  end.

Definition Sequential_params (ms : list Module) : list loc :=
  concat (map Module_params ms).

Definition Agent_params (a : Agent.t) : list loc :=
  Sequential_params (Agent.critic a) ++ Sequential_params (Agent.actor_mean a)
    ++ [Agent.actor_logstd a].

Definition Sampler_params (s : Sampler) : list loc := [mu s; rho s].

Definition BModule_params (m : BModule) : list loc :=
  match m with
  | BayesianLinear_ b => Sampler_params (weight_sampler b) ++ Sampler_params (bias_sampler b)
  | Plain m => Module_params m
  end.

Definition BSequential_params (ms : list BModule) : list loc :=
  concat (map BModule_params ms).

(** The storage of the Bayesian agent's parameters: the distribution
    parameters of its layers, the parameters of its plain layers and
    [actor_logstd]. *)
Definition BayesianAgent_params (a : BayesianAgent.t) : list loc :=
  BSequential_params (BayesianAgent.critic a)
    ++ BSequential_params (BayesianAgent.actor_mean a)
    ++ [BayesianAgent.actor_logstd a].

Section WellFormed.
Context {F : Type}.

(** A tensor of the given shape is stored at [l]. *)
Definition has_shape (h : list (Tensor F)) (l : loc) (s : list nat) : bool :=
  match h !! l with
  | Some t => bool_decide (shape t = s) && (length (data t) =? numel s)
  | None => false
  end.

(** A linear layer from [n_in] to [n_out] features. *)
Definition Linear_ok (h : list (Tensor F)) (l : Linear) (n_in n_out : nat) : bool :=
  has_shape h (weight l) [n_out; n_in] && has_shape h (bias l) [n_out].

(** A network mapping rows of [d_in] entries to rows of [d_out] entries. *)
Fixpoint net_ok (h : list (Tensor F)) (ms : list Module) (d_in d_out : nat) : bool :=
  match ms with
  | [] => d_in =? d_out
  | Linear_ l :: ms' =>
      (in_features l =? d_in)
        && Linear_ok h l (in_features l) (out_features l)
        && net_ok h ms' (out_features l) d_out
  | Tanh_ :: ms' => net_ok h ms' d_in d_out
  | Other_ _ :: _ => false
  end.

(** An agent for observations of [obs] entries and actions of [D]
    entries, as [Agent.__init__] shapes it. *)
Definition Agent_ok (h : list (Tensor F)) (a : Agent.t) (obs D : nat) : bool :=
  net_ok h (Agent.critic a) obs 1
    && net_ok h (Agent.actor_mean a) obs D
    && has_shape h (Agent.actor_logstd a) [1; D].

(** A Bayesian layer whose mean and spread tensors have the shapes its
    constructor gives them. *)
Definition Sampler_ok (h : list (Tensor F)) (s : Sampler) (sh : list nat) : bool :=
  has_shape h (mu s) sh && has_shape h (rho s) sh.

Definition BayesianLinear_ok (h : list (Tensor F)) (b : BayesianLinear) : bool :=
  Sampler_ok h (weight_sampler b) [b_out_features b; b_in_features b]
    && Sampler_ok h (bias_sampler b) [b_out_features b].

Definition BModule_ok (h : list (Tensor F)) (m : BModule) : bool :=
  match m with
  | BayesianLinear_ b => BayesianLinear_ok h b
  | Plain (Linear_ l) => Linear_ok h l (in_features l) (out_features l)
  | Plain Tanh_ | Plain (Other_ _) => true
  end.

Definition BayesianAgent_ok (h : list (Tensor F)) (a : BayesianAgent.t) : bool :=
  forallb (BModule_ok h) (BayesianAgent.critic a)
    && forallb (BModule_ok h) (BayesianAgent.actor_mean a)
    && has_shape h (BayesianAgent.actor_logstd a)
         [1; act_dim (BayesianAgent.envs a)]
    && Envs_ok (BayesianAgent.envs a).

(** [h'] is [h] with more storage allocated after it. *)
Definition extends (h h' : list (Tensor F)) : Prop := exists ext, h' = h ++ ext.

(** What visiting one component of a sequence has appended, between the
    store [h] before the visit and a later store [h']: a Bayesian layer
    gives a linear layer of its features followed by a [Tanh]; a plain
    linear layer gives one layer with the same features, holding in [h']
    what the original held in [h]; anything else gives nothing. *)
Definition contributes (h h' : list (Tensor F)) (c : BModule) (new : list Module) : Prop :=
  match c with
  | BayesianLinear_ b =>
      exists l, new = [Linear_ l; Tanh_]
                /\ in_features l = b_in_features b /\ out_features l = b_out_features b
                /\ Linear_ok h' l (b_in_features b) (b_out_features b) = true
  | Plain (Linear_ l) =>
      exists l', new = [Linear_ l']
                 /\ in_features l' = in_features l /\ out_features l' = out_features l
                 /\ is_Some (h !! weight l) /\ is_Some (h !! bias l)
                 /\ h' !! weight l' = h !! weight l /\ h' !! bias l' = h !! bias l
  | Plain Tanh_ | Plain (Other_ _) => new = []
  end.

(** [m'], in the store [h'], is a copy of the deterministic component
    [m] of the store [h], in storage allocated since: a [Tanh] for a
    [Tanh]; for a linear layer, a linear layer with the same features
    whose weight and bias hold the values of the original. *)
Definition copied (h h' : list (Tensor F)) (m m' : Module) : Prop :=
  match m, m' with
  | Tanh_, Tanh_ => True
  | Linear_ l, Linear_ l' =>
      in_features l' = in_features l
      /\ out_features l' = out_features l
      /\ (exists W b,
            h !! weight l = Some W /\ h !! bias l = Some b
            /\ h' !! weight l' = Some W /\ h' !! bias l' = Some b)
      /\ length h <= weight l' < length h'
      /\ length h <= bias l' < length h'
  | _, _ => False
  end.

(** Two stores hold the same tensors at the given locations. *)
Definition agree_on (ls : list loc) (h1 h2 : list (Tensor F)) : Prop :=
  forall l, l ∈ ls -> h1 !! l = h2 !! l.

(** [h2] is [h1] after any writes to the given locations. *)
Definition modified_only_at (ls : list loc) (h1 h2 : list (Tensor F)) : Prop :=
  forall l, l ∉ ls -> h2 !! l = h1 !! l.
End WellFormed.

(** ** A symbolic interpretation, to run the definitions on concrete inputs *)

(** Scalars as terms: every float operation builds the term that names its
    result, and every draw of the generator is named by its index. *)
Inductive Sym :=
| SConst (q : Q)
| SAdd (a b : Sym)
| SMul (a b : Sym)
| SExp (a : Sym)
| STanh (a : Sym)
| SSqrt (a : Sym)
| SLogProb (mean std value : Sym)
| SEntropy (std : Sym)
| SLinearInit (fan_in : nat) (u : Sym)
| SOrthogonal (rows cols : nat) (first_noise : Sym) (k : nat)
| SNormalDraw (n : nat)
| SUniformDraw (n : nat)
| SStd (spread : Sym)
| SMuInit (n : nat)
| SRhoInit (n : nat)
| SNaN.

(** A term is NaN when NaN occurs in it. *)
Fixpoint Sym_is_nan (t : Sym) : bool :=
  match t with
  | SNaN => true
  | SAdd a b | SMul a b => Sym_is_nan a || Sym_is_nan b
  | SExp a | STanh a | SSqrt a | SEntropy a | SStd a | SLinearInit _ a
  | SOrthogonal _ _ a _ => Sym_is_nan a
  | SLogProb m sd v => Sym_is_nan m || Sym_is_nan sd || Sym_is_nan v
  | _ => false
  end.

(** The terms known to be above 0: positive constants, exponentials and
    standard deviations. *)
Definition Sym_positive (t : Sym) : bool :=
  match t with
  | SConst q => (0 <? Qnum q)%Z
  | SExp a | SStd a => negb (Sym_is_nan a)
  | _ => false
  end.

#[export] Instance Sym_Scalar : Scalar Sym := {|
  fzero := SConst 0;
  fadd := SAdd;
  fmul := SMul;
  fexp := SExp;
  ftanh := STanh;
  fsqrt := SSqrt;
  of_Q := SConst;
  normal_log_prob := SLogProb;
  normal_entropy := SEntropy;
  linear_init_value := SLinearInit;
  orthogonal_entry := fun rows cols noise k =>
    SOrthogonal rows cols (hd (SConst 0) noise) k;
  fis_nan := Sym_is_nan;
  fpositive := Sym_positive;
|}.

#[export] Instance Sym_Generator : Generator nat Sym := {|
  next_normal := fun n => (SNormalDraw n, S n);
  next_uniform := fun n => (SUniformDraw n, S n);
|}.

#[export] Instance Sym_BayesianOps : BayesianOps Sym nat := {|
  spread_to_std := SStd;
  mu_init := fun n => (SMuInit n, S n);
  rho_init := fun n => (SRhoInit n, S n);
|}.

Module Examples.
Definition const_tensor (sh : list nat) (q : Q) : Tensor Sym :=
  {| shape := sh; data := repeat (SConst q) (numel sh) |}.

(** A small Bayesian agent, 3 observations, 1 action, hidden width 2. *)
Definition envs0 : Envs :=
  {| single_observation_space := Box [3]; single_action_space := Box [1] |}.

(** The same observations with a discrete action space. *)
Definition envs_discrete : Envs :=
  {| single_observation_space := Box [3]; single_action_space := Discrete 4 |}.

Definition heap0 : list (Tensor Sym) :=
  [ const_tensor [2; 3] 1; const_tensor [2; 3] 2;      (* critic layer 0: weight mean, spread *)
    const_tensor [2] 3; const_tensor [2] 4;            (* critic layer 0: bias mean, spread *)
    const_tensor [1; 2] 5; const_tensor [1] 6;         (* critic output layer *)
    const_tensor [2; 3] 7; const_tensor [2; 3] 8;      (* actor layer 0 *)
    const_tensor [2] 9; const_tensor [2] 10;
    const_tensor [1; 2] 11; const_tensor [1] 12;       (* actor output layer *)
    const_tensor [1; 1] 0 ].                           (* actor_logstd *)

Definition bayes0 (base : nat) : BayesianLinear :=
  {| b_in_features := 3; b_out_features := 2;
     neuron_types_in := 256; neuron_types_out := 256;
     weight_sampler := {| mu := base; rho := base + 1 |};
     bias_sampler := {| mu := base + 2; rho := base + 3 |} |}.

Definition linear0 (base : nat) : Linear :=
  {| in_features := 2; out_features := 1; weight := base; bias := base + 1 |}.

Definition agent0 : BayesianAgent.t :=
  {| BayesianAgent.critic := [BayesianLinear_ (bayes0 0); Plain Tanh_; Plain (Linear_ (linear0 4))];
     BayesianAgent.actor_mean := [BayesianLinear_ (bayes0 6); Plain Tanh_; Plain (Linear_ (linear0 10))];
     BayesianAgent.actor_logstd := 12;
     BayesianAgent.envs := envs0 |}.

Definition state0 : State Sym nat := {| heap := heap0; gen := 0 |}.

(** A deterministic agent on the same store: the two output layers. *)
Definition agent1 : Agent.t :=
  {| Agent.critic := [Tanh_; Linear_ (linear0 4)];
     Agent.actor_mean := [Tanh_; Linear_ (linear0 10)];
     Agent.actor_logstd := 12 |}.

Definition obs1 : Tensor Sym := const_tensor [2; 2] 1.
Definition act1 : Tensor Sym := const_tensor [2; 1] 2.

(** An agent for 48 observations and 12 actions, layered as
    [Agent.__init__] layers it, with hidden layers of width 4. *)
Definition heap48 : list (Tensor Sym) :=
  [ const_tensor [4; 48] 0; const_tensor [4] 0;
    const_tensor [4; 4] 0; const_tensor [4] 0;
    const_tensor [1; 4] 0; const_tensor [1] 0;
    const_tensor [4; 48] 0; const_tensor [4] 0;
    const_tensor [4; 4] 0; const_tensor [4] 0;
    const_tensor [12; 4] 0; const_tensor [12] 0;
    const_tensor [1; 12] 0 ].

Definition layer48 (n_in n_out base : nat) : Linear :=
  {| in_features := n_in; out_features := n_out; weight := base; bias := base + 1 |}.

Definition agent48 : Agent.t :=
  {| Agent.critic := [Linear_ (layer48 48 4 0); Tanh_; Linear_ (layer48 4 4 2); Tanh_;
                      Linear_ (layer48 4 1 4)];
     Agent.actor_mean := [Linear_ (layer48 48 4 6); Tanh_; Linear_ (layer48 4 4 8); Tanh_;
                          Linear_ (layer48 4 12 10)];
     Agent.actor_logstd := 12 |}.

Definition obs48 : Tensor Sym := const_tensor [2; 48] 1.

(** A component of a class the loop does not know. *)
Definition relu : BModule := Plain (Other_ "ReLU").

(** A network of plain components only, 3 to 2 to 1 features, on the
    store above. *)
Definition plain_net : list Module :=
  [Linear_ {| in_features := 3; out_features := 2; weight := 0; bias := 2 |};
   Tanh_;
   Linear_ (linear0 4)].

Definition obs3 : Tensor Sym := const_tensor [1; 3] 1.
End Examples.

(** * Facts about lists and tensors *)

Section ListFacts.
Context {F : Type} `{Scalar F}.

Lemma length_chunks (n k : nat) (l : list F) : length (chunks n k l) = k.
Proof. revert l. induction k as [|k IH]; intros l; simpl; [reflexivity|]. now rewrite IH. Qed.

Lemma chunks_lookup (n k : nat) (l : list F) (b : nat) :
  b < k -> chunks n k l !! b = Some (take n (drop (b * n) l)).
Proof.
  revert l b. induction k as [|k IH]; intros l b Hb; [lia|].
  destruct b as [|b]; simpl.
  - reflexivity.
  - rewrite IH by lia. rewrite drop_drop. reflexivity.
Qed.

Lemma chunks_map (f : F -> F) (n k : nat) (l : list F) :
  chunks n k (map f l) = map (map f) (chunks n k l).
Proof.
  revert l. induction k as [|k IH]; intros l; simpl; [reflexivity|].
  rewrite <- IH. f_equal.
  - apply firstn_map.
  - f_equal. apply skipn_map.
Qed.

Lemma chunks_concat_repeat (n k : nat) (row : list F) :
  length row = n -> chunks n k (concat (repeat row k)) = repeat row k.
Proof.
  intros <-. induction k as [|k IH]; simpl; [reflexivity|].
  rewrite take_app_length, drop_app_length. now rewrite IH.
Qed.

Lemma length_concat_map {A} (f : A -> list F) (n : nat) (l : list A) :
  (forall a, length (f a) = n) -> length (concat (map f l)) = length l * n.
Proof.
  intros Hf. induction l as [|a l IH]; simpl; [reflexivity|].
  rewrite length_app, Hf, IH. reflexivity.
Qed.

Lemma length_concat_repeat (row : list F) (k : nat) :
  length (concat (repeat row k)) = k * length row.
Proof. induction k as [|k IH]; simpl; [reflexivity|]. rewrite length_app, IH. reflexivity. Qed.

Lemma concat_concat_repeat_singleton (row : list F) (k : nat) :
  concat (concat (repeat [row] k)) = concat (repeat row k).
Proof. induction k as [|k IH]; simpl; [reflexivity|]. now rewrite IH. Qed.

(** A window of a list, entry by entry. *)
Lemma take_drop_nth (d : F) (n off : nat) (l : list F) :
  off + n <= length l ->
  take n (drop off l) = map (fun j => nth (off + j) l d) (seq 0 n).
Proof.
  revert off. induction n as [|n IH]; intros off Hlen; [reflexivity|].
  destruct (lookup_lt_is_Some_2 l off) as [x Hx]; [lia|].
  rewrite (drop_S _ _ _ Hx). simpl.
  rewrite Nat.add_0_r, (nth_lookup_Some _ _ _ _ Hx). f_equal.
  rewrite IH by lia. rewrite <- seq_shift, map_map.
  apply map_ext. intros j. f_equal. lia.
Qed.

Lemma nth_zip_with {A B} (f : A -> B -> F) (da : A) (db : B) (d : F)
      (u : list A) (v : list B) (i : nat) :
  i < length u -> i < length v ->
  nth i (zip_with f u v) d = f (nth i u da) (nth i v db).
Proof.
  intros Hu Hv.
  destruct (lookup_lt_is_Some_2 u i Hu) as [x Hx].
  destruct (lookup_lt_is_Some_2 v i Hv) as [y Hy].
  rewrite (nth_lookup_Some _ _ _ _ Hx), (nth_lookup_Some _ _ _ _ Hy).
  apply nth_lookup_Some. rewrite lookup_zip_with, Hx, Hy. reflexivity.
Qed.

Lemma length_draws {G} (next : G -> F * G) (n : nat) (g : G) :
  length (draws next n g).1 = n.
Proof.
  revert g. induction n as [|n IH]; intros g; simpl; [reflexivity|].
  destruct (next g) as [x g1]. specialize (IH g1).
  destruct (draws next n g1) as [xs g2]. simpl in *. now rewrite IH.
Qed.
End ListFacts.

Section TensorFacts.
Context {F : Type} `{Scalar F}.

Lemma lookup_map {A B} (f : A -> B) (l : list A) (i : nat) :
  map f l !! i = f <$> (l !! i).
Proof. revert i. induction l as [|a l IH]; intros [|i]; simpl; auto. Qed.

Lemma has_shape_true (h : list (Tensor F)) (l : loc) (s : list nat) :
  has_shape h l s = true ->
  exists t, h !! l = Some t /\ shape t = s /\ length (data t) = numel s.
Proof.
  unfold has_shape. destruct (h !! l) as [t|]; [|discriminate].
  intros Hs. apply andb_true_iff in Hs as [Hs Hl].
  apply bool_decide_eq_true in Hs. apply Nat.eqb_eq in Hl. eauto.
Qed.

Lemma has_shape_intro (h : list (Tensor F)) (l : loc) (t : Tensor F) (s : list nat) :
  h !! l = Some t -> shape t = s -> length (data t) = numel s ->
  has_shape h l s = true.
Proof.
  intros Hl Hs Hd. unfold has_shape. rewrite Hl.
  apply andb_true_iff. split; [now apply bool_decide_eq_true | now apply Nat.eqb_eq].
Qed.

(** [F.linear] on a batch of rows. *)
Lemma F_linear_matrix (x W b : Tensor F) (B n_in n_out : nat) :
  shape x = [B; n_in] -> shape W = [n_out; n_in] -> shape b = [n_out] ->
  F_linear x W b
  = Ok {| shape := [B; n_out];
          data := concat (map (fun r =>
                    zip_with fadd (map (dot r) (chunks n_in n_out (data W))) (data b))
                    (chunks n_in B (data x))) |}.
Proof.
  intros Hx HW Hb. unfold F_linear. rewrite Hx, HW, Hb. simpl rev.
  rewrite !Nat.eqb_refl. simpl. now rewrite Nat.mul_1_r.
Qed.

Lemma F_linear_shape (x W b : Tensor F) (B n_in n_out : nat) :
  shape x = [B; n_in] -> shape W = [n_out; n_in] -> shape b = [n_out] ->
  length (data b) = n_out ->
  exists y, F_linear x W b = Ok y /\ shape y = [B; n_out] /\ length (data y) = B * n_out.
Proof.
  intros Hx HW Hb Hlen. rewrite (F_linear_matrix x W b B n_in n_out Hx HW Hb).
  eexists. split; [reflexivity|]. split; [reflexivity|]. simpl.
  rewrite (length_concat_map _ n_out).
  - now rewrite length_chunks.
  - intros r. rewrite length_zip_with, length_map, length_chunks. lia.
Qed.

Lemma Sequential_forward_shape (h : list (Tensor F)) (ms : list Module) :
  forall (x : Tensor F) (B d_in d_out : nat),
    net_ok h ms d_in d_out = true ->
    shape x = [B; d_in] -> length (data x) = B * d_in ->
    exists y, Sequential_forward h ms x = Ok y
              /\ shape y = [B; d_out] /\ length (data y) = B * d_out.
Proof.
  induction ms as [|m ms IH]; intros x B d_in d_out Hok Hx Hlen; simpl in *.
  - apply Nat.eqb_eq in Hok. subst. eauto.
  - destruct m as [l| |c]; [| |discriminate].
    + apply andb_true_iff in Hok as [Hok Hrest].
      apply andb_true_iff in Hok as [Hin Hl]. apply Nat.eqb_eq in Hin.
      apply andb_true_iff in Hl as [HW Hb].
      apply has_shape_true in HW as (W & HW & HsW & _).
      apply has_shape_true in Hb as (b & Hb & Hsb & Hlb).
      unfold Module_forward, lookup_tensor. rewrite HW. simpl. rewrite Hb. simpl.
      rewrite Hin in HsW.
      destruct (F_linear_shape x W b B d_in (out_features l)) as (y & Hy & Hsy & Hly);
        auto.
      { simpl in Hlb. lia. }
      rewrite Hy. simpl. eapply IH; eauto.
    + apply (IH (torch_tanh x) B d_in d_out); auto.
      simpl. now rewrite length_map.
Qed.

(** [F.linear] on a batch of any shape. *)
Lemma F_linear_any_shape (x W b : Tensor F) (batch : list nat) (n_in n_out : nat) :
  shape x = batch ++ [n_in] -> shape W = [n_out; n_in] -> shape b = [n_out] ->
  length (data b) = n_out ->
  exists y, F_linear x W b = Ok y
            /\ shape y = batch ++ [n_out] /\ length (data y) = numel batch * n_out.
Proof.
  intros Hx HW Hb Hlen. unfold F_linear. rewrite Hx, HW, Hb, rev_unit.
  rewrite !Nat.eqb_refl. simpl negb. cbv iota. rewrite rev_involutive.
  eexists. split; [reflexivity|]. split; [reflexivity|]. simpl.
  rewrite (length_concat_map _ n_out).
  - now rewrite length_chunks.
  - intros r. rewrite length_zip_with, length_map, length_chunks. lia.
Qed.

(** A network maps a batch of any shape to a batch of that shape. *)
Lemma Sequential_forward_any_shape (h : list (Tensor F)) (ms : list Module) :
  forall (x : Tensor F) (batch : list nat) (d_in d_out : nat),
    net_ok h ms d_in d_out = true ->
    shape x = batch ++ [d_in] -> length (data x) = numel batch * d_in ->
    exists y, Sequential_forward h ms x = Ok y
              /\ shape y = batch ++ [d_out] /\ length (data y) = numel batch * d_out.
Proof.
  induction ms as [|m ms IH]; intros x batch d_in d_out Hok Hx Hlen; simpl in *.
  - apply Nat.eqb_eq in Hok. subst. eauto.
  - destruct m as [l| |c]; [| |discriminate].
    + apply andb_true_iff in Hok as [Hok Hrest].
      apply andb_true_iff in Hok as [Hin Hl]. apply Nat.eqb_eq in Hin.
      apply andb_true_iff in Hl as [HW Hb].
      apply has_shape_true in HW as (W & HW & HsW & _).
      apply has_shape_true in Hb as (b & Hb & Hsb & Hlb).
      unfold Module_forward, lookup_tensor. rewrite HW. simpl. rewrite Hb. simpl.
      rewrite Hin in HsW.
      destruct (F_linear_any_shape x W b batch d_in (out_features l))
        as (y & Hy & Hsy & Hly); auto.
      { simpl in Hlb. lia. }
      rewrite Hy. simpl. eapply IH; eauto.
    + apply (IH (torch_tanh x) batch d_in d_out); auto.
      simpl. now rewrite length_map.
Qed.

Lemma concat_chunks (n k : nat) (l : list F) :
  concat (chunks n k l) = take (k * n) l.
Proof.
  revert l. induction k as [|k IH]; intros l; simpl; [reflexivity|].
  now rewrite IH, take_take_drop.
Qed.

(** Expanding to the shape a tensor has leaves its data as they are. *)
Lemma expand_data_same (s : list nat) (d : list F) :
  length d = numel s -> expand_data s s d = d.
Proof.
  revert d. induction s as [|n s IH]; intros d Hd; [reflexivity|].
  simpl. rewrite Nat.eqb_refl.
  assert (Hmap : forall k (l : list F), length l = k * numel s ->
            map (expand_data s s) (chunks (numel s) k l) = chunks (numel s) k l).
  { clear Hd d. induction k as [|k IHk]; intros l Hl; simpl; [reflexivity|].
    rewrite IH, IHk; [reflexivity| |].
    - rewrite length_drop. simpl in Hl. lia.
    - rewrite length_take. simpl in Hl. lia. }
  rewrite Hmap by exact Hd. rewrite concat_chunks. apply take_ge. simpl in Hd. lia.
Qed.

(** A row expanded over a batch. *)
Lemma expand_data_row (B D : nat) (d : list F) :
  length d = D -> expand_data [1; D] [B; D] d = concat (repeat d B).
Proof.
  intros Hd. change (expand_data [1; D] [B; D] d)
    with (let blocks := map (expand_data [D] [D]) (chunks (numel [D]) 1 d) in
          if 1 =? B then concat blocks else concat (repeat (concat blocks) B)).
  assert (Hb : map (expand_data [D] [D]) (chunks (numel [D]) 1 d) = [d]).
  { assert (Hc : chunks (numel [D]) 1 d = [d]).
    { simpl. now rewrite take_ge by lia. }
    rewrite Hc. cbn [map]. now rewrite expand_data_same by (simpl; lia). }
  cbv zeta. rewrite Hb. simpl concat at 1 3. rewrite app_nil_r.
  destruct (Nat.eqb_spec 1 B) as [<-|_]; [|reflexivity].
  simpl. now rewrite app_nil_r.
Qed.

Lemma expand_as_row (ls other : Tensor F) (B D : nat) :
  shape ls = [1; D] -> length (data ls) = D -> shape other = [B; D] ->
  expand_as ls other = Ok {| shape := [B; D]; data := concat (repeat (data ls) B) |}.
Proof.
  intros Hls Hlen Ho. unfold expand_as, expand. rewrite Hls, Ho.
  assert (He : expandable [1; D] [B; D] = true).
  { unfold expandable, pad_shape. simpl. rewrite Nat.eqb_refl.
    now rewrite !orb_true_r. }
  rewrite He. change (pad_shape (length [B; D]) [1; D]) with [1; D].
  now rewrite (expand_data_row B D) by exact Hlen.
Qed.

(** [expand_as] looks at the shape of its second argument only. *)
Lemma expand_as_shape_only (t o1 o2 : Tensor F) :
  shape o1 = shape o2 -> expand_as t o1 = expand_as t o2.
Proof. intros Hs. unfold expand_as. now rewrite Hs. Qed.

Lemma broadcast_rev_same (s : list nat) : broadcast_rev s s = Some s.
Proof.
  induction s as [|a s IH]; simpl; [reflexivity|].
  unfold broadcast_dim. now rewrite Nat.eqb_refl, IH.
Qed.

Lemma broadcast_shapes_same (s : list nat) : broadcast_shapes s s = Some s.
Proof.
  unfold broadcast_shapes. rewrite broadcast_rev_same. simpl. now rewrite rev_involutive.
Qed.

Lemma broadcast_to_same (t : Tensor F) : broadcast_to t (shape t) = data t.
Proof. unfold broadcast_to. now rewrite bool_decide_eq_true_2. Qed.
End TensorFacts.

Section AgentFacts.
Context {F G : Type} `{Scalar F} `{Generator G F}.

Lemma F_linear_result_shape (x x' W b y y' : Tensor F) :
  shape x = shape x' -> F_linear x W b = Ok y -> F_linear x' W b = Ok y' ->
  shape y = shape y'.
Proof.
  unfold F_linear. intros <-.
  destruct (shape W) as [|n_out [|n_in [|? ?]]]; try discriminate.
  destruct (shape b) as [|n_out' [|? ?]]; try discriminate.
  destruct (rev (shape x)) as [|n batch]; try discriminate.
  destruct (negb (n =? n_in)); try discriminate.
  destruct (negb (n_out' =? n_out)); try discriminate.
  intros [= <-] [= <-]. reflexivity.
Qed.

Lemma Sequential_forward_result_shape (h : list (Tensor F)) (ms : list Module) :
  forall x x' y y',
    shape x = shape x' ->
    Sequential_forward h ms x = Ok y -> Sequential_forward h ms x' = Ok y' ->
    shape y = shape y'.
Proof.
  induction ms as [|m ms IH]; intros x x' y y' Hs; simpl.
  - intros [= <-] [= <-]. exact Hs.
  - destruct m as [l| |c]; simpl; [| |discriminate].
    + destruct (lookup_tensor h (weight l)) as [W|]; simpl; [|discriminate].
      destruct (lookup_tensor h (bias l)) as [b|]; simpl; [|discriminate].
      destruct (F_linear x W b) as [z|] eqn:Hz; simpl; [|discriminate].
      destruct (F_linear x' W b) as [z'|] eqn:Hz'; simpl; [|discriminate].
      apply IH. eapply F_linear_result_shape; eauto.
    + apply IH. exact Hs.
Qed.

(** The forward pass reads the store at the parameters of the network
    only. *)
Lemma Sequential_forward_agree (h1 h2 : list (Tensor F)) (ms : list Module) :
  agree_on (Sequential_params ms) h1 h2 ->
  forall x, Sequential_forward h1 ms x = Sequential_forward h2 ms x.
Proof.
  induction ms as [|m ms IH]; intros Hag x; simpl; [reflexivity|].
  assert (Hrest : agree_on (Sequential_params ms) h1 h2).
  { intros l Hl. apply Hag. unfold Sequential_params. simpl.
    apply elem_of_app. now right. }
  destruct m as [l| |c]; simpl; [| |reflexivity].
  - unfold lookup_tensor.
    rewrite <- (Hag (weight l)), <- (Hag (bias l)).
    + destruct (h1 !! weight l); simpl; [|reflexivity].
      destruct (h1 !! bias l); simpl; [|reflexivity].
      destruct (F_linear x t t0); simpl; [|reflexivity]. now apply IH.
    + unfold Sequential_params. simpl. apply elem_of_cons. right. apply elem_of_cons. now left.
    + unfold Sequential_params. simpl. apply elem_of_cons. now left.
  - now apply IH.
Qed.

Lemma policy_agree (self : Agent.t) (h1 h2 : list (Tensor F)) (x : Tensor F) :
  agree_on (Agent_params self) h1 h2 ->
  Agent.policy self h1 x = Agent.policy self h2 x.
Proof.
  intros Hag. unfold Agent.policy.
  rewrite (Sequential_forward_agree h1 h2).
  - unfold lookup_tensor. rewrite (Hag (Agent.actor_logstd self)); [reflexivity|].
    unfold Agent_params. rewrite !elem_of_app. right. right. apply elem_of_cons. now left.
  - intros l Hl. apply Hag. unfold Agent_params. rewrite !elem_of_app. auto.
Qed.

Lemma policy_spec (self : Agent.t) (h : list (Tensor F)) (x : Tensor F) (obs D B : nat) :
  Agent_ok h self obs D = true ->
  shape x = [B; obs] -> length (data x) = B * obs ->
  exists mean ls,
    Sequential_forward h (Agent.actor_mean self) x = Ok mean
    /\ shape mean = [B; D] /\ length (data mean) = B * D
    /\ h !! Agent.actor_logstd self = Some ls
    /\ shape ls = [1; D] /\ length (data ls) = D
    /\ Agent.policy self h x
       = new_Normal mean (torch_exp {| shape := [B; D];
                                       data := concat (repeat (data ls) B) |}).
Proof.
  intros Hok Hx Hlen. unfold Agent_ok in Hok.
  apply andb_true_iff in Hok as [Hok Hls]. apply andb_true_iff in Hok as [_ Hact].
  destruct (Sequential_forward_shape h _ x B obs D Hact Hx Hlen) as (mean & Hm & Hsm & Hlm).
  apply has_shape_true in Hls as (ls & Hl & Hsl & Hll).
  simpl in Hll. rewrite Nat.add_0_r, Nat.mul_1_r in Hll.
  exists mean, ls. repeat split; auto.
  unfold Agent.policy. rewrite Hm. simpl. unfold lookup_tensor. rewrite Hl. simpl.
  rewrite (expand_as_row ls mean B D) by auto. reflexivity.
Qed.

(** One entry of [t.sum(1)]: the sum of the entries of a row. *)
Lemma sum1_row (l : list F) (B D b : nat) :
  b < B -> B * D <= length l ->
  map fsum (chunks D B l) !! b
  = Some (fsum (map (fun d => nth (b * D + d) l fzero) (seq 0 D))).
Proof.
  intros Hb Hlen. rewrite lookup_map, chunks_lookup by lia. simpl.
  rewrite (take_drop_nth fzero); [reflexivity|]. nia.
Qed.
End AgentFacts.

Section AgentRuns.
Context {F G : Type} `{Scalar F} `{Generator G F}.

(** With an action supplied, [get_action_and_value] is a pure
    computation on the store. *)
Lemma get_action_and_value_Some (self : Agent.t) (x a0 : Tensor F) (s : State F G) :
  Agent.get_action_and_value self x (Some a0) s
  = ((let? probs := Agent.policy self (heap s) x in
      let? lp := Normal_log_prob probs a0 in
      let? log_prob := sum1 lp in
      let? entropy := sum1 (Normal_entropy probs) in
      let? value := Agent.get_value self (heap s) x in
      Ok (a0, log_prob, entropy, value))%result, s).
Proof.
  unfold Agent.get_action_and_value, Agent.get_value, bind, reading, lift, ret.
  destruct (Agent.policy self (heap s) x) as [probs|]; simpl; [|reflexivity].
  destruct (Normal_log_prob probs a0) as [lp|]; simpl; [|reflexivity].
  destruct (sum1 lp); simpl; [|reflexivity].
  destruct (sum1 (Normal_entropy probs)); simpl; [|reflexivity].
  destruct (Sequential_forward (heap s) (Agent.critic self) x); reflexivity.
Qed.

(** Without one, the action is drawn first; the rest is the computation
    above on the drawn action. *)
Lemma get_action_and_value_None (self : Agent.t) (x : Tensor F) (s : State F G) :
  Agent.get_action_and_value self x None s
  = match Agent.policy self (heap s) x with
    | Ok probs =>
        match Normal_sample probs s with
        | (Ok a, s1) => Agent.get_action_and_value self x (Some a) s1
        | (Raise e, s1) => (Raise e, s1)
        end
    | Raise e => (Raise e, s)
    end.
Proof.
  destruct (Agent.policy self (heap s) x) as [probs|] eqn:Hp.
  - unfold Normal_sample, bind, draw, ret.
    destruct (draws next_normal _ (gen s)) as [eps g'] eqn:Hd.
    rewrite get_action_and_value_Some. simpl. rewrite Hp. simpl.
    unfold Agent.get_action_and_value, Agent.get_value, bind, reading, lift, ret.
    rewrite Hp. unfold Normal_sample, bind, draw, ret. rewrite Hd. simpl.
    destruct (Normal_log_prob probs _) as [lp|]; simpl; [|reflexivity].
    destruct (sum1 lp); simpl; [|reflexivity].
    destruct (sum1 (Normal_entropy probs)); simpl; [|reflexivity].
    destruct (Sequential_forward (heap s) (Agent.critic self) x); reflexivity.
  - unfold Agent.get_action_and_value, bind, reading. now rewrite Hp.
Qed.

Lemma Normal_sample_spec (p : Normal F) (s : State F G) :
  Normal_sample p s
  = (Ok {| shape := shape (loc_ p);
           data := zip_with (fun ms e => fadd (fmul e ms.2) ms.1)
                     (zip (data (loc_ p)) (data (scale p)))
                     (draws next_normal (numel (shape (loc_ p))) (gen s)).1 |},
     {| heap := heap s;
        gen := (draws next_normal (numel (shape (loc_ p))) (gen s)).2 |}).
Proof.
  unfold Normal_sample, bind, draw, ret.
  destruct (draws next_normal _ (gen s)) as [eps g']. reflexivity.
Qed.

(** [log_prob] of a value of the shape of the distribution. *)
Lemma Normal_log_prob_same_shape (p : Normal F) (value : Tensor F) :
  shape value = shape (loc_ p) -> shape (scale p) = shape (loc_ p) ->
  Normal_log_prob p value
  = if all_real value then
      Ok {| shape := shape (loc_ p);
            data := zip_with (fun ms v => normal_log_prob ms.1 ms.2 v)
                             (zip (data (loc_ p)) (data (scale p))) (data value) |}
    else Raise ValueError.
Proof.
  intros Hv Hs. unfold Normal_log_prob. rewrite Hv, broadcast_shapes_same.
  rewrite broadcast_to_same. rewrite <- Hs at 2. rewrite broadcast_to_same.
  rewrite <- Hv. now rewrite broadcast_to_same.
Qed.

(** What [get_action_and_value] does on a well-shaped agent, batch and
    action: the Gaussian has the mean the actor computes and the standard
    deviation [exp(actor_logstd)] in every row; [ValueError] when
    [Normal] refuses them or the action has a NaN entry; otherwise the
    four results. *)
Lemma get_action_and_value_spec (self : Agent.t) (h : list (Tensor F)) (g : G)
      (x : Tensor F) (action : option (Tensor F)) (obs D B : nat) :
  Agent_ok h self obs D = true ->
  shape x = [B; obs] -> length (data x) = B * obs ->
  (forall a, action = Some a -> shape a = [B; D] /\ length (data a) = B * D) ->
  exists mean ls a v g',
    Sequential_forward h (Agent.actor_mean self) x = Ok mean
    /\ (shape mean = [B; D] /\ length (data mean) = B * D)
    /\ h !! Agent.actor_logstd self = Some ls
    /\ (shape ls = [1; D] /\ length (data ls) = D)
    /\ Agent.get_value self h x = Ok v
    /\ (shape v = [B; 1] /\ length (data v) = B * 1)
    /\ (shape a = [B; D] /\ length (data a) = B * D)
    /\ let std := torch_exp {| shape := [B; D]; data := concat (repeat (data ls) B) |} in
       Agent.policy self h x = new_Normal mean std
       /\ match action with
          | Some a0 => a = a0 /\ g' = g
          | None =>
              a = {| shape := [B; D];
                     data := zip_with (fun ms e => fadd (fmul e ms.2) ms.1)
                               (zip (data mean) (data std))
                               (draws next_normal (B * D) g).1 |}
              /\ g' = (draws next_normal (B * D) g).2
          end
       /\ Agent.get_action_and_value self x action {| heap := h; gen := g |}
          = if all_real mean && all_positive std then
              (if all_real a then
                 Ok (a,
                     {| shape := [B];
                        data := map fsum (chunks D B
                                  (zip_with (fun ms v => normal_log_prob ms.1 ms.2 v)
                                     (zip (data mean) (data std)) (data a))) |},
                     {| shape := [B];
                        data := map fsum (chunks D B (map normal_entropy (data std))) |},
                     v)
               else Raise ValueError,
               {| heap := h; gen := g' |})
            else (Raise ValueError, {| heap := h; gen := g |}).
Proof.
  intros Hok Hx Hlen Hact.
  destruct (policy_spec self h x obs D B Hok Hx Hlen)
    as (mean & ls & Hm & Hsm & Hlm & Hl & Hsl & Hll & Hp).
  unfold Agent_ok in Hok.
  apply andb_true_iff in Hok as [Hok _]. apply andb_true_iff in Hok as [Hcr _].
  destruct (Sequential_forward_shape h _ x B obs 1 Hcr Hx Hlen) as (v & Hv & Hsv & Hlv).
  set (std := torch_exp {| shape := [B; D]; data := concat (repeat (data ls) B) |}) in *.
  assert (Hlsc : length (data std) = B * D).
  { simpl. rewrite length_map, length_concat_repeat, Hll. reflexivity. }
  assert (Hrun : forall a g', shape a = [B; D] ->
    all_real mean && all_positive std = true ->
    Agent.get_action_and_value self x (Some a) {| heap := h; gen := g' |}
    = (if all_real a then
         Ok (a,
             {| shape := [B];
                data := map fsum (chunks D B
                          (zip_with (fun ms v => normal_log_prob ms.1 ms.2 v)
                             (zip (data mean) (data std)) (data a))) |},
             {| shape := [B];
                data := map fsum (chunks D B (map normal_entropy (data std))) |},
             v)
       else Raise ValueError,
       {| heap := h; gen := g' |})).
  { intros a g' Hsa Hvalid. rewrite get_action_and_value_Some. simpl heap.
    rewrite Hp. unfold new_Normal. rewrite Hvalid. simpl rbind.
    rewrite Normal_log_prob_same_shape by (simpl; congruence). simpl loc_. simpl scale.
    destruct (all_real a); [|reflexivity].
    rewrite Hsm. simpl. unfold Agent.get_value. rewrite Hv. reflexivity. }
  destruct action as [a0|].
  - destruct (Hact a0 eq_refl) as [Hsa Hla].
    exists mean, ls, a0, v, g. split; [exact Hm|]. split; [auto|].
    split; [exact Hl|]. split; [auto|]. split; [exact Hv|]. split; [auto|].
    split; [auto|]. cbv zeta. fold std.
    split; [exact Hp|]. split; [auto|].
    destruct (all_real mean && all_positive std) eqn:Hvalid.
    + now apply Hrun.
    + rewrite get_action_and_value_Some. simpl heap. rewrite Hp.
      unfold new_Normal. rewrite Hvalid. reflexivity.
  - exists mean, ls,
      {| shape := [B; D];
         data := zip_with (fun ms e => fadd (fmul e ms.2) ms.1)
                   (zip (data mean) (data std)) (draws next_normal (B * D) g).1 |},
      v, (draws next_normal (B * D) g).2.
    split; [exact Hm|]. split; [auto|].
    split; [exact Hl|]. split; [auto|]. split; [exact Hv|]. split; [auto|].
    split; [|cbv zeta; split; [exact Hp|]; split; [split; reflexivity|]].
    + simpl shape. simpl data. split; [reflexivity|].
      rewrite !length_zip_with, length_draws, length_map, length_concat_repeat. lia.
    + rewrite get_action_and_value_None. simpl heap. rewrite Hp.
      unfold new_Normal. fold std.
      destruct (all_real mean && all_positive std) eqn:Hvalid; [|reflexivity].
      rewrite Normal_sample_spec. simpl loc_. simpl scale. simpl heap. simpl gen.
      rewrite Hsm. replace (numel [B; D]) with (B * D) by (simpl; lia).
      now apply Hrun.
Qed.
End AgentRuns.

Section AgentClaims.
Context {F G : Type} `{Scalar F} `{Generator G F}.

Lemma entry_nth (t : Tensor F) (B D b d : nat) :
  shape t = [B; D] -> entry t b d = nth (b * D + d) (data t) fzero.
Proof. intros Hs. unfold entry. now rewrite Hs. Qed.

(** Entry [b] of the summed log-probability: the sum over the action
    dimensions of the log-densities of batch element [b]. *)
Lemma log_prob_row (mean std a : Tensor F) (B D b : nat) :
  shape mean = [B; D] -> shape std = [B; D] -> shape a = [B; D] ->
  length (data mean) = B * D -> length (data std) = B * D ->
  length (data a) = B * D -> b < B ->
  map fsum (chunks D B
              (zip_with (fun ms v => normal_log_prob ms.1 ms.2 v)
                        (zip (data mean) (data std)) (data a))) !! b
  = Some (fsum (map (fun d => normal_log_prob (entry mean b d) (entry std b d)
                                              (entry a b d))
                    (seq 0 D))).
Proof.
  intros Hsm Hss Hsa Hlm Hls Hla Hb.
  rewrite sum1_row; auto.
  2:{ rewrite !length_zip_with. lia. }
  do 2 f_equal. apply map_ext_in. intros d Hd. apply in_seq in Hd.
  rewrite (entry_nth _ B D), (entry_nth _ B D), (entry_nth _ B D) by auto.
  assert (b * D + d < B * D) by nia.
  rewrite (nth_zip_with _ (fzero, fzero) fzero fzero).
  - rewrite (nth_zip_with (A:=F) (B:=F) pair fzero fzero (fzero, fzero)) by lia. reflexivity.
  - rewrite length_zip_with. lia.
  - lia.
Qed.

Lemma entropy_row (std : Tensor F) (B D b : nat) :
  shape std = [B; D] -> length (data std) = B * D -> b < B ->
  map fsum (chunks D B (map normal_entropy (data std))) !! b
  = Some (fsum (map (fun d => normal_entropy (entry std b d)) (seq 0 D))).
Proof.
  intros Hss Hls Hb.
  rewrite sum1_row; auto.
  2:{ rewrite length_map. lia. }
  do 2 f_equal. apply map_ext_in. intros d Hd. apply in_seq in Hd.
  rewrite (entry_nth _ B D) by auto.
  assert (Hlt : b * D + d < length (data std)) by nia.
  destruct (lookup_lt_is_Some_2 _ _ Hlt) as [y Hy].
  rewrite (nth_lookup_Some _ _ fzero _ Hy).
  apply nth_lookup_Some. rewrite lookup_map, Hy. reflexivity.
Qed.

(** The rows of [exp(actor_logstd.expand_as(action_mean))]. *)
Lemma std_rows (ls : Tensor F) (B D : nat) :
  length (data ls) = D ->
  chunks D B (data (torch_exp {| shape := [B; D];
                                 data := concat (repeat (data ls) B) |}))
  = repeat (map fexp (data ls)) B.
Proof.
  intros Hll. simpl. rewrite chunks_map, chunks_concat_repeat by exact Hll.
  clear. induction B as [|B IH]; simpl; [reflexivity|]. now rewrite IH.
Qed.

Lemma std_entry (ls : Tensor F) (B D b d : nat) :
  length (data ls) = D -> b < B -> d < D ->
  entry (torch_exp {| shape := [B; D]; data := concat (repeat (data ls) B) |}) b d
  = fexp (nth d (data ls) fzero).
Proof.
  intros Hll Hb Hd. pose proof (std_rows ls B D Hll) as Hrows.
  unfold entry. simpl in *.
  assert (Hrow : chunks D B (map fexp (concat (repeat (data ls) B))) !! b
                 = Some (map fexp (data ls))).
  { rewrite Hrows. clear -Hb. revert b Hb.
    induction B as [|B IH]; intros [|b] Hb; simpl; try lia; [reflexivity|].
    apply IH. lia. }
  rewrite chunks_lookup in Hrow by exact Hb. injection Hrow as Hrow.
  rewrite (take_drop_nth fzero) in Hrow.
  2:{ rewrite length_map, length_concat_repeat. nia. }
  assert (Hd' : d < length (data ls)) by lia.
  destruct (lookup_lt_is_Some_2 _ _ Hd') as [y Hy].
  rewrite (nth_lookup_Some _ _ fzero _ Hy).
  assert (Hy' : map fexp (data ls) !! d = Some (fexp y)).
  { rewrite lookup_map, Hy. reflexivity. }
  rewrite <- Hrow, lookup_map in Hy'.
  assert (Hseq : seq 0 D !! d = Some d) by (apply lookup_seq; lia).
  rewrite Hseq in Hy'. simpl in Hy'. now injection Hy'.
Qed.

Lemma std_length (ls : Tensor F) (B D : nat) :
  length (data ls) = D ->
  length (data (torch_exp {| shape := [B; D];
                             data := concat (repeat (data ls) B) |})) = B * D.
Proof. intros <-. simpl. now rewrite length_map, length_concat_repeat. Qed.

(** C4: for an agent shaped for observations of [obs] entries and actions of
    [D] entries and a batch [x] of shape (B, obs), [get_action_and_value]
    builds the Gaussian of the actor's mean and a standard deviation, both
    of shape (B, D), and returns the action, supplied or drawn, of shape
    (B, D), a log-probability and an entropy of shape (B,) and a value of
    shape (B, 1); entry [b] of the log-probability (entropy) is the sum
    over the [D] action dimensions of the Gaussian log-densities
    (entropies) of batch element [b].  It returns them whenever the
    validation of [Normal] passes, that is when the mean and the action
    have no NaN entry and the standard deviation is above 0 everywhere;
    otherwise it raises [ValueError]. *)
Theorem get_action_and_value_shapes_and_sums
    (self : Agent.t) (h : list (Tensor F)) (g : G) (x : Tensor F)
    (action : option (Tensor F)) (obs D B : nat) :
  Agent_ok h self obs D = true ->
  shape x = [B; obs] -> length (data x) = B * obs ->
  (forall a, action = Some a -> shape a = [B; D] /\ length (data a) = B * D) ->
  exists mean std a lp ent v s',
    Sequential_forward h (Agent.actor_mean self) x = Ok mean
    /\ Agent.policy self h x = new_Normal mean std
    /\ (forall a0, action = Some a0 -> a = a0)
    /\ Agent.get_action_and_value self x action {| heap := h; gen := g |}
       = (if all_real mean && all_positive std then
            (if all_real a then Ok (a, lp, ent, v) else Raise ValueError, s')
          else (Raise ValueError, {| heap := h; gen := g |}))
    /\ (shape mean = [B; D] /\ shape std = [B; D])
    /\ (shape a = [B; D] /\ shape lp = [B] /\ shape ent = [B] /\ shape v = [B; 1])
    /\ (length (data a) = B * D /\ length (data lp) = B
        /\ length (data ent) = B /\ length (data v) = B)
    /\ forall b, b < B ->
         data lp !! b
         = Some (fsum (map (fun d => normal_log_prob (entry mean b d)
                                       (entry std b d) (entry a b d))
                           (seq 0 D)))
         /\ data ent !! b
            = Some (fsum (map (fun d => normal_entropy (entry std b d))
                              (seq 0 D))).
Proof.
  intros Hok Hx Hlen Hact.
  destruct (get_action_and_value_spec self h g x action obs D B Hok Hx Hlen Hact)
    as (mean & ls & a & v & g' & Hm & [Hsm Hlm] & Hl & [Hsl Hll] & Hv & [Hsv Hlv]
        & [Hsa Hla] & Hp & Ha & Hrun).
  cbv zeta in Hp, Ha, Hrun.
  set (std := torch_exp {| shape := [B; D]; data := concat (repeat (data ls) B) |}) in *.
  pose proof (std_length ls B D Hll) as Hlstd. fold std in Hlstd.
  eexists mean, std, a, _, _, v, _.
  split; [exact Hm|]. split; [exact Hp|]. split.
  { intros a0 ->. now destruct Ha. }
  split; [exact Hrun|]. split; [auto|]. split; [auto|]. split.
  { cbn [data]. rewrite !length_map, !length_chunks. repeat split; auto. lia. }
  intros b Hb. split.
  - exact (log_prob_row mean std a B D b Hsm eq_refl Hsa Hlm Hlstd Hla Hb).
  - exact (entropy_row std B D b eq_refl Hlstd Hb).
Qed.

(** C7: the fourth value returned by [get_action_and_value], with or without
    an action, for an observation and an action of any shape, is the
    critic's output [get_value x]; [get_value] reads the store at the
    critic's parameters and nothing else.  On a well-shaped agent
    [get_value] returns one value for every observation of a batch of any
    shape, and on a batch (B, obs) [get_action_and_value] returns the value
    of shape (B, 1) as its fourth value unless the validation of [Normal]
    raises [ValueError]. *)
Theorem get_action_and_value_returns_get_value
    (self : Agent.t) (x : Tensor F) (action : option (Tensor F)) (s : State F G) :
  (forall a lp ent v s',
      Agent.get_action_and_value self x action s = (Ok (a, lp, ent, v), s') ->
      Agent.get_value self (heap s) x = Ok v)
  /\ (forall h2, agree_on (Sequential_params (Agent.critic self)) (heap s) h2 ->
        Agent.get_value self h2 x = Agent.get_value self (heap s) x)
  /\ (forall obs D batch,
        Agent_ok (heap s) self obs D = true ->
        shape x = batch ++ [obs] -> length (data x) = numel batch * obs ->
        exists v, Agent.get_value self (heap s) x = Ok v
                  /\ shape v = batch ++ [1] /\ length (data v) = numel batch)
  /\ (forall obs D B,
        Agent_ok (heap s) self obs D = true ->
        shape x = [B; obs] -> length (data x) = B * obs ->
        (forall a, action = Some a -> shape a = [B; D] /\ length (data a) = B * D) ->
        exists mean std a lp ent v s',
          Agent.get_value self (heap s) x = Ok v
          /\ shape v = [B; 1]
          /\ Agent.policy self (heap s) x = new_Normal mean std
          /\ (forall a0, action = Some a0 -> a = a0)
          /\ Agent.get_action_and_value self x action s
             = if all_real mean && all_positive std then
                 (if all_real a then Ok (a, lp, ent, v) else Raise ValueError, s')
               else (Raise ValueError, s)).
Proof.
  assert (Hsome : forall a0 s0 a lp ent v s',
    Agent.get_action_and_value self x (Some a0) s0 = (Ok (a, lp, ent, v), s') ->
    Agent.get_value self (heap s0) x = Ok v).
  { intros a0 s0 a lp ent v s'. rewrite get_action_and_value_Some.
    destruct (Agent.policy self (heap s0) x) as [probs|]; simpl; [|discriminate].
    destruct (Normal_log_prob probs a0) as [lp0|]; simpl; [|discriminate].
    destruct (sum1 lp0); simpl; [|discriminate].
    destruct (sum1 (Normal_entropy probs)); simpl; [|discriminate].
    destruct (Agent.get_value self (heap s0) x); simpl; [|discriminate].
    intros [= _ _ _ <- _]. reflexivity. }
  split; [|split; [|split]].
  - intros a lp ent v s'. destruct action as [a0|]; [apply Hsome|].
    rewrite get_action_and_value_None.
    destruct (Agent.policy self (heap s) x) as [probs|]; [|discriminate].
    rewrite Normal_sample_spec. intros Hrun. apply Hsome in Hrun. exact Hrun.
  - intros h2 Hag. unfold Agent.get_value. symmetry.
    now apply Sequential_forward_agree.
  - intros obs D batch Hok Hx Hlen. unfold Agent_ok in Hok.
    apply andb_true_iff in Hok as [Hok _]. apply andb_true_iff in Hok as [Hcr _].
    destruct (Sequential_forward_any_shape _ _ x batch obs 1 Hcr Hx Hlen)
      as (v & Hv & Hsv & Hlv).
    exists v. split; [exact Hv|]. split; [exact Hsv|]. lia.
  - intros obs D B Hok Hx Hlen Hact. destruct s as [h g].
    destruct (get_action_and_value_spec self h g x action obs D B Hok Hx Hlen Hact)
      as (mean & ls & a & v & g' & _ & _ & _ & _ & Hv & [Hsv _] & _ & Hp & Ha & Hrun).
    cbv zeta in Hp, Ha, Hrun.
    eexists mean, _, a, _, _, v, _.
    split; [exact Hv|]. split; [exact Hsv|]. split; [exact Hp|]. split.
    { intros a0 ->. now destruct Ha. }
    exact Hrun.
Qed.

(** C8: the standard deviation of the Gaussian that [get_action_and_value]
    builds is [exp(actor_logstd)], the same row for every batch element,
    and it is the same for every batch of the same shape, whatever the
    observations are.  It is the deviation the results are computed with:
    a drawn action is the mean plus the noise times [exp(actor_logstd)] of
    its dimension, and the log-probability and the entropy of a batch
    element are the sums over the dimensions of the log-density and the
    entropy at [exp(actor_logstd)] of the dimension.  The results are
    returned whenever the validation of [Normal] passes. *)
Theorem policy_std_is_exp_actor_logstd
    (self : Agent.t) (h : list (Tensor F)) (g : G) (x : Tensor F)
    (action : option (Tensor F)) (obs D B : nat) :
  Agent_ok h self obs D = true ->
  shape x = [B; obs] -> length (data x) = B * obs ->
  (forall a, action = Some a -> shape a = [B; D] /\ length (data a) = B * D) ->
  exists mean ls std a lp ent v s',
    h !! Agent.actor_logstd self = Some ls
    /\ Sequential_forward h (Agent.actor_mean self) x = Ok mean
    /\ Agent.policy self h x = new_Normal mean std
    /\ (shape std = [B; D]
        /\ chunks D B (data std) = repeat (map fexp (data ls)) B
        /\ forall b d, b < B -> d < D -> entry std b d = fexp (nth d (data ls) fzero))
    /\ (forall x', shape x' = [B; obs] -> length (data x') = B * obs ->
          exists mean', Agent.policy self h x' = new_Normal mean' std)
    /\ Agent.get_action_and_value self x action {| heap := h; gen := g |}
       = (if all_real mean && all_positive std then
            (if all_real a then Ok (a, lp, ent, v) else Raise ValueError, s')
          else (Raise ValueError, {| heap := h; gen := g |}))
    /\ (action = None ->
        forall b d, b < B -> d < D ->
          entry a b d
          = fadd (fmul (nth (b * D + d) (draws next_normal (B * D) g).1 fzero)
                       (fexp (nth d (data ls) fzero)))
                 (entry mean b d))
    /\ forall b, b < B ->
         data lp !! b
         = Some (fsum (map (fun d => normal_log_prob (entry mean b d)
                                       (fexp (nth d (data ls) fzero))
                                       (entry a b d))
                           (seq 0 D)))
         /\ data ent !! b
            = Some (fsum (map (fun d => normal_entropy (fexp (nth d (data ls) fzero)))
                              (seq 0 D))).
Proof.
  intros Hok Hx Hlen Hact.
  destruct (get_action_and_value_spec self h g x action obs D B Hok Hx Hlen Hact)
    as (mean & ls & a & v & g' & Hm & [Hsm Hlm] & Hl & [Hsl Hll] & Hv & [Hsv Hlv]
        & [Hsa Hla] & Hp & Ha & Hrun).
  cbv zeta in Hp, Ha, Hrun.
  set (std := torch_exp {| shape := [B; D]; data := concat (repeat (data ls) B) |}) in *.
  pose proof (std_length ls B D Hll) as Hlstd. fold std in Hlstd.
  eexists mean, ls, std, a, _, _, v, _.
  split; [exact Hl|]. split; [exact Hm|]. split; [exact Hp|]. split.
  { split; [reflexivity|]. split; [now apply std_rows|].
    intros b d Hb Hd. now apply std_entry. }
  split.
  { intros x' Hx' Hlen'.
    destruct (policy_spec self h x' obs D B Hok Hx' Hlen')
      as (mean' & ls' & _ & _ & _ & Hl' & _ & _ & Hp').
    rewrite Hl in Hl'. injection Hl' as <-. exists mean'. exact Hp'. }
  split; [exact Hrun|]. split.
  - intros -> b d Hb Hd. destruct Ha as [-> _].
    rewrite (entry_nth _ B D), (entry_nth mean B D) by auto. simpl data.
    assert (b * D + d < B * D) by nia.
    rewrite (nth_zip_with _ (fzero, fzero) fzero fzero).
    + rewrite (nth_zip_with (A:=F) (B:=F) pair fzero fzero (fzero, fzero))
        by (rewrite ?length_map, ?length_concat_repeat; lia).
      simpl fst. simpl snd. f_equal. f_equal.
      rewrite <- (std_entry ls B D b d Hll Hb Hd). now rewrite (entry_nth _ B D).
    + rewrite length_zip_with, length_map, length_concat_repeat. lia.
    + rewrite length_draws. lia.
  - intros b Hb. cbn [data]. split.
    + rewrite (log_prob_row mean std a B D b) by auto.
      do 2 f_equal. apply map_ext_in. intros d Hd. apply in_seq in Hd.
      f_equal. apply (std_entry ls B D b d Hll Hb). lia.
    + rewrite (entropy_row std B D b) by auto.
      do 2 f_equal. apply map_ext_in. intros d Hd. apply in_seq in Hd.
      f_equal. apply (std_entry ls B D b d Hll Hb). lia.
Qed.

(** C10: with an action supplied, [get_action_and_value] draws nothing and
    writes nothing, the state is left as it was, and the action it returns
    is the one it was given, whatever its shape.  On a well-shaped agent
    and batch the log-probability and the entropy are those of the
    supplied action under the Gaussian of the parameters in the store, the
    mean the actor computes from them and the deviation
    [exp(actor_logstd)]: for an action of any shape, [log_prob] of that
    Gaussian at the action, broadcast and summed; for an action of the
    shape of the mean, entry by entry, the sums over the action dimensions
    of the log-densities and of the entropies.  They are returned with the
    critic's value unless the validation of [Normal] raises
    [ValueError]. *)
Theorem get_action_and_value_with_action
    (self : Agent.t) (x a0 : Tensor F) (s : State F G) :
  (Agent.get_action_and_value self x (Some a0) s).2 = s
  /\ (forall a lp ent v s',
        Agent.get_action_and_value self x (Some a0) s = (Ok (a, lp, ent, v), s') ->
        a = a0)
  /\ (forall obs D B,
        Agent_ok (heap s) self obs D = true ->
        shape x = [B; obs] -> length (data x) = B * obs ->
        exists mean ls v,
          Sequential_forward (heap s) (Agent.actor_mean self) x = Ok mean
          /\ heap s !! Agent.actor_logstd self = Some ls
          /\ Agent.get_value self (heap s) x = Ok v
          /\ let std := torch_exp {| shape := [B; D];
                                     data := concat (repeat (data ls) B) |} in
             Agent.get_action_and_value self x (Some a0) s
             = ((let? probs := new_Normal mean std in
                 let? lp0 := Normal_log_prob probs a0 in
                 let? lp := sum1 lp0 in
                 let? ent := sum1 (Normal_entropy probs) in
                 Ok (a0, lp, ent, v))%result, s)
             /\ (shape a0 = [B; D] -> length (data a0) = B * D ->
                 Agent.get_action_and_value self x (Some a0) s
                 = (if all_real mean && all_positive std && all_real a0 then
                      Ok (a0,
                          {| shape := [B];
                             data := map (fun b =>
                                       fsum (map (fun d =>
                                               normal_log_prob (entry mean b d)
                                                 (fexp (nth d (data ls) fzero))
                                                 (entry a0 b d))
                                             (seq 0 D)))
                                       (seq 0 B) |},
                          {| shape := [B];
                             data := map (fun b =>
                                       fsum (map (fun d =>
                                               normal_entropy
                                                 (fexp (nth d (data ls) fzero)))
                                             (seq 0 D)))
                                       (seq 0 B) |},
                          v)
                    else Raise ValueError, s))).
Proof.
  split; [now rewrite get_action_and_value_Some|]. split.
  { intros a lp ent v s'. rewrite get_action_and_value_Some.
    destruct (Agent.policy self (heap s) x) as [probs|]; simpl; [|discriminate].
    destruct (Normal_log_prob probs a0) as [lp0|]; simpl; [|discriminate].
    destruct (sum1 lp0); simpl; [|discriminate].
    destruct (sum1 (Normal_entropy probs)); simpl; [|discriminate].
    destruct (Agent.get_value self (heap s) x); simpl; [|discriminate].
    intros [= <- _ _ _ _]. reflexivity. }
  intros obs D B Hok Hx Hlen. destruct s as [h g]. simpl heap.
  destruct (policy_spec self h x obs D B Hok Hx Hlen)
    as (mean & ls & Hm & Hsm & Hlm & Hl & Hsl & Hll & Hp).
  pose proof Hok as Hok'. unfold Agent_ok in Hok'.
  apply andb_true_iff in Hok' as [Hok' _]. apply andb_true_iff in Hok' as [Hcr _].
  destruct (Sequential_forward_shape h _ x B obs 1 Hcr Hx Hlen) as (v & Hv & Hsv & Hlv).
  exists mean, ls, v. split; [exact Hm|]. split; [exact Hl|]. split; [exact Hv|].
  cbv zeta.
  set (std := torch_exp {| shape := [B; D]; data := concat (repeat (data ls) B) |}) in *.
  pose proof (std_length ls B D Hll) as Hlstd. fold std in Hlstd.
  split.
  { rewrite get_action_and_value_Some. simpl heap. rewrite Hp.
    unfold Agent.get_value. rewrite Hv. reflexivity. }
  intros Hsa Hla.
  destruct (get_action_and_value_spec self h g x (Some a0) obs D B Hok Hx Hlen)
    as (mean' & ls' & a & v' & g' & Hm' & _ & Hl' & _ & Hv' & _ & _ & _ & [-> ->] & Hrun).
  { intros a [= <-]. auto. }
  rewrite Hm in Hm'. injection Hm' as <-. rewrite Hl in Hl'. injection Hl' as <-.
  unfold Agent.get_value in Hv'. rewrite Hv in Hv'. injection Hv' as <-.
  cbv zeta in Hrun. fold std in Hrun. rewrite Hrun.
  destruct (all_real mean && all_positive std); [|reflexivity].
  destruct (all_real a0); [|reflexivity]. simpl andb. cbv iota.
  assert (Hlp : map fsum (chunks D B
                  (zip_with (fun ms v => normal_log_prob ms.1 ms.2 v)
                            (zip (data mean) (data std)) (data a0)))
                = map (fun b => fsum (map (fun d => normal_log_prob (entry mean b d)
                                                      (fexp (nth d (data ls) fzero))
                                                      (entry a0 b d))
                                          (seq 0 D)))
                      (seq 0 B)).
  { apply list_eq. intros b. destruct (decide (b < B)) as [Hb|Hb].
    - rewrite (log_prob_row mean std a0 B D b) by auto.
      rewrite lookup_map, lookup_seq_lt by exact Hb. simpl. f_equal. f_equal.
      apply map_ext_in. intros d Hd. apply in_seq in Hd.
      f_equal. apply (std_entry ls B D b d Hll Hb). lia.
    - rewrite !lookup_ge_None_2; [reflexivity| |].
      + rewrite length_map, length_seq. lia.
      + rewrite length_map, length_chunks. lia. }
  assert (Hent : map fsum (chunks D B (map normal_entropy (data std)))
                 = map (fun b => fsum (map (fun d =>
                                        normal_entropy (fexp (nth d (data ls) fzero)))
                                      (seq 0 D)))
                       (seq 0 B)).
  { apply list_eq. intros b. destruct (decide (b < B)) as [Hb|Hb].
    - rewrite (entropy_row std B D b) by auto.
      rewrite lookup_map, lookup_seq_lt by exact Hb. simpl. f_equal. f_equal.
      apply map_ext_in. intros d Hd. apply in_seq in Hd.
      f_equal. apply (std_entry ls B D b d Hll Hb). lia.
    - rewrite !lookup_ge_None_2; [reflexivity| |].
      + rewrite length_map, length_seq. lia.
      + rewrite length_map, length_chunks. lia. }
  now rewrite Hlp, Hent.
Qed.

(** Without an action the generator advances by one draw per entry of the
  mean. *)
Lemma get_action_and_value_None_gen (self : Agent.t) (x : Tensor F) (s : State F G)
      (probs : Normal F) :
  Agent.policy self (heap s) x = Ok probs ->
  gen (Agent.get_action_and_value self x None s).2
  = (draws next_normal (numel (shape (loc_ probs))) (gen s)).2.
Proof.
  intros Hp. rewrite get_action_and_value_None, Hp, Normal_sample_spec.
  rewrite get_action_and_value_Some. reflexivity.
Qed.
End AgentClaims.

(** * Running the constructors and the sampling transform *)

Section Runs.
Context {F G : Type} `{Scalar F} `{Generator G F}.

Lemma bind_Ok {A B} (c : M F G A) (k : A -> M F G B) (s s1 : State F G) (a : A) :
  c s = (Ok a, s1) -> bind c k s = k a s1.
Proof. intros Hc. unfold bind. now rewrite Hc. Qed.

Lemma bind_Raise {A B} (c : M F G A) (k : A -> M F G B) (s s1 : State F G) (e : Exn) :
  c s = (Raise e, s1) -> bind c k s = (Raise e, s1).
Proof. intros Hc. unfold bind. now rewrite Hc. Qed.

Lemma lift_bind_Ok {A B} (r : Result A) (a : A) (k : A -> M F G B) (s : State F G) :
  r = Ok a -> bind (lift r) k s = k a s.
Proof. intros ->. reflexivity. Qed.

Lemma np_prod_Ok (sh : list nat) : sh <> [] -> np_prod sh = Ok (numel sh).
Proof. destruct sh; [congruence | reflexivity]. Qed.

Lemma Envs_ok_true (envs : Envs) :
  Envs_ok envs = true ->
  Space_shape (single_observation_space envs) <> []
  /\ Space_shape (single_action_space envs) <> [].
Proof.
  unfold Envs_ok. rewrite andb_true_iff, !negb_true_iff, !bool_decide_eq_false. auto.
Qed.

Lemma lookup_app_at (h ext : list (Tensor F)) (k : nat) :
  (h ++ ext) !! (length h + k) = ext !! k.
Proof. rewrite lookup_app_r by lia. f_equal. lia. Qed.

Lemma lookup_app_at0 (h ext : list (Tensor F)) :
  (h ++ ext) !! length h = ext !! 0.
Proof. rewrite <- (lookup_app_at h ext 0). f_equal. lia. Qed.

Lemma lookup_app_at1 (h ext : list (Tensor F)) :
  (h ++ ext) !! S (length h) = ext !! 1.
Proof. rewrite <- (lookup_app_at h ext 1). f_equal. lia. Qed.

Lemma insert_app_at0 (h rest : list (Tensor F)) (x t : Tensor F) :
  <[length h := t]> (h ++ x :: rest) = h ++ t :: rest.
Proof. rewrite insert_app_r_alt by lia. now rewrite Nat.sub_diag. Qed.

Lemma insert_app_at1 (h rest : list (Tensor F)) (x y t : Tensor F) :
  <[S (length h) := t]> (h ++ x :: y :: rest) = h ++ x :: t :: rest.
Proof.
  rewrite insert_app_r_alt by lia.
  now replace (S (length h) - length h) with 1 by lia.
Qed.

Lemma load_Ok (l : loc) (t : Tensor F) (s : State F G) :
  heap s !! l = Some t -> load l s = (Ok t, s).
Proof. intros Hl. unfold load, reading, lookup_tensor. now rewrite Hl. Qed.

Lemma store_Ok (l : loc) (t : Tensor F) (s : State F G) :
  l < length (heap s) ->
  store l t s = (Ok tt, {| heap := <[l := t]> (heap s); gen := gen s |}).
Proof.
  intros Hl. unfold store. apply Nat.ltb_lt in Hl. now rewrite Hl.
Qed.

Lemma draw_spec (next : G -> F * G) (n : nat) (s : State F G) :
  draw next n s
  = (Ok (draws next n (gen s)).1, {| heap := heap s; gen := (draws next n (gen s)).2 |}).
Proof. unfold draw. destruct (draws next n (gen s)). reflexivity. Qed.

(** [nn.Linear(n_in, n_out)] always succeeds and appends its two
    parameters to the store. *)
Lemma nn_Linear_spec (n_in n_out : nat) (s : State F G) :
  exists W b g',
    nn_Linear n_in n_out s
    = (Ok {| in_features := n_in; out_features := n_out;
             weight := length (heap s); bias := S (length (heap s)) |},
       {| heap := heap s ++ [W; b]; gen := g' |})
    /\ shape W = [n_out; n_in] /\ length (data W) = n_out * n_in
    /\ shape b = [n_out] /\ length (data b) = n_out.
Proof.
  unfold nn_Linear. unfold bind at 1. rewrite draw_spec.
  unfold bind at 1. unfold alloc at 1. simpl heap. simpl gen.
  unfold bind at 1. rewrite draw_spec. simpl heap. simpl gen.
  unfold bind at 1. unfold alloc at 1. simpl heap. simpl gen.
  unfold ret. rewrite length_app, <- app_assoc. simpl.
  rewrite Nat.add_1_r.
  eexists _, _, _. split; [reflexivity|]. simpl.
  rewrite !length_map, !length_draws. auto.
Qed.

Lemma orthogonal_spec (l : loc) (gain : F) (s : State F G) (t : Tensor F)
      (rows cols : nat) :
  heap s !! l = Some t -> shape t = [rows; cols] ->
  exists t' g',
    orthogonal_ l gain s = (Ok tt, {| heap := <[l := t']> (heap s); gen := g' |})
    /\ shape t' = shape t /\ length (data t') = length (data t).
Proof.
  intros Hl Hs. unfold orthogonal_. rewrite (bind_Ok _ _ s s t) by now apply load_Ok.
  rewrite Hs. destruct (numel [rows; cols] =? 0).
  - exists t, (gen s). unfold ret. rewrite list_insert_id by exact Hl.
    destruct s; auto.
  - unfold bind. rewrite draw_spec.
    rewrite store_Ok by (simpl; eapply lookup_lt_Some; eauto).
    simpl. eexists _, _. split; [reflexivity|]. simpl.
    rewrite length_imap. auto.
Qed.

Lemma constant_spec (l : loc) (val : F) (s : State F G) (t : Tensor F) :
  heap s !! l = Some t ->
  exists t',
    constant_ l val s = (Ok tt, {| heap := <[l := t']> (heap s); gen := gen s |})
    /\ shape t' = shape t /\ length (data t') = length (data t).
Proof.
  intros Hl. unfold constant_. rewrite (bind_Ok _ _ s s t) by now apply load_Ok.
  rewrite store_Ok by (eapply lookup_lt_Some; eauto).
  eexists. split; [reflexivity|]. simpl. rewrite length_map. auto.
Qed.

(** [layer_init(nn.Linear(n_in, n_out), std, bias_const)] *)
Lemma new_layer_spec (n_in n_out : nat) (std bias_const : F) (s : State F G) :
  exists W b g',
    (l <- nn_Linear n_in n_out ;; layer_init l std bias_const) s
    = (Ok {| in_features := n_in; out_features := n_out;
             weight := length (heap s); bias := S (length (heap s)) |},
       {| heap := heap s ++ [W; b]; gen := g' |})
    /\ shape W = [n_out; n_in] /\ length (data W) = n_out * n_in
    /\ shape b = [n_out] /\ length (data b) = n_out.
Proof.
  destruct (nn_Linear_spec n_in n_out s) as (W0 & b0 & g0 & Hnew & HsW & HlW & Hsb & Hlb).
  rewrite (bind_Ok _ _ _ _ _ Hnew). unfold layer_init. simpl weight. simpl bias.
  edestruct (orthogonal_spec (length (heap s)) std
               {| heap := heap s ++ [W0; b0]; gen := g0 |} W0) as (W1 & g1 & Ho & HsW1 & HlW1).
  { simpl. now rewrite lookup_app_at0. }
  { exact HsW. }
  rewrite (bind_Ok _ _ _ _ _ Ho). simpl heap. rewrite insert_app_at0.
  edestruct (constant_spec (S (length (heap s))) bias_const
               {| heap := heap s ++ [W1; b0]; gen := g1 |} b0) as (b1 & Hc & Hsb1 & Hlb1).
  { simpl. now rewrite lookup_app_at1. }
  rewrite (bind_Ok _ _ _ _ _ Hc). simpl heap. simpl gen. rewrite insert_app_at1.
  unfold ret. exists W1, b1, g1. split; [reflexivity|].
  rewrite HsW1, HlW1, Hsb1, Hlb1. auto.
Qed.
End Runs.

(** * Well-formedness is kept when the store grows *)

Section Growth.
Context {F : Type}.

Lemma extends_refl (h : list (Tensor F)) : extends h h.
Proof. exists []. now rewrite app_nil_r. Qed.

Lemma extends_trans (h1 h2 h3 : list (Tensor F)) :
  extends h1 h2 -> extends h2 h3 -> extends h1 h3.
Proof. intros [e1 ->] [e2 ->]. exists (e1 ++ e2). now rewrite app_assoc. Qed.

Lemma extends_app (h ext : list (Tensor F)) : extends h (h ++ ext).
Proof. now exists ext. Qed.

Lemma extends_length (h h' : list (Tensor F)) : extends h h' -> length h <= length h'.
Proof. intros [e ->]. rewrite length_app. lia. Qed.

Lemma extends_lookup (h h' : list (Tensor F)) (l : loc) (t : Tensor F) :
  extends h h' -> h !! l = Some t -> h' !! l = Some t.
Proof.
  intros [e ->] Hl. rewrite lookup_app_l; [exact Hl|]. eapply lookup_lt_Some; eauto.
Qed.

Lemma has_shape_mono (h h' : list (Tensor F)) (l : loc) (sh : list nat) :
  extends h h' -> has_shape h l sh = true -> has_shape h' l sh = true.
Proof.
  intros Hext. unfold has_shape.
  destruct (h !! l) as [t|] eqn:Hl; [|discriminate].
  now rewrite (extends_lookup _ _ _ _ Hext Hl).
Qed.

Lemma has_shape_lt (h : list (Tensor F)) (l : loc) (sh : list nat) :
  has_shape h l sh = true -> l < length h.
Proof.
  unfold has_shape. destruct (h !! l) eqn:Hl; [|discriminate].
  intros _. eapply lookup_lt_Some; eauto.
Qed.

Lemma Linear_ok_mono (h h' : list (Tensor F)) (l : Linear) (n_in n_out : nat) :
  extends h h' -> Linear_ok h l n_in n_out = true -> Linear_ok h' l n_in n_out = true.
Proof.
  intros Hext. unfold Linear_ok. rewrite !andb_true_iff.
  intros [? ?]. split; eapply has_shape_mono; eauto.
Qed.

Lemma Sampler_ok_mono (h h' : list (Tensor F)) (s : Sampler) (sh : list nat) :
  extends h h' -> Sampler_ok h s sh = true -> Sampler_ok h' s sh = true.
Proof.
  intros Hext. unfold Sampler_ok. rewrite !andb_true_iff.
  intros [? ?]. split; eapply has_shape_mono; eauto.
Qed.

Lemma BayesianLinear_ok_mono (h h' : list (Tensor F)) (b : BayesianLinear) :
  extends h h' -> BayesianLinear_ok h b = true -> BayesianLinear_ok h' b = true.
Proof.
  intros Hext. unfold BayesianLinear_ok. rewrite !andb_true_iff.
  intros [? ?]. split; eapply Sampler_ok_mono; eauto.
Qed.

Lemma BModule_ok_mono (h h' : list (Tensor F)) (m : BModule) :
  extends h h' -> BModule_ok h m = true -> BModule_ok h' m = true.
Proof.
  intros Hext. destruct m as [b|[l| |c]]; simpl; auto.
  - now apply BayesianLinear_ok_mono.
  - now apply Linear_ok_mono.
Qed.

Lemma BSequential_ok_mono (h h' : list (Tensor F)) (ms : list BModule) :
  extends h h' -> forallb (BModule_ok h) ms = true -> forallb (BModule_ok h') ms = true.
Proof.
  intros Hext. induction ms as [|m ms IH]; simpl; [auto|].
  rewrite !andb_true_iff. intros [? ?]. split; [eapply BModule_ok_mono; eauto | auto].
Qed.

Lemma net_ok_mono (h h' : list (Tensor F)) (ms : list Module) :
  extends h h' ->
  forall d_in d_out, net_ok h ms d_in d_out = true -> net_ok h' ms d_in d_out = true.
Proof.
  intros Hext. induction ms as [|[l| |c] ms IH]; intros d_in d_out; simpl; auto.
  rewrite !andb_true_iff. intros [[? ?] ?].
  repeat split; auto. eapply Linear_ok_mono; eauto.
Qed.

(** The parameters of a well-formed Bayesian agent are allocated. *)
Lemma BModule_params_lt (h : list (Tensor F)) (m : BModule) (l : loc) :
  BModule_ok h m = true -> l ∈ BModule_params m -> l < length h.
Proof.
  destruct m as [b|[lin| |c]]; unfold BModule_params, Sampler_params, Module_params; simpl.
  - unfold BayesianLinear_ok, Sampler_ok. rewrite !andb_true_iff.
    intros [[? ?] [? ?]]. rewrite !elem_of_cons.
    intros [->|[->|[->|[->|Hl]]]]; try (eapply has_shape_lt; eassumption).
    now apply elem_of_nil in Hl.
  - unfold Linear_ok. rewrite !andb_true_iff. intros [? ?]. rewrite !elem_of_cons.
    intros [->|[->|Hl]]; try (eapply has_shape_lt; eassumption).
    now apply elem_of_nil in Hl.
  - intros _ Hl. now apply elem_of_nil in Hl.
  - intros _ Hl. now apply elem_of_nil in Hl.
Qed.

Lemma BSequential_params_lt (h : list (Tensor F)) (ms : list BModule) (l : loc) :
  forallb (BModule_ok h) ms = true -> l ∈ BSequential_params ms -> l < length h.
Proof.
  induction ms as [|m ms IH]; unfold BSequential_params; simpl.
  - intros _ Hl. now apply elem_of_nil in Hl.
  - rewrite andb_true_iff, elem_of_app. intros [Hm Hms] [Hl|Hl].
    + eapply BModule_params_lt; eassumption.
    + now apply IH.
Qed.

Lemma BayesianAgent_params_lt (h : list (Tensor F)) (a : BayesianAgent.t) (l : loc) :
  BayesianAgent_ok h a = true -> l ∈ BayesianAgent_params a -> l < length h.
Proof.
  unfold BayesianAgent_ok, BayesianAgent_params. rewrite !andb_true_iff, !elem_of_app.
  intros [[[Hc Ha] Hl] _] [Hin|[Hin|Hin]].
  - exact (BSequential_params_lt h _ l Hc Hin).
  - exact (BSequential_params_lt h _ l Ha Hin).
  - apply elem_of_cons in Hin as [->|Hin]; [eapply has_shape_lt; eassumption|].
    now apply elem_of_nil in Hin.
Qed.
End Growth.

Section Constructors.
Context {F G : Type} `{Scalar F} `{Generator G F} `{BayesianOps F G}.

Lemma alloc_spec (t : Tensor F) (s : State F G) :
  alloc t s = (Ok (length (heap s)), {| heap := heap s ++ [t]; gen := gen s |}).
Proof. reflexivity. Qed.

Lemma has_shape_app_at0 (h rest : list (Tensor F)) (t : Tensor F) (sh : list nat) :
  shape t = sh -> length (data t) = numel sh ->
  has_shape (h ++ t :: rest) (length h) sh = true.
Proof.
  intros Hs Hl. eapply has_shape_intro; eauto. now rewrite lookup_app_at0.
Qed.

Lemma has_shape_app_at1 (h rest : list (Tensor F)) (x t : Tensor F) (sh : list nat) :
  shape t = sh -> length (data t) = numel sh ->
  has_shape (h ++ x :: t :: rest) (S (length h)) sh = true.
Proof.
  intros Hs Hl. eapply has_shape_intro; eauto. now rewrite lookup_app_at1.
Qed.

Lemma new_layer_ok (n_in n_out : nat) (std bias_const : F) (s : State F G) :
  exists l s',
    (l <- nn_Linear n_in n_out ;; layer_init l std bias_const) s = (Ok l, s')
    /\ extends (heap s) (heap s')
    /\ Linear_ok (heap s') l n_in n_out = true
    /\ in_features l = n_in /\ out_features l = n_out.
Proof.
  destruct (new_layer_spec n_in n_out std bias_const s)
    as (W & b & g' & Hrun & HsW & HlW & Hsb & Hlb).
  eexists _, _. split; [exact Hrun|]. simpl.
  split; [apply extends_app|]. split; [|auto].
  unfold Linear_ok. simpl. apply andb_true_iff. split.
  - apply has_shape_app_at0; simpl; auto. lia.
  - apply has_shape_app_at1; simpl; auto. lia.
Qed.

Lemma new_Sampler_ok (sh : list nat) (s : State F G) :
  exists smp s',
    new_Sampler sh s = (Ok smp, s')
    /\ extends (heap s) (heap s') /\ Sampler_ok (heap s') smp sh = true.
Proof.
  unfold new_Sampler. unfold bind at 1. rewrite draw_spec.
  unfold bind at 1. rewrite alloc_spec. simpl heap. simpl gen.
  unfold bind at 1. rewrite draw_spec. simpl heap. simpl gen.
  unfold bind at 1. rewrite alloc_spec. simpl heap. simpl gen.
  unfold ret. rewrite length_app, <- app_assoc. simpl. rewrite Nat.add_1_r.
  eexists _, _. split; [reflexivity|]. simpl.
  split; [apply extends_app|].
  unfold Sampler_ok. simpl. apply andb_true_iff. split.
  - apply has_shape_app_at0; simpl; auto. apply length_draws.
  - apply has_shape_app_at1; simpl; auto. apply length_draws.
Qed.

Lemma new_BayesianLinear_ok (n_in n_out t_in t_out : nat) (s : State F G) :
  exists b s',
    new_BayesianLinear n_in n_out t_in t_out s = (Ok b, s')
    /\ extends (heap s) (heap s')
    /\ BayesianLinear_ok (heap s') b = true
    /\ b_in_features b = n_in /\ b_out_features b = n_out
    /\ neuron_types_in b = t_in /\ neuron_types_out b = t_out.
Proof.
  unfold new_BayesianLinear.
  destruct (new_Sampler_ok [n_out; n_in] s) as (ws & s1 & Hws & He1 & Hok1).
  rewrite (bind_Ok _ _ _ _ _ Hws).
  destruct (new_Sampler_ok [n_out] s1) as (bs & s2 & Hbs & He2 & Hok2).
  rewrite (bind_Ok _ _ _ _ _ Hbs).
  eexists _, _. split; [reflexivity|]. simpl.
  split; [eapply extends_trans; eauto|]. split; [|auto].
  unfold BayesianLinear_ok. simpl. apply andb_true_iff. split; [|exact Hok2].
  eapply Sampler_ok_mono; eauto.
Qed.

Lemma alloc_ok (t : Tensor F) (sh : list nat) (s : State F G) :
  shape t = sh -> length (data t) = numel sh ->
  exists s', alloc t s = (Ok (length (heap s)), s')
             /\ extends (heap s) (heap s')
             /\ has_shape (heap s') (length (heap s)) sh = true.
Proof.
  intros Hs Hl. eexists. split; [apply alloc_spec|]. simpl.
  split; [apply extends_app|]. now apply has_shape_app_at0.
Qed.

Lemma torch_zeros_ok (sh : list nat) :
  shape (torch_zeros sh) = sh /\ length (data (torch_zeros (F:=F) sh)) = numel sh.
Proof. split; [reflexivity|]. simpl. apply repeat_length. Qed.

Lemma new_layer_in_ok (sh : list nat) (n_out : nat) (std bias_const : F) (s : State F G) :
  sh <> [] ->
  exists l s',
    (n <- lift (np_prod sh) ;; l <- nn_Linear n n_out ;; layer_init l std bias_const) s
    = (Ok l, s')
    /\ extends (heap s) (heap s')
    /\ Linear_ok (heap s') l (numel sh) n_out = true
    /\ in_features l = numel sh /\ out_features l = n_out.
Proof.
  intros Hsh. rewrite (lift_bind_Ok _ _ _ _ (np_prod_Ok sh Hsh)). apply new_layer_ok.
Qed.

Lemma new_layer_out_ok (sh : list nat) (n_in : nat) (std bias_const : F) (s : State F G) :
  sh <> [] ->
  exists l s',
    (n <- lift (np_prod sh) ;; l <- nn_Linear n_in n ;; layer_init l std bias_const) s
    = (Ok l, s')
    /\ extends (heap s) (heap s')
    /\ Linear_ok (heap s') l n_in (numel sh) = true
    /\ in_features l = n_in /\ out_features l = numel sh.
Proof.
  intros Hsh. rewrite (lift_bind_Ok _ _ _ _ (np_prod_Ok sh Hsh)). apply new_layer_ok.
Qed.

Lemma new_BayesianLinear_in_ok (sh : list nat) (n_out t_in t_out : nat) (s : State F G) :
  sh <> [] ->
  exists b s',
    (n <- lift (np_prod sh) ;; new_BayesianLinear n n_out t_in t_out) s = (Ok b, s')
    /\ extends (heap s) (heap s')
    /\ BayesianLinear_ok (heap s') b = true
    /\ b_in_features b = numel sh /\ b_out_features b = n_out
    /\ neuron_types_in b = t_in /\ neuron_types_out b = t_out.
Proof.
  intros Hsh. rewrite (lift_bind_Ok _ _ _ _ (np_prod_Ok sh Hsh)).
  apply new_BayesianLinear_ok.
Qed.

Lemma alloc_zeros_ok (sh : list nat) (s : State F G) :
  sh <> [] ->
  exists s',
    (n <- lift (np_prod sh) ;; alloc (torch_zeros [1; n])) s = (Ok (length (heap s)), s')
    /\ extends (heap s) (heap s')
    /\ has_shape (heap s') (length (heap s)) [1; numel sh] = true.
Proof.
  intros Hsh. rewrite (lift_bind_Ok _ _ _ _ (np_prod_Ok sh Hsh)).
  apply alloc_ok; apply torch_zeros_ok.
Qed.

(** On shapes that are not empty [Agent(envs)] succeeds and builds a well-shaped agent in new
    storage. *)
Lemma Agent_init_ok (envs : Envs) (s : State F G) :
  Envs_ok envs = true ->
  exists a s',
    Agent.init envs s = (Ok a, s')
    /\ extends (heap s) (heap s')
    /\ Agent_ok (heap s') a (obs_dim envs) (act_dim envs) = true.
Proof.
  intros Henvs. apply Envs_ok_true in Henvs as [Hobs Hact].
  unfold Agent.init.
  destruct (new_layer_in_ok _ 256 default_std default_bias_const s Hobs)
    as (c0 & s1 & R1 & E1 & K1 & I1 & O1).
  rewrite (bind_Ok _ _ _ _ _ R1).
  destruct (new_layer_ok 256 256 default_std default_bias_const s1)
    as (c2 & s2 & R2 & E2 & K2 & I2 & O2).
  rewrite (bind_Ok _ _ _ _ _ R2).
  destruct (new_layer_ok 256 1 (of_Q 1) default_bias_const s2)
    as (c4 & s3 & R3 & E3 & K3 & I3 & O3).
  rewrite (bind_Ok _ _ _ _ _ R3).
  destruct (new_layer_in_ok _ 256 default_std default_bias_const s3 Hobs)
    as (a0 & s4 & R4 & E4 & K4 & I4 & O4).
  rewrite (bind_Ok _ _ _ _ _ R4).
  destruct (new_layer_ok 256 256 default_std default_bias_const s4)
    as (a2 & s5 & R5 & E5 & K5 & I5 & O5).
  rewrite (bind_Ok _ _ _ _ _ R5).
  destruct (new_layer_out_ok _ 256 (of_Q (1 # 100)) default_bias_const s5 Hact)
    as (a4 & s6 & R6 & E6 & K6 & I6 & O6).
  rewrite (bind_Ok _ _ _ _ _ R6).
  destruct (alloc_zeros_ok _ s6 Hact) as (s7 & R7 & E7 & K7).
  rewrite (bind_Ok _ _ _ _ _ R7).
  eexists _, _. split; [reflexivity|].
  assert (E67 := E7).
  assert (E57 := extends_trans _ _ _ E6 E67).
  assert (E47 := extends_trans _ _ _ E5 E57).
  assert (E37 := extends_trans _ _ _ E4 E47).
  assert (E27 := extends_trans _ _ _ E3 E37).
  assert (E17 := extends_trans _ _ _ E2 E27).
  split; [eapply extends_trans; eauto|].
  apply (Linear_ok_mono _ _ _ _ _ E17) in K1.
  apply (Linear_ok_mono _ _ _ _ _ E27) in K2.
  apply (Linear_ok_mono _ _ _ _ _ E37) in K3.
  apply (Linear_ok_mono _ _ _ _ _ E47) in K4.
  apply (Linear_ok_mono _ _ _ _ _ E57) in K5.
  apply (Linear_ok_mono _ _ _ _ _ E67) in K6.
  unfold Agent_ok, obs_dim, act_dim. simpl.
  rewrite I1, O1, I2, O2, I3, O3, I4, O4, I5, O5, I6, O6.
  rewrite K1, K2, K3, K4, K5, K6, K7, !Nat.eqb_refl. reflexivity.
Qed.

(** On shapes that are not empty [BayesianAgent(envs, number_of_cell_types)]
    succeeds; its two
    networks are two Bayesian layers, each followed by a [Tanh], and a
    plain linear output layer. *)
Lemma BayesianAgent_init_ok (envs : Envs) (n : nat) (s : State F G) :
  Envs_ok envs = true ->
  exists c0 c2 c4 a0 a2 a4 ls s',
    BayesianAgent.init envs n s
    = (Ok {| BayesianAgent.critic :=
               [BayesianLinear_ c0; Plain Tanh_; BayesianLinear_ c2; Plain Tanh_;
                Plain (Linear_ c4)];
             BayesianAgent.actor_mean :=
               [BayesianLinear_ a0; Plain Tanh_; BayesianLinear_ a2; Plain Tanh_;
                Plain (Linear_ a4)];
             BayesianAgent.actor_logstd := ls;
             BayesianAgent.envs := envs |}, s')
    /\ extends (heap s) (heap s')
    /\ BayesianLinear_ok (heap s') c0 = true /\ BayesianLinear_ok (heap s') c2 = true
    /\ Linear_ok (heap s') c4 256 1 = true
    /\ BayesianLinear_ok (heap s') a0 = true /\ BayesianLinear_ok (heap s') a2 = true
    /\ Linear_ok (heap s') a4 256 (act_dim envs) = true
    /\ has_shape (heap s') ls [1; act_dim envs] = true
    /\ (in_features c4 = 256 /\ out_features c4 = 1)
    /\ (in_features a4 = 256 /\ out_features a4 = act_dim envs).
Proof.
  intros Henvs. apply Envs_ok_true in Henvs as [Hobs Hact].
  unfold BayesianAgent.init.
  destruct (new_BayesianLinear_in_ok _ 256 n n s Hobs)
    as (c0 & s1 & R1 & E1 & K1 & _).
  rewrite (bind_Ok _ _ _ _ _ R1).
  destruct (new_BayesianLinear_ok 256 256 n n s1) as (c2 & s2 & R2 & E2 & K2 & _).
  rewrite (bind_Ok _ _ _ _ _ R2).
  destruct (new_layer_ok 256 1 (of_Q 1) default_bias_const s2)
    as (c4 & s3 & R3 & E3 & K3 & I3 & O3).
  rewrite (bind_Ok _ _ _ _ _ R3).
  destruct (new_BayesianLinear_in_ok _ 256 n n s3 Hobs)
    as (a0 & s4 & R4 & E4 & K4 & _).
  rewrite (bind_Ok _ _ _ _ _ R4).
  destruct (new_BayesianLinear_ok 256 256 n n s4) as (a2 & s5 & R5 & E5 & K5 & _).
  rewrite (bind_Ok _ _ _ _ _ R5).
  destruct (new_layer_out_ok _ 256 (of_Q (1 # 100)) default_bias_const s5 Hact)
    as (a4 & s6 & R6 & E6 & K6 & I6 & O6).
  rewrite (bind_Ok _ _ _ _ _ R6).
  destruct (alloc_zeros_ok _ s6 Hact) as (s7 & R7 & E7 & K7).
  rewrite (bind_Ok _ _ _ _ _ R7).
  exists c0, c2, c4, a0, a2, a4. eexists _, _. split; [reflexivity|].
  assert (E67 := E7).
  assert (E57 := extends_trans _ _ _ E6 E67).
  assert (E47 := extends_trans _ _ _ E5 E57).
  assert (E37 := extends_trans _ _ _ E4 E47).
  assert (E27 := extends_trans _ _ _ E3 E37).
  assert (E17 := extends_trans _ _ _ E2 E27).
  split; [eapply extends_trans; eauto|].
  unfold act_dim. repeat split; auto.
  - exact (BayesianLinear_ok_mono _ _ _ E17 K1).
  - exact (BayesianLinear_ok_mono _ _ _ E27 K2).
  - exact (Linear_ok_mono _ _ _ _ _ E37 K3).
  - exact (BayesianLinear_ok_mono _ _ _ E47 K4).
  - exact (BayesianLinear_ok_mono _ _ _ E57 K5).
  - exact (Linear_ok_mono _ _ _ _ _ E67 K6).
Qed.
End Constructors.

Section Sampling.
Context {F G : Type} `{Scalar F} `{Generator G F} `{BayesianOps F G}.

Lemma deepcopy_param_spec (l : loc) (t : Tensor F) (s : State F G) :
  heap s !! l = Some t ->
  deepcopy_param l s = (Ok (length (heap s)), {| heap := heap s ++ [t]; gen := gen s |}).
Proof.
  intros Hl. unfold deepcopy_param. rewrite (bind_Ok _ _ _ _ _ (load_Ok _ _ _ Hl)).
  apply alloc_spec.
Qed.

Lemma deepcopy_Linear_spec (l : Linear) (W b : Tensor F) (s : State F G) :
  heap s !! weight l = Some W -> heap s !! bias l = Some b ->
  deepcopy_Linear l s
  = (Ok {| in_features := in_features l; out_features := out_features l;
           weight := length (heap s); bias := S (length (heap s)) |},
     {| heap := heap s ++ [W; b]; gen := gen s |}).
Proof.
  intros HW Hb. unfold deepcopy_Linear.
  rewrite (bind_Ok _ _ _ _ _ (deepcopy_param_spec _ _ _ HW)).
  erewrite bind_Ok.
  2:{ apply deepcopy_param_spec. simpl. rewrite lookup_app_l; [exact Hb|].
      eapply lookup_lt_Some; eauto. }
  unfold ret. simpl. rewrite length_app, <- app_assoc. simpl.
  now rewrite Nat.add_1_r.
Qed.

Lemma Sampler_sample_spec (smp : Sampler) (sh : list nat) (s : State F G) :
  Sampler_ok (heap s) smp sh = true ->
  exists t g',
    Sampler_sample smp s
    = (Ok (length (heap s)), {| heap := heap s ++ [t]; gen := g' |})
    /\ shape t = sh /\ length (data t) = numel sh.
Proof.
  unfold Sampler_ok. rewrite andb_true_iff. intros [Hm Hr].
  apply has_shape_true in Hm as (m & Hm & Hsm & Hlm).
  apply has_shape_true in Hr as (r & Hr & Hsr & Hlr).
  unfold Sampler_sample.
  rewrite (bind_Ok _ _ _ _ _ (load_Ok _ _ _ Hm)).
  rewrite (bind_Ok _ _ _ _ _ (load_Ok _ _ _ Hr)).
  rewrite Hsm, Hsr, bool_decide_eq_true_2 by reflexivity.
  unfold bind. rewrite draw_spec, alloc_spec. simpl.
  eexists _, _. split; [reflexivity|]. simpl. split; [reflexivity|].
  rewrite !length_zip_with, length_draws. lia.
Qed.

Lemma construct_vanilla_layer_spec (w b : loc) (Wt : Tensor F) (n_out n_in : nat)
      (s : State F G) :
  heap s !! w = Some Wt -> shape Wt = [n_out; n_in] ->
  exists W0 b0 g',
    BayesianAgent.construct_vanilla_layer w b s
    = (Ok {| in_features := n_in; out_features := n_out; weight := w; bias := b |},
       {| heap := heap s ++ [W0; b0]; gen := g' |}).
Proof.
  intros Hw Hs. unfold BayesianAgent.construct_vanilla_layer.
  rewrite (bind_Ok _ _ _ _ _ (load_Ok _ _ _ Hw)).
  unfold bind at 1. unfold lift, shape_at. rewrite Hs. simpl.
  unfold bind at 1. simpl.
  destruct (nn_Linear_spec n_in n_out s) as (W0 & b0 & g' & Hnew & _).
  rewrite (bind_Ok _ _ _ _ _ Hnew). exists W0, b0, g'. reflexivity.
Qed.

(** Visiting a Bayesian layer: two draws, then the layer built on them. *)
Lemma sample_layer_Bayesian_spec (b : BayesianLinear) (s : State F G) :
  BayesianLinear_ok (heap s) b = true ->
  exists Wt Bt W0 b0 g1 g2 g',
    let layer := {| in_features := b_in_features b; out_features := b_out_features b;
                    weight := length (heap s); bias := S (length (heap s)) |} in
    Sampler_sample (weight_sampler b) s
    = (Ok (length (heap s)), {| heap := heap s ++ [Wt]; gen := g1 |})
    /\ Sampler_sample (bias_sampler b) {| heap := heap s ++ [Wt]; gen := g1 |}
       = (Ok (S (length (heap s))), {| heap := heap s ++ [Wt; Bt]; gen := g2 |})
    /\ BayesianAgent.construct_vanilla_layer (length (heap s)) (S (length (heap s)))
         {| heap := heap s ++ [Wt; Bt]; gen := g2 |}
       = (Ok layer, {| heap := heap s ++ [Wt; Bt; W0; b0]; gen := g' |})
    /\ BayesianAgent.sample_layer (BayesianLinear_ b) s
       = (Ok [Linear_ layer; Tanh_], {| heap := heap s ++ [Wt; Bt; W0; b0]; gen := g' |})
    /\ shape Wt = [b_out_features b; b_in_features b]
    /\ length (data Wt) = b_out_features b * b_in_features b
    /\ shape Bt = [b_out_features b] /\ length (data Bt) = b_out_features b.
Proof.
  unfold BayesianLinear_ok. rewrite andb_true_iff. intros [Hw Hb].
  destruct (Sampler_sample_spec _ _ s Hw) as (Wt & g1 & Rw & HsW & HlW).
  assert (Hb1 : Sampler_ok (heap s ++ [Wt]) (bias_sampler b) [b_out_features b] = true).
  { eapply Sampler_ok_mono; [apply extends_app | exact Hb]. }
  destruct (Sampler_sample_spec _ _ {| heap := heap s ++ [Wt]; gen := g1 |} Hb1)
    as (Bt & g2 & Rb & HsB & HlB).
  simpl heap in Rb. rewrite length_app, <- app_assoc in Rb. simpl in Rb.
  rewrite Nat.add_1_r in Rb.
  destruct (construct_vanilla_layer_spec (length (heap s)) (S (length (heap s))) Wt
              (b_out_features b) (b_in_features b)
              {| heap := heap s ++ [Wt; Bt]; gen := g2 |})
    as (W0 & b0 & g' & Rc); [simpl; now rewrite lookup_app_at0 | exact HsW |].
  simpl heap in Rc. rewrite <- app_assoc in Rc. simpl in Rc.
  exists Wt, Bt, W0, b0, g1, g2, g'. cbv zeta.
  split; [exact Rw|]. split; [exact Rb|]. split; [exact Rc|].
  split.
  { unfold BayesianAgent.sample_layer.
    rewrite (bind_Ok _ _ _ _ _ Rw), (bind_Ok _ _ _ _ _ Rb), (bind_Ok _ _ _ _ _ Rc).
    reflexivity. }
  simpl in HlW, HlB. repeat split; auto; lia.
Qed.

Lemma sample_layer_ok (c : BModule) (s : State F G) :
  BModule_ok (heap s) c = true ->
  exists new s',
    BayesianAgent.sample_layer c s = (Ok new, s')
    /\ extends (heap s) (heap s')
    /\ Forall (fun l => length (heap s) <= l < length (heap s')) (Sequential_params new)
    /\ contributes (heap s) (heap s') c new.
Proof.
  destruct c as [b|[l| |cls]]; simpl BModule_ok; intros Hok.
  - destruct (sample_layer_Bayesian_spec b s Hok)
      as (Wt & Bt & W0 & b0 & g1 & g2 & g' & _ & _ & _ & Hrun & HsW & HlW & HsB & HlB).
    eexists _, _. split; [exact Hrun|]. simpl heap.
    split; [apply extends_app|]. split.
    + unfold Sequential_params. simpl. rewrite length_app. simpl.
      repeat constructor; lia.
    + simpl. eexists. split; [reflexivity|]. simpl. repeat split.
      unfold Linear_ok. simpl. apply andb_true_iff. split.
      * apply has_shape_app_at0; simpl; auto. lia.
      * apply has_shape_app_at1; simpl; auto. lia.
  - unfold Linear_ok in Hok. apply andb_true_iff in Hok as [HW Hb].
    apply has_shape_true in HW as (W & HW & _).
    apply has_shape_true in Hb as (b & Hb & _).
    unfold BayesianAgent.sample_layer.
    rewrite (bind_Ok _ _ _ _ _ (deepcopy_Linear_spec l W b s HW Hb)).
    eexists _, _. split; [reflexivity|]. simpl heap.
    split; [apply extends_app|]. split.
    + unfold Sequential_params. simpl. rewrite length_app. simpl.
      repeat constructor; lia.
    + simpl. eexists. split; [reflexivity|]. simpl.
      rewrite HW, Hb, lookup_app_at0, lookup_app_at1. simpl. repeat split; eauto.
  - exists [], s. simpl. split; [reflexivity|]. split; [apply extends_refl|].
    split; [constructor | reflexivity].
  - exists [], s. simpl. split; [reflexivity|]. split; [apply extends_refl|].
    split; [constructor | reflexivity].
Qed.

Lemma contributes_mono (h h1 h2 : list (Tensor F)) (c : BModule) (new : list Module) :
  extends h1 h2 -> contributes h h1 c new -> contributes h h2 c new.
Proof.
  intros Hext. destruct c as [b|[l| |cls]]; simpl; auto.
  - intros (l & -> & Hi & Ho & Hok). exists l. repeat split; auto.
    eapply Linear_ok_mono; eauto.
  - intros (l' & -> & Hi & Ho & [W HW] & [b Hb] & HW' & Hb'). exists l'.
    rewrite HW in *. rewrite Hb in *.
    repeat split; eauto; eapply extends_lookup; eauto.
Qed.

Lemma contributes_pre (h0 h h' : list (Tensor F)) (c : BModule) (new : list Module) :
  extends h0 h -> BModule_ok h0 c = true ->
  contributes h h' c new -> contributes h0 h' c new.
Proof.
  intros Hext. destruct c as [b|[l| |cls]]; simpl; auto.
  unfold Linear_ok. rewrite andb_true_iff. intros [HW Hb].
  apply has_shape_true in HW as (W & HW & _).
  apply has_shape_true in Hb as (b & Hb & _).
  intros (l' & -> & Hi & Ho & _ & _ & HW' & Hb'). exists l'.
  rewrite (extends_lookup _ _ _ _ Hext HW) in HW'.
  rewrite (extends_lookup _ _ _ _ Hext Hb) in Hb'.
  rewrite HW, Hb. repeat split; eauto.
Qed.

Lemma Forall2_contributes_pre (h0 h h' : list (Tensor F)) (seq : list BModule)
      (news : list (list Module)) :
  extends h0 h -> forallb (BModule_ok h0) seq = true ->
  Forall2 (contributes h h') seq news -> Forall2 (contributes h0 h') seq news.
Proof.
  intros Hext Hok Hall. induction Hall as [|c new seq news Hc Hall IH]; [constructor|].
  simpl in Hok. apply andb_true_iff in Hok as [Hokc Hok].
  constructor; [eapply contributes_pre; eauto | auto].
Qed.

Lemma sample_layers_ok (seq : list BModule) :
  forall (acc : list Module) (s : State F G),
    forallb (BModule_ok (heap s)) seq = true ->
    exists news s',
      BayesianAgent.sample_layers seq acc s = (Ok (acc ++ concat news), s')
      /\ extends (heap s) (heap s')
      /\ Forall (fun l => length (heap s) <= l < length (heap s'))
                (Sequential_params (concat news))
      /\ Forall2 (contributes (heap s) (heap s')) seq news.
Proof.
  induction seq as [|c seq IH]; intros acc s Hok; simpl in *.
  - exists [], s. simpl. rewrite app_nil_r. unfold ret.
    split; [reflexivity|]. split; [apply extends_refl|]. split; constructor.
  - apply andb_true_iff in Hok as [Hc Hseq].
    destruct (sample_layer_ok c s Hc) as (new & s1 & R1 & E1 & Fr1 & C1).
    rewrite (bind_Ok _ _ _ _ _ R1).
    destruct (IH (acc ++ new) s1) as (news & s2 & R2 & E2 & Fr2 & C2).
    { eapply BSequential_ok_mono; eauto. }
    exists (new :: news), s2. simpl. rewrite R2, app_assoc.
    split; [reflexivity|]. split; [eapply extends_trans; eauto|].
    pose proof (extends_length _ _ E1). pose proof (extends_length _ _ E2).
    split.
    + unfold Sequential_params in *. rewrite map_app, concat_app.
      apply Forall_app. split.
      * eapply Forall_impl; [|exact Fr1]. simpl. intros; lia.
      * eapply Forall_impl; [|exact Fr2]. simpl. intros; lia.
    + constructor.
      * eapply contributes_mono; eauto.
      * eapply Forall2_contributes_pre; eauto.
Qed.
End Sampling.

Section SamplingAgent.
Context {F G : Type} `{Scalar F} `{Generator G F} `{BayesianOps F G}.

Lemma Forall2_contributes_mono (h h1 h2 : list (Tensor F)) (seq : list BModule)
      (news : list (list Module)) :
  extends h1 h2 ->
  Forall2 (contributes h h1) seq news -> Forall2 (contributes h h2) seq news.
Proof.
  intros Hext Hall. eapply Forall2_impl; [|exact Hall].
  intros c new. now apply contributes_mono.
Qed.

(** On a well-formed Bayesian agent [sample_vanilla_agent] returns; all
    the parameters of the agent it returns are in storage allocated
    during the call. *)
Lemma sample_vanilla_agent_ok (agent : BayesianAgent.t) (s : State F G) :
  BayesianAgent_ok (heap s) agent = true ->
  exists a_news c_news ls' s',
    let sampled := {| Agent.critic := concat c_news;
                      Agent.actor_mean := concat a_news;
                      Agent.actor_logstd := ls' |} in
    BayesianAgent.sample_vanilla_agent agent s = (Ok sampled, s')
    /\ extends (heap s) (heap s')
    /\ Forall (fun l => length (heap s) <= l < length (heap s')) (Agent_params sampled)
    /\ Forall2 (contributes (heap s) (heap s')) (BayesianAgent.actor_mean agent) a_news
    /\ Forall2 (contributes (heap s) (heap s')) (BayesianAgent.critic agent) c_news
    /\ heap s' !! ls' = heap s !! BayesianAgent.actor_logstd agent.
Proof.
  unfold BayesianAgent_ok. rewrite !andb_true_iff. intros [[[Hc Ha] Hls] Henvs].
  unfold BayesianAgent.sample_vanilla_agent.
  destruct (sample_layers_ok (BayesianAgent.actor_mean agent) [] s Ha)
    as (a_news & s1 & R1 & E1 & Fr1 & C1).
  rewrite (bind_Ok _ _ _ _ _ R1).
  destruct (sample_layers_ok (BayesianAgent.critic agent) [] s1)
    as (c_news & s2 & R2 & E2 & Fr2 & C2).
  { eapply BSequential_ok_mono; eauto. }
  rewrite (bind_Ok _ _ _ _ _ R2).
  apply has_shape_true in Hls as (ls & Hl & _).
  assert (E02 : extends (heap s) (heap s2)) by (eapply extends_trans; eauto).
  pose proof (extends_lookup _ _ _ _ E02 Hl) as Hl2.
  rewrite (bind_Ok _ _ _ _ _ (deepcopy_param_spec _ _ _ Hl2)).
  unfold SampledAgent.init.
  destruct (Agent_init_ok (BayesianAgent.envs agent)
              {| heap := heap s2 ++ [ls]; gen := gen s2 |} Henvs) as (a & s4 & R4 & E4 & _).
  rewrite (bind_Ok _ _ _ _ _ R4). unfold ret. simpl app.
  exists a_news, c_news, (length (heap s2)), s4. cbv zeta.
  split; [reflexivity|].
  simpl heap in E4.
  assert (E23 : extends (heap s2) (heap s2 ++ [ls])) by apply extends_app.
  assert (E24 : extends (heap s2) (heap s4)) by (eapply extends_trans; eauto).
  assert (E14 : extends (heap s1) (heap s4)) by (eapply extends_trans; eauto).
  pose proof (extends_length _ _ E1). pose proof (extends_length _ _ E2).
  pose proof (extends_length _ _ E4) as Hlen4. rewrite length_app in Hlen4. simpl in Hlen4.
  split; [eapply extends_trans; eauto|].
  split; [|split; [|split]].
  - unfold Agent_params. simpl. rewrite !Forall_app. split; [|split].
    + eapply Forall_impl; [|exact Fr2]. simpl. intros; lia.
    + eapply Forall_impl; [|exact Fr1]. simpl. intros; lia.
    + constructor; [lia | constructor].
  - exact (Forall2_contributes_mono _ _ _ _ _ E14 C1).
  - eapply Forall2_contributes_mono; [exact E24|].
    eapply Forall2_contributes_pre; [exact E1 | exact Hc | exact C2].
  - rewrite Hl. eapply extends_lookup; [exact E4|]. simpl. now rewrite lookup_app_at0.
Qed.
End SamplingAgent.

Section Frames.
Context {F G : Type} `{Scalar F} `{Generator G F}.

Lemma get_value_agree (self : Agent.t) (h1 h2 : list (Tensor F)) (x : Tensor F) :
  agree_on (Agent_params self) h1 h2 ->
  Agent.get_value self h1 x = Agent.get_value self h2 x.
Proof.
  intros Hag. unfold Agent.get_value. apply Sequential_forward_agree.
  intros l Hl. apply Hag. unfold Agent_params. apply elem_of_app. now left.
Qed.

(** [get_action_and_value] depends on the store through the parameters
    of the agent only. *)
Lemma get_action_and_value_agree (self : Agent.t) (h1 h2 : list (Tensor F))
      (x : Tensor F) (action : option (Tensor F)) (g : G) :
  agree_on (Agent_params self) h1 h2 ->
  (Agent.get_action_and_value self x action {| heap := h1; gen := g |}).1
  = (Agent.get_action_and_value self x action {| heap := h2; gen := g |}).1
  /\ gen (Agent.get_action_and_value self x action {| heap := h1; gen := g |}).2
     = gen (Agent.get_action_and_value self x action {| heap := h2; gen := g |}).2.
Proof.
  intros Hag.
  assert (Hsome : forall a g',
    (Agent.get_action_and_value self x (Some a) {| heap := h1; gen := g' |}).1
    = (Agent.get_action_and_value self x (Some a) {| heap := h2; gen := g' |}).1
    /\ gen (Agent.get_action_and_value self x (Some a) {| heap := h1; gen := g' |}).2
       = gen (Agent.get_action_and_value self x (Some a) {| heap := h2; gen := g' |}).2).
  { intros a g'. rewrite !get_action_and_value_Some. simpl.
    rewrite (policy_agree self h1 h2 x Hag), (get_value_agree self h1 h2 x Hag). auto. }
  destruct action as [a|]; [apply Hsome|].
  rewrite !get_action_and_value_None. simpl heap.
  rewrite (policy_agree self h1 h2 x Hag).
  destruct (Agent.policy self h2 x) as [probs|]; [|auto].
  rewrite !Normal_sample_spec. simpl. apply Hsome.
Qed.
End Frames.

Section SamplingClaims.
Context {F G : Type} `{Scalar F} `{Generator G F} `{BayesianOps F G}.

(** C1: on a well-formed Bayesian agent [sample_vanilla_agent] returns a
    sampled agent none of whose parameters is stored where a parameter of
    the Bayesian agent is; sampling leaves the Bayesian agent's parameters
    as they were; and whatever is written afterwards to the storage of the
    Bayesian agent's parameters (layer distribution parameters, plain layer
    parameters, [actor_logstd]), [get_value] and [get_action_and_value] of
    the sampled agent return what they returned before, for every input,
    action argument and generator state. *)
Theorem sampled_agent_snapshot_isolation (agent : BayesianAgent.t) (s : State F G) :
  BayesianAgent_ok (heap s) agent = true ->
  exists sampled s',
    BayesianAgent.sample_vanilla_agent agent s = (Ok sampled, s')
    /\ (forall l, l ∈ Agent_params sampled -> l ∉ BayesianAgent_params agent)
    /\ (forall l, l ∈ BayesianAgent_params agent -> heap s' !! l = heap s !! l)
    /\ forall h'',
         modified_only_at (BayesianAgent_params agent) (heap s') h'' ->
         forall x,
           Agent.get_value sampled h'' x = Agent.get_value sampled (heap s') x
           /\ forall action g,
                (Agent.get_action_and_value sampled x action {| heap := h''; gen := g |}).1
                = (Agent.get_action_and_value sampled x action
                     {| heap := heap s'; gen := g |}).1
                /\ gen (Agent.get_action_and_value sampled x action
                          {| heap := h''; gen := g |}).2
                   = gen (Agent.get_action_and_value sampled x action
                            {| heap := heap s'; gen := g |}).2.
Proof.
  intros Hok.
  destruct (sample_vanilla_agent_ok agent s Hok)
    as (a_news & c_news & ls' & s' & Hrun & Hext & Hfresh & _).
  cbv zeta in Hrun, Hfresh.
  eexists _, s'. split; [exact Hrun|].
  rewrite Forall_forall in Hfresh.
  assert (Hdisj : forall l,
            l ∈ Agent_params {| Agent.critic := concat c_news;
                                Agent.actor_mean := concat a_news;
                                Agent.actor_logstd := ls' |} ->
            l ∉ BayesianAgent_params agent).
  { intros l Hl Hb. apply list_elem_of_In, Hfresh in Hl.
    pose proof (BayesianAgent_params_lt _ _ _ Hok Hb). lia. }
  split; [exact Hdisj|]. split.
  { intros l Hl. pose proof (BayesianAgent_params_lt _ _ _ Hok Hl) as Hlt.
    destruct (lookup_lt_is_Some_2 (heap s) l Hlt) as [t Ht].
    rewrite (extends_lookup _ _ _ _ Hext Ht). now rewrite Ht. }
  intros h'' Hmod x.
  assert (Hag : agree_on (Agent_params {| Agent.critic := concat c_news;
                                          Agent.actor_mean := concat a_news;
                                          Agent.actor_logstd := ls' |}) h'' (heap s')).
  { intros l Hl. apply Hmod. now apply Hdisj. }
  split; [now apply get_value_agree|].
  intros action g. now apply get_action_and_value_agree.
Qed.

(** C3: [construct_vanilla_layer] returns a layer whose parameters are the
    very tensors it is given, with [in_features] the column count and
    [out_features] the row count of the weights; and for a Bayesian layer
    visited by [sample_vanilla_agent] these tensors are the one weight draw,
    of shape (out, in), and the one bias draw, of length out, still stored
    unchanged when the layer is returned. *)
Theorem vanilla_layer_holds_the_draw :
  (forall (weights biases : loc) (Wt : Tensor F) (n_out n_in : nat) (s : State F G),
      heap s !! weights = Some Wt -> shape Wt = [n_out; n_in] ->
      exists layer s',
        BayesianAgent.construct_vanilla_layer weights biases s = (Ok layer, s')
        /\ weight layer = weights /\ bias layer = biases
        /\ in_features layer = n_in /\ out_features layer = n_out
        /\ heap s' !! weights = Some Wt /\ extends (heap s) (heap s'))
  /\ (forall (b : BayesianLinear) (s : State F G),
        BayesianLinear_ok (heap s) b = true ->
        exists w_loc b_loc Wt Bt s1 s2 layer s',
          Sampler_sample (weight_sampler b) s = (Ok w_loc, s1)
          /\ heap s1 !! w_loc = Some Wt
          /\ Sampler_sample (bias_sampler b) s1 = (Ok b_loc, s2)
          /\ heap s2 !! b_loc = Some Bt
          /\ BayesianAgent.construct_vanilla_layer w_loc b_loc s2 = (Ok layer, s')
          /\ BayesianAgent.sample_layer (BayesianLinear_ b) s
             = (Ok [Linear_ layer; Tanh_], s')
          /\ (heap s' !! weight layer = Some Wt /\ heap s' !! bias layer = Some Bt)
          /\ (shape Wt = [b_out_features b; b_in_features b]
              /\ length (data Wt) = b_out_features b * b_in_features b)
          /\ (shape Bt = [b_out_features b] /\ length (data Bt) = b_out_features b)
          /\ (shape_at Wt 1 = Ok (in_features layer)
              /\ shape_at Wt 0 = Ok (out_features layer))).
Proof.
  split.
  - intros weights biases Wt n_out n_in s Hw Hs.
    destruct (construct_vanilla_layer_spec weights biases Wt n_out n_in s Hw Hs)
      as (W0 & b0 & g' & Hrun).
    eexists _, _. split; [exact Hrun|]. simpl. repeat split.
    + eapply extends_lookup; [apply extends_app | exact Hw].
    + apply extends_app.
  - intros b s Hok.
    destruct (sample_layer_Bayesian_spec b s Hok)
      as (Wt & Bt & W0 & b0 & g1 & g2 & g' & Rw & Rb & Rc & Rl & HsW & HlW & HsB & HlB).
    cbv zeta in Rc, Rl.
    eexists _, _, Wt, Bt, _, _, _, _.
    split; [exact Rw|]. split; [simpl; now rewrite lookup_app_at0|].
    split; [exact Rb|]. split; [simpl; now rewrite lookup_app_at1|].
    split; [exact Rc|]. split; [exact Rl|]. simpl.
    rewrite lookup_app_at0, lookup_app_at1. unfold shape_at. rewrite HsW. simpl.
    repeat split; auto.
Qed.

(** With an empty observation or action shape the constructor stops
    with [TypeError]. *)
Lemma BayesianAgent_init_TypeError (envs : Envs) (n : nat) (s : State F G) :
  Envs_ok envs = false ->
  exists s', BayesianAgent.init envs n s = (Raise TypeError, s').
Proof.
  unfold Envs_ok. intros Hbad. unfold BayesianAgent.init.
  destruct (Space_shape (single_observation_space envs)) as [|o obs] eqn:Hobs.
  { exists s. reflexivity. }
  assert (Hne : o :: obs <> []) by discriminate.
  destruct (Space_shape (single_action_space envs)) as [|a act] eqn:Hact;
    [|discriminate].
  destruct (new_BayesianLinear_in_ok _ 256 n n s Hne) as (c0 & s1 & R1 & _).
  rewrite (bind_Ok _ _ _ _ _ R1).
  destruct (new_BayesianLinear_ok 256 256 n n s1) as (c2 & s2 & R2 & _).
  rewrite (bind_Ok _ _ _ _ _ R2).
  destruct (new_layer_ok 256 1 (of_Q 1) default_bias_const s2) as (c4 & s3 & R3 & _).
  rewrite (bind_Ok _ _ _ _ _ R3).
  destruct (new_BayesianLinear_in_ok _ 256 n n s3 Hne) as (a0 & s4 & R4 & _).
  rewrite (bind_Ok _ _ _ _ _ R4).
  destruct (new_BayesianLinear_ok 256 256 n n s4) as (a2 & s5 & R5 & _).
  rewrite (bind_Ok _ _ _ _ _ R5).
  exists s5. reflexivity.
Qed.

Lemma BayesianAgent_init_wf (envs : Envs) (n : nat) (s : State F G) :
  Envs_ok envs = true ->
  exists agent s',
    BayesianAgent.init envs n s = (Ok agent, s')
    /\ extends (heap s) (heap s')
    /\ BayesianAgent_ok (heap s') agent = true.
Proof.
  intros Henvs.
  destruct (BayesianAgent_init_ok envs n s Henvs)
    as (c0 & c2 & c4 & a0 & a2 & a4 & ls & s' & Hrun & Hext & K0 & K2 & K4 & L0 & L2 & L4
        & Kls & [I4 O4] & [J4 P4]).
  eexists _, s'. split; [exact Hrun|]. split; [exact Hext|].
  unfold BayesianAgent_ok. simpl.
  rewrite K0, K2, L0, L2, Kls, I4, O4, J4, P4, K4, L4, Henvs. reflexivity.
Qed.

(** C5: whatever [number_of_cell_types] is, the agent returned by
    [BayesianAgent.__init__] has a critic and an actor-mean sequence that
    end with a plain [nn.Linear] (256 to 1, and 256 to the action
    dimension), not with a Bayesian layer; and the constructor returns
    whenever the two shapes of the environment are not empty. *)
Theorem output_layers_are_plain_linear
    (envs : Envs) (number_of_cell_types : nat) (s : State F G) :
  (forall agent s',
      BayesianAgent.init envs number_of_cell_types s = (Ok agent, s') ->
      exists c4 a4,
        list.last (BayesianAgent.critic agent) = Some (Plain (Linear_ c4))
        /\ list.last (BayesianAgent.actor_mean agent) = Some (Plain (Linear_ a4))
        /\ type_of <$> list.last (BayesianAgent.critic agent) = Some T_Linear
        /\ type_of <$> list.last (BayesianAgent.actor_mean agent) = Some T_Linear
        /\ Linear_ok (heap s') c4 256 1 = true
        /\ Linear_ok (heap s') a4 256 (act_dim envs) = true)
  /\ (Envs_ok envs = true ->
      exists agent s', BayesianAgent.init envs number_of_cell_types s = (Ok agent, s')).
Proof.
  split.
  - intros agent s' Hinit.
    destruct (Envs_ok envs) eqn:Henvs.
    + destruct (BayesianAgent_init_ok envs number_of_cell_types s Henvs)
        as (c0 & c2 & c4 & a0 & a2 & a4 & ls & s1 & Hrun & _ & _ & _ & Hc4 & _ & _ & Ha4 & _).
      rewrite Hrun in Hinit. injection Hinit as <- <-.
      exists c4, a4. simpl. repeat split; assumption.
    + destruct (BayesianAgent_init_TypeError envs number_of_cell_types s Henvs)
        as (s1 & Hrun).
      rewrite Hrun in Hinit. discriminate.
  - intros Henvs.
    destruct (BayesianAgent_init_wf envs number_of_cell_types s Henvs)
      as (agent & s' & Hrun & _).
    eauto.
Qed.

Lemma bind_ext {A B} (c : M F G A) (k k' : A -> M F G B) (s : State F G) :
  (forall a s1, k a s1 = k' a s1) -> bind c k s = bind c k' s.
Proof. intros Hk. unfold bind. destruct (c s) as [[a|e] s1]; auto. Qed.

Lemma sample_layers_drop (pre post : list BModule) (c : BModule) :
  (forall s : State F G, BayesianAgent.sample_layer c s = (Ok [], s)) ->
  forall acc s,
    BayesianAgent.sample_layers (pre ++ c :: post) acc s
    = BayesianAgent.sample_layers (pre ++ post) acc s.
Proof.
  intros Hc. induction pre as [|c0 pre IH]; intros acc s; simpl.
  - rewrite (bind_Ok _ _ _ _ _ (Hc s)). now rewrite app_nil_r.
  - apply bind_ext. intros new s1. apply IH.
Qed.

(** C6: a component that is neither a Bayesian layer nor a plain linear
    layer makes [sample_vanilla_agent] append nothing and raise nothing:
    visiting it returns the empty list in the same state, and the whole
    transform returns what it returns on the agent without that component,
    wherever the component stands in the critic or actor-mean sequence. *)
Theorem unrecognised_component_is_dropped (c : BModule) :
  type_of c <> T_BayesianLinear -> type_of c <> T_Linear ->
  (forall s : State F G, BayesianAgent.sample_layer c s = (Ok [], s))
  /\ (forall pre post acc (s : State F G),
        BayesianAgent.sample_layers (pre ++ c :: post) acc s
        = BayesianAgent.sample_layers (pre ++ post) acc s)
  /\ (forall pre post actor ls envs (s : State F G),
        BayesianAgent.sample_vanilla_agent
          {| BayesianAgent.critic := pre ++ c :: post; BayesianAgent.actor_mean := actor;
             BayesianAgent.actor_logstd := ls; BayesianAgent.envs := envs |} s
        = BayesianAgent.sample_vanilla_agent
            {| BayesianAgent.critic := pre ++ post; BayesianAgent.actor_mean := actor;
               BayesianAgent.actor_logstd := ls; BayesianAgent.envs := envs |} s)
  /\ (forall pre post critic ls envs (s : State F G),
        BayesianAgent.sample_vanilla_agent
          {| BayesianAgent.critic := critic; BayesianAgent.actor_mean := pre ++ c :: post;
             BayesianAgent.actor_logstd := ls; BayesianAgent.envs := envs |} s
        = BayesianAgent.sample_vanilla_agent
            {| BayesianAgent.critic := critic; BayesianAgent.actor_mean := pre ++ post;
               BayesianAgent.actor_logstd := ls; BayesianAgent.envs := envs |} s).
Proof.
  intros Hb Hl.
  assert (Hc : forall s : State F G, BayesianAgent.sample_layer c s = (Ok [], s)).
  { destruct c as [b|[l| |cls]]; simpl in *; try congruence; reflexivity. }
  split; [exact Hc|]. split; [intros; now apply sample_layers_drop|]. split.
  - intros pre post actor ls envs s. unfold BayesianAgent.sample_vanilla_agent. simpl.
    apply bind_ext. intros aml s1. unfold bind at 1 3.
    now rewrite sample_layers_drop.
  - intros pre post critic ls envs s. unfold BayesianAgent.sample_vanilla_agent. simpl.
    unfold bind at 1 5. now rewrite sample_layers_drop.
Qed.

(** C9: when the action space is not a [Box], the set-up stops at the
    assertion with its message, before anything is allocated or drawn; when
    it is a [Box], the assertion passes: no [AssertionError] is raised, and
    on shapes that are not empty the Bayesian agent and the sampled agent
    are built. *)
Theorem setup_asserts_continuous_action_space (envs : Envs) (s : State F G) :
  (is_Box (single_action_space envs) = false ->
   setup envs s
   = (Raise (AssertionError "only continuous action space is supported"), s))
  /\ (is_Box (single_action_space envs) = true ->
      py_assert (is_Box (single_action_space envs))
                "only continuous action space is supported" s = (Ok tt, s)
      /\ (forall msg, (setup envs s).1 <> Raise (AssertionError msg))
      /\ (Envs_ok envs = true ->
          exists agent sampled_agent s',
            setup envs s = (Ok (agent, sampled_agent), s'))).
Proof.
  split; intros Hbox; unfold setup, py_assert; rewrite Hbox.
  - reflexivity.
  - split; [reflexivity|].
    unfold bind at 1. unfold ret at 1.
    assert (Hgood : Envs_ok envs = true ->
              exists agent sampled_agent s',
                bind (BayesianAgent.init envs 256)
                     (fun agent => sampled_agent <- BayesianAgent.sample_vanilla_agent agent ;;
                                   ret (agent, sampled_agent)) s
                = (Ok (agent, sampled_agent), s')).
    { intros Henvs.
      destruct (BayesianAgent_init_wf envs 256 s Henvs) as (agent & s1 & R1 & _ & Hok).
      rewrite (bind_Ok _ _ _ _ _ R1).
      destruct (sample_vanilla_agent_ok agent s1 Hok)
        as (a_news & c_news & ls' & s2 & R2 & _).
      cbv zeta in R2. rewrite (bind_Ok _ _ _ _ _ R2).
      eexists _, _, _. reflexivity. }
    split; [|exact Hgood].
    intros msg. destruct (Envs_ok envs) eqn:Henvs.
    + destruct (Hgood eq_refl) as (agent & sampled & s' & ->). discriminate.
    + destruct (BayesianAgent_init_TypeError envs 256 s Henvs) as (s1 & R1).
      rewrite (bind_Raise _ _ _ _ _ R1). discriminate.
Qed.

(** What sampling makes of a sequence of two Bayesian layers, each
  followed by a [Tanh], and a plain output layer. *)
Lemma sampled_sequence (h h' : list (Tensor F)) (b0 b2 : BayesianLinear) (l4 : Linear)
      (news : list (list Module)) :
  Forall2 (contributes h h')
          [BayesianLinear_ b0; Plain Tanh_; BayesianLinear_ b2; Plain Tanh_;
           Plain (Linear_ l4)] news ->
  exists l0 l2 l4',
    concat news = [Linear_ l0; Tanh_; Linear_ l2; Tanh_; Linear_ l4']
    /\ (in_features l4' = in_features l4 /\ out_features l4' = out_features l4)
    /\ (h' !! weight l4' = h !! weight l4 /\ h' !! bias l4' = h !! bias l4)
    /\ (is_Some (h !! weight l4) /\ is_Some (h !! bias l4)).
Proof.
  intros HF.
  apply Forall2_cons_inv_l in HF as (n0 & r0 & C0 & HF & ->).
  apply Forall2_cons_inv_l in HF as (n1 & r1 & C1 & HF & ->).
  apply Forall2_cons_inv_l in HF as (n2 & r2 & C2 & HF & ->).
  apply Forall2_cons_inv_l in HF as (n3 & r3 & C3 & HF & ->).
  apply Forall2_cons_inv_l in HF as (n4 & r4 & C4 & HF & ->).
  apply Forall2_nil_inv_l in HF as ->.
  simpl in C0, C1, C2, C3, C4. subst n1 n3.
  destruct C0 as (l0 & -> & _). destruct C2 as (l2 & -> & _).
  destruct C4 as (l4' & -> & Hi & Ho & HsW & Hsb & HW & Hb).
  exists l0, l2, l4'. simpl. auto 10.
Qed.

(** C2: in the agent that [BayesianAgent.__init__] builds, every
    deterministic component of the critic and of the actor-mean sequence
    has its copy at its own position in the sampled network: at the index
    of a [Tanh] there is a [Tanh], and at the index of the output layer
    there is a linear layer with the same features that holds, in storage
    allocated by the call, the values of the weight and the bias of the
    original.  This holds whenever the agent is sampled, right after its
    construction or after its parameters have been updated in place; and
    the constructor returns such an agent whenever the two shapes of the
    environment are not empty and their sizes are multiplied without
    overflow. *)
Theorem deterministic_components_are_copied_in_place
    (envs : Envs) (n : nat) (s : State F G) :
  (forall agent s1,
      BayesianAgent.init envs n s = (Ok agent, s1) ->
      forall s' : State F G,
        BayesianAgent_ok (heap s') agent = true ->
        exists sampled s2,
          BayesianAgent.sample_vanilla_agent agent s' = (Ok sampled, s2)
          /\ (forall i m,
                BayesianAgent.critic agent !! i = Some (Plain m) ->
                exists m', Agent.critic sampled !! i = Some m'
                           /\ copied (heap s') (heap s2) m m')
          /\ (forall i m,
                BayesianAgent.actor_mean agent !! i = Some (Plain m) ->
                exists m', Agent.actor_mean sampled !! i = Some m'
                           /\ copied (heap s') (heap s2) m m'))
  /\ (Envs_ok envs = true -> Envs_fit envs = true ->
      exists agent s1,
        BayesianAgent.init envs n s = (Ok agent, s1)
        /\ BayesianAgent_ok (heap s1) agent = true).
Proof.
  split.
  - intros agent s1 Hinit s' Hok.
    assert (Hshape : exists c0 c2 c4 a0 a2 a4,
               BayesianAgent.critic agent
               = [BayesianLinear_ c0; Plain Tanh_; BayesianLinear_ c2; Plain Tanh_;
                  Plain (Linear_ c4)]
               /\ BayesianAgent.actor_mean agent
                  = [BayesianLinear_ a0; Plain Tanh_; BayesianLinear_ a2; Plain Tanh_;
                     Plain (Linear_ a4)]).
    { destruct (Envs_ok envs) eqn:Henvs.
      - destruct (BayesianAgent_init_ok envs n s Henvs)
          as (c0 & c2 & c4 & a0 & a2 & a4 & ls & s1' & Hrun & _).
        rewrite Hrun in Hinit. injection Hinit as <- <-.
        exists c0, c2, c4, a0, a2, a4. split; reflexivity.
      - destruct (BayesianAgent_init_TypeError envs n s Henvs) as (s1' & Hrun).
        rewrite Hrun in Hinit. discriminate. }
    destruct Hshape as (c0 & c2 & c4 & a0 & a2 & a4 & Hcr & Hac).
    destruct (sample_vanilla_agent_ok agent s' Hok)
      as (a_news & c_news & ls' & s2 & Hrun & _ & Hfresh & Ha & Hc & _).
    cbv zeta in Hrun, Hfresh. rewrite list.Forall_forall in Hfresh.
    rewrite Hcr in Hc. rewrite Hac in Ha.
    destruct (sampled_sequence _ _ _ _ _ _ Hc)
      as (k0 & k2 & c4' & Hcs & [Ci Co] & [CW Cb] & [[W HW] [b Hb]]).
    destruct (sampled_sequence _ _ _ _ _ _ Ha)
      as (j0 & j2 & a4' & Has & [Ai Ao] & [AW Ab] & [[V HV] [d Hd]]).
    eexists _, s2. split; [exact Hrun|].
    assert (Hin : forall l, l ∈ [weight c4'; bias c4'; weight a4'; bias a4'] ->
                    length (heap s') <= l < length (heap s2)).
    { intros l Hl. apply Hfresh. unfold Agent_params, Sequential_params. simpl.
      rewrite Hcs, Has. simpl. rewrite !elem_of_cons, elem_of_nil in Hl.
      rewrite !elem_of_cons. tauto. }
    split; intros i m Hi; simpl.
    + rewrite Hcr in Hi. rewrite Hcs.
      destruct i as [|[|[|[|[|i]]]]]; simpl in Hi; try discriminate;
        injection Hi as <-; eexists; (split; [reflexivity|]); [exact I|exact I|].
      split; [exact Ci|]. split; [exact Co|]. split.
      * exists W, b. rewrite CW, Cb. auto.
      * split; apply Hin; rewrite !elem_of_cons; auto.
    + rewrite Hac in Hi. rewrite Has.
      destruct i as [|[|[|[|[|i]]]]]; simpl in Hi; try discriminate;
        injection Hi as <-; eexists; (split; [reflexivity|]); [exact I|exact I|].
      split; [exact Ai|]. split; [exact Ao|]. split.
      * exists V, d. rewrite AW, Ab. auto.
      * split; apply Hin; rewrite !elem_of_cons; auto.
  - intros Henvs _.
    destruct (BayesianAgent_init_wf envs n s Henvs) as (agent & s1 & Hrun & _ & Hok).
    eauto.
Qed.
End SamplingClaims.

(** * The theorems on concrete inputs *)

Import Examples.

Lemma sampled_agent_snapshot_isolation_witness :
  BayesianAgent_ok (heap state0) agent0 = true
  /\ exists sampled s',
       BayesianAgent.sample_vanilla_agent agent0 state0 = (Ok sampled, s')
       /\ (forall l, l ∈ Agent_params sampled -> l ∉ BayesianAgent_params agent0)
       /\ forall h'',
            modified_only_at (BayesianAgent_params agent0) (heap s') h'' ->
            forall x, Agent.get_value sampled h'' x = Agent.get_value sampled (heap s') x.
Proof.
  split; [vm_compute; reflexivity|].
  destruct (sampled_agent_snapshot_isolation agent0 state0) as (sampled & s' & Hrun & Hd & _ & Hiso).
  - vm_compute; reflexivity.
  - exists sampled, s'. split; [exact Hrun|]. split; [exact Hd|].
    intros h'' Hmod x. exact (proj1 (Hiso h'' Hmod x)).
Defined.

Lemma deterministic_components_are_copied_in_place_witness :
  Envs_ok envs0 = true
  /\ Envs_fit envs0 = true
  /\ exists agent s1 sampled s2,
       BayesianAgent.init envs0 256 state0 = (Ok agent, s1)
       /\ BayesianAgent_ok (heap s1) agent = true
       /\ BayesianAgent.sample_vanilla_agent agent s1 = (Ok sampled, s2)
       /\ forall i m,
            BayesianAgent.critic agent !! i = Some (Plain m) ->
            exists m', Agent.critic sampled !! i = Some m'
                       /\ Module_type m' = Module_type m.
Proof.
  assert (Hfit : Envs_fit envs0 = true) by (vm_compute; reflexivity).
  split; [reflexivity|]. split; [exact Hfit|].
  destruct (proj2 (deterministic_components_are_copied_in_place envs0 256 state0)
              eq_refl Hfit) as (agent & s1 & Hinit & Hok).
  destruct (proj1 (deterministic_components_are_copied_in_place envs0 256 state0)
              agent s1 Hinit s1 Hok) as (sampled & s2 & Hrun & Hcopy).
  exists agent, s1, sampled, s2.
  split; [exact Hinit|]. split; [exact Hok|]. split; [exact Hrun|].
  intros i m Hi.
  destruct (proj1 Hcopy i m Hi) as (m' & Hm' & Hsame).
  exists m'. split; [exact Hm'|].
  destruct m as [l| |c], m' as [l'| |c']; simpl in *; tauto.
Defined.

Lemma vanilla_layer_holds_the_draw_witness :
  heap state0 !! 0 = Some (const_tensor [2; 3] 1)
  /\ (exists layer s',
        BayesianAgent.construct_vanilla_layer 0 2 state0 = (Ok layer, s')
        /\ weight layer = 0 /\ bias layer = 2
        /\ in_features layer = 3 /\ out_features layer = 2)
  /\ BayesianLinear_ok (heap state0) (bayes0 0) = true
  /\ (exists Wt Bt layer s',
        BayesianAgent.sample_layer (BayesianLinear_ (bayes0 0)) state0
        = (Ok [Linear_ layer; Tanh_], s')
        /\ heap s' !! weight layer = Some Wt /\ heap s' !! bias layer = Some Bt
        /\ shape Wt = [2; 3] /\ shape Bt = [2]
        /\ in_features layer = 3 /\ out_features layer = 2).
Proof.
  split; [reflexivity|]. split; [|split; [vm_compute; reflexivity|]].
  - destruct (proj1 vanilla_layer_holds_the_draw 0 2 (const_tensor [2; 3] 1) 2 3 state0)
      as (layer & s' & Hrun & Hw & Hb & Hin & Hout & _).
    + reflexivity.
    + reflexivity.
    + exists layer, s'. auto.
  - destruct (proj2 vanilla_layer_holds_the_draw (bayes0 0) state0)
      as (w_loc & b_loc & Wt & Bt & s1 & s2 & layer & s' & _ & _ & _ & _ & _ & Hrun
          & [HW HB] & [HsW _] & [HsB _] & [Hin Hout]).
    + vm_compute; reflexivity.
    + exists Wt, Bt, layer, s'. unfold shape_at in Hin, Hout. rewrite HsW in Hin, Hout.
      simpl in Hin, Hout. injection Hin as Hin. injection Hout as Hout.
      repeat split; auto.
Defined.

Lemma get_action_and_value_shapes_and_sums_witness :
  Agent_ok heap48 agent48 48 12 = true
  /\ shape obs48 = [2; 48]
  /\ exists a lp ent v s',
       Agent.get_action_and_value agent48 obs48 None {| heap := heap48; gen := 0 |}
       = (Ok (a, lp, ent, v), s')
       /\ shape a = [2; 12] /\ shape lp = [2] /\ shape ent = [2] /\ shape v = [2; 1].
Proof.
  split; [vm_compute; reflexivity|]. split; [reflexivity|].
  assert (Hr : match (Agent.get_action_and_value agent48 obs48 None
                        {| heap := heap48; gen := 0 |}).1 with
               | Ok _ => true
               | Raise _ => false
               end = true) by (vm_compute; reflexivity).
  destruct (get_action_and_value_shapes_and_sums agent48 heap48 0 obs48 None 48 12 2)
    as (mean & std & a & lp & ent & v & s' & _ & _ & _ & Hrun & _ & Hshapes & _).
  - vm_compute; reflexivity.
  - reflexivity.
  - vm_compute; reflexivity.
  - discriminate.
  - rewrite Hrun in Hr.
    destruct (all_real mean && all_positive std); [|discriminate Hr].
    destruct (all_real a); [|discriminate Hr].
    exists a, lp, ent, v, s'. split; [exact Hrun | exact Hshapes].
Defined.

Lemma output_layers_are_plain_linear_witness :
  Envs_ok envs0 = true
  /\ exists agent s' c4,
       BayesianAgent.init envs0 256 state0 = (Ok agent, s')
       /\ list.last (BayesianAgent.critic agent) = Some (Plain (Linear_ c4)).
Proof.
  split; [reflexivity|].
  destruct (proj2 (output_layers_are_plain_linear envs0 256 state0) eq_refl)
    as (agent & s' & Hrun).
  destruct (proj1 (output_layers_are_plain_linear envs0 256 state0) agent s' Hrun)
    as (c4 & a4 & Hc & _).
  exists agent, s', c4. auto.
Defined.

Lemma unrecognised_component_is_dropped_witness :
  type_of (Plain Tanh_) <> T_BayesianLinear
  /\ type_of (Plain Tanh_) <> T_Linear
  /\ BayesianAgent.sample_layer (Plain Tanh_) state0 = (Ok [], state0)
  /\ BayesianAgent.sample_layers (BayesianAgent.critic agent0) [] state0
     = BayesianAgent.sample_layers
         [BayesianLinear_ (bayes0 0); Plain (Linear_ (linear0 4))] [] state0
  /\ BayesianAgent.sample_layers [relu; Plain (Linear_ (linear0 4))] [] state0
     = BayesianAgent.sample_layers [Plain (Linear_ (linear0 4))] [] state0.
Proof.
  assert (Hb : type_of (Plain Tanh_) <> T_BayesianLinear) by discriminate.
  assert (Hl : type_of (Plain Tanh_) <> T_Linear) by discriminate.
  assert (Hb' : type_of relu <> T_BayesianLinear) by discriminate.
  assert (Hl' : type_of relu <> T_Linear) by discriminate.
  destruct (unrecognised_component_is_dropped (F:=Sym) (G:=nat) (Plain Tanh_) Hb Hl)
    as (Hone & Hseq & _).
  destruct (unrecognised_component_is_dropped (F:=Sym) (G:=nat) relu Hb' Hl')
    as (_ & Hseq' & _).
  split; [exact Hb|]. split; [exact Hl|]. split; [apply Hone|]. split.
  - exact (Hseq [BayesianLinear_ (bayes0 0)] [Plain (Linear_ (linear0 4))] [] state0).
  - exact (Hseq' [] [Plain (Linear_ (linear0 4))] [] state0).
Defined.

Lemma get_action_and_value_returns_get_value_witness :
  Agent_ok (heap state0) agent1 2 1 = true
  /\ (exists a lp ent v s',
        Agent.get_action_and_value agent1 obs1 None state0 = (Ok (a, lp, ent, v), s')
        /\ Agent.get_value agent1 (heap state0) obs1 = Ok v)
  /\ (exists a lp ent v s',
        Agent.get_action_and_value agent1 (const_tensor [2; 1; 2] 1) None state0
        = (Ok (a, lp, ent, v), s')
        /\ Agent.get_value agent1 (heap state0) (const_tensor [2; 1; 2] 1) = Ok v)
  /\ agree_on (Sequential_params (Agent.critic agent1)) (heap state0)
              (<[12 := const_tensor [1; 1] 5]> heap0)
  /\ Agent.get_value agent1 (<[12 := const_tensor [1; 1] 5]> heap0) obs1
     = Agent.get_value agent1 (heap state0) obs1.
Proof.
  destruct (get_action_and_value_returns_get_value agent1 obs1 None state0)
    as (Hfourth & Hpure & _ & Hruns).
  assert (Hag : agree_on (Sequential_params (Agent.critic agent1)) (heap state0)
                         (<[12 := const_tensor [1; 1] 5]> heap0)).
  { intros l Hl. apply list_elem_of_In in Hl. simpl in Hl.
    destruct Hl as [<-|[<-|[]]]; reflexivity. }
  split; [vm_compute; reflexivity|].
  split; [|split; [|split; [exact Hag | exact (Hpure _ Hag)]]].
  - assert (Hr : match (Agent.get_action_and_value agent1 obs1 None state0).1 with
                 | Ok _ => true
                 | Raise _ => false
                 end = true) by (vm_compute; reflexivity).
    destruct (Hruns 2 1 2) as (mean & std & a & lp & ent & v & s' & Hv & _ & _ & _ & Hrun).
    + vm_compute; reflexivity.
    + reflexivity.
    + vm_compute; reflexivity.
    + discriminate.
    + rewrite Hrun in Hr.
      destruct (all_real mean && all_positive std); [|discriminate Hr].
      destruct (all_real a); [|discriminate Hr].
      exists a, lp, ent, v, s'. split; [exact Hrun | exact Hv].
  - destruct (Agent.get_action_and_value agent1 (const_tensor [2; 1; 2] 1) None state0)
      as [[[[[a lp] ent] v]|e] s'] eqn:Hrun.
    + exists a, lp, ent, v, s'. split; [reflexivity|].
      exact (proj1 (get_action_and_value_returns_get_value agent1
                      (const_tensor [2; 1; 2] 1) None state0) a lp ent v s' Hrun).
    + vm_compute in Hrun. discriminate Hrun.
Defined.

Lemma policy_std_is_exp_actor_logstd_witness :
  Agent_ok heap0 agent1 2 1 = true
  /\ exists mean ls std,
       heap0 !! Agent.actor_logstd agent1 = Some ls
       /\ Agent.policy agent1 heap0 obs1 = new_Normal mean std
       /\ chunks 1 2 (data std) = repeat (map fexp (data ls)) 2
       /\ exists a lp ent v s',
            Agent.get_action_and_value agent1 obs1 None {| heap := heap0; gen := 0 |}
            = (Ok (a, lp, ent, v), s')
            /\ data ent !! 1
               = Some (fsum (map (fun d => normal_entropy (fexp (nth d (data ls) fzero)))
                                 (seq 0 1))).
Proof.
  split; [vm_compute; reflexivity|].
  assert (Hr : match (Agent.get_action_and_value agent1 obs1 None
                        {| heap := heap0; gen := 0 |}).1 with
               | Ok _ => true
               | Raise _ => false
               end = true) by (vm_compute; reflexivity).
  destruct (policy_std_is_exp_actor_logstd agent1 heap0 0 obs1 None 2 1 2)
    as (mean & ls & std & a & lp & ent & v & s' & Hl & _ & Hp & (_ & Hrows & _) & _
        & Hrun & _ & Hsum).
  - vm_compute; reflexivity.
  - reflexivity.
  - vm_compute; reflexivity.
  - discriminate.
  - exists mean, ls, std. split; [exact Hl|]. split; [exact Hp|]. split; [exact Hrows|].
    rewrite Hrun in Hr.
    destruct (all_real mean && all_positive std); [|discriminate Hr].
    destruct (all_real a); [|discriminate Hr].
    exists a, lp, ent, v, s'. split; [exact Hrun|]. exact (proj2 (Hsum 1 ltac:(lia))).
Defined.

Lemma setup_asserts_continuous_action_space_witness :
  is_Box (single_action_space envs_discrete) = false
  /\ setup envs_discrete state0
     = (Raise (AssertionError "only continuous action space is supported"), state0)
  /\ is_Box (single_action_space envs0) = true
  /\ Envs_ok envs0 = true
  /\ exists agent sampled_agent s', setup envs0 state0 = (Ok (agent, sampled_agent), s').
Proof.
  split; [reflexivity|].
  split; [exact (proj1 (setup_asserts_continuous_action_space envs_discrete state0) eq_refl)|].
  split; [reflexivity|]. split; [reflexivity|].
  destruct (proj2 (setup_asserts_continuous_action_space envs0 state0) eq_refl)
    as (_ & _ & Hruns).
  exact (Hruns eq_refl).
Defined.

Lemma get_action_and_value_with_action_witness :
  Agent_ok (heap state0) agent1 2 1 = true
  /\ shape act1 = [2; 1]
  /\ (exists lp ent v,
        Agent.get_action_and_value agent1 obs1 (Some act1) state0
        = (Ok (act1, lp, ent, v), state0))
  /\ exists lp ent v,
       Agent.get_action_and_value agent1 obs1 (Some (const_tensor [1] 2)) state0
       = (Ok (const_tensor [1] 2, lp, ent, v), state0).
Proof.
  split; [vm_compute; reflexivity|]. split; [reflexivity|].
  destruct (get_action_and_value_with_action agent1 obs1 act1 state0) as (_ & _ & Hruns).
  split.
  - destruct (Hruns 2 1 2) as (mean & ls & v & Hm & Hl & _ & _ & Hrun).
    + vm_compute; reflexivity.
    + reflexivity.
    + vm_compute; reflexivity.
    + vm_compute in Hm. injection Hm as <-. vm_compute in Hl. injection Hl as <-.
      eexists _, _, v. rewrite (Hrun eq_refl eq_refl). reflexivity.
  - destruct (get_action_and_value_with_action agent1 obs1 (const_tensor [1] 2) state0)
      as (_ & _ & Hruns').
    destruct (Hruns' 2 1 2) as (mean & ls & v & Hm & Hl & _ & Hrun & _).
    + vm_compute; reflexivity.
    + reflexivity.
    + vm_compute; reflexivity.
    + vm_compute in Hm. injection Hm as <-. vm_compute in Hl. injection Hl as <-.
      eexists _, _, v. rewrite Hrun. reflexivity.
Defined.

(** * Further properties of the agents *)

Section AgentExtras.
Context {F G : Type} `{Scalar F} `{Generator G F}.

(** [get_action_and_value] never writes to the store. *)
Lemma get_action_and_value_keeps_store
    (self : Agent.t) (x : Tensor F) (action : option (Tensor F)) (s : State F G) :
  heap (Agent.get_action_and_value self x action s).2 = heap s.
Proof.
  destruct action as [a|].
  - now rewrite get_action_and_value_Some.
  - rewrite get_action_and_value_None.
    destruct (Agent.policy self (heap s) x) as [probs|]; [|reflexivity].
    rewrite Normal_sample_spec, get_action_and_value_Some. reflexivity.
Qed.

(** X1: replaying a drawn action.  When [get_action_and_value] without an
    action returns an action, a log-probability, an entropy and a value,
    calling it again on the same observation with that action returns the
    same four values and draws nothing, as long as the parameters are not
    changed in between. *)
Theorem get_action_and_value_replay
    (self : Agent.t) (x a lp ent v : Tensor F) (s s' : State F G) :
  Agent.get_action_and_value self x None s = (Ok (a, lp, ent, v), s') ->
  Agent.get_action_and_value self x (Some a) s' = (Ok (a, lp, ent, v), s')
  /\ heap s' = heap s.
Proof.
  rewrite get_action_and_value_None.
  destruct (Agent.policy self (heap s) x) as [probs|] eqn:Hp; [|discriminate].
  rewrite Normal_sample_spec. set (s1 := {| heap := heap s; gen := _ |}).
  set (a1 := {| shape := _; data := _ |}).
  intros Hrun. pose proof Hrun as Hrun'.
  rewrite get_action_and_value_Some in Hrun'.
  injection Hrun' as Hres <-. simpl heap in Hres.
  assert (Ha : a = a1).
  { rewrite Hp in Hres. simpl in Hres.
    destruct (Normal_log_prob probs a1) as [lp0|]; simpl in Hres; [|discriminate].
    destruct (sum1 lp0); simpl in Hres; [|discriminate].
    destruct (sum1 (Normal_entropy probs)); simpl in Hres; [|discriminate].
    destruct (Agent.get_value self (heap s) x); simpl in Hres; [|discriminate].
    now injection Hres. }
  subst a. split; [exact Hrun | reflexivity].
Qed.

Lemma map_repeat {A B} (f : A -> B) (a : A) (n : nat) :
  map f (repeat a n) = repeat (f a) n.
Proof. induction n as [|n IH]; simpl; [reflexivity|]. now rewrite IH. Qed.

(** X2: the entropy returned by [get_action_and_value] depends on
    [actor_logstd] and on the batch size only: whenever the call returns,
    every batch element gets the sum over the action dimensions of the
    entropy of [exp(actor_logstd)], whatever the observations and the
    action are.  The call returns unless the validation of [Normal]
    raises [ValueError]. *)
Theorem entropy_depends_on_logstd_only
    (self : Agent.t) (h : list (Tensor F)) (g : G) (x : Tensor F)
    (action : option (Tensor F)) (obs D B : nat) :
  Agent_ok h self obs D = true ->
  shape x = [B; obs] -> length (data x) = B * obs ->
  (forall a, action = Some a -> shape a = [B; D] /\ length (data a) = B * D) ->
  exists ls mean std a lp v s',
    h !! Agent.actor_logstd self = Some ls
    /\ Agent.policy self h x = new_Normal mean std
    /\ Agent.get_action_and_value self x action {| heap := h; gen := g |}
       = (if all_real mean && all_positive std then
            (if all_real a then
               Ok (a, lp,
                   {| shape := [B];
                      data := repeat (fsum (map (fun e => normal_entropy (fexp e))
                                                (data ls))) B |},
                   v)
             else Raise ValueError, s')
          else (Raise ValueError, {| heap := h; gen := g |})).
Proof.
  intros Hok Hx Hlen Hact.
  destruct (get_action_and_value_spec self h g x action obs D B Hok Hx Hlen Hact)
    as (mean & ls & a & v & g' & _ & _ & Hl & [_ Hll] & _ & _ & _ & Hp & _ & Hrun).
  cbv zeta in Hp, Hrun.
  eexists ls, mean, _, a, _, v, _. split; [exact Hl|]. split; [exact Hp|].
  rewrite Hrun.
  assert (Hent : map fsum (chunks D B (map normal_entropy
                   (data (torch_exp {| shape := [B; D];
                                       data := concat (repeat (data ls) B) |}))))
                 = repeat (fsum (map (fun e => normal_entropy (fexp e)) (data ls))) B).
  { simpl. rewrite !chunks_map, chunks_concat_repeat by exact Hll.
    rewrite !map_repeat. do 2 f_equal. now rewrite map_map. }
  now rewrite Hent.
Qed.

(** X3: an observation batch with the wrong number of features is
    refused before anything is drawn: when the actor-mean network starts
    with a linear layer of [n_in] input features and the batch has another
    number of columns, [get_action_and_value] raises [RuntimeError] and
    leaves the state, generator included, as it was; [get_value] does the
    same when the critic starts with such a layer. *)
Theorem wrong_feature_count_is_refused
    (self : Agent.t) (x : Tensor F) (s : State F G) (B n : nat) :
  shape x = [B; n] ->
  (forall l rest n_in n_out action,
      Agent.actor_mean self = Linear_ l :: rest ->
      Linear_ok (heap s) l n_in n_out = true -> n <> n_in ->
      Agent.get_action_and_value self x action s = (Raise RuntimeError, s))
  /\ (forall l rest n_in n_out,
        Agent.critic self = Linear_ l :: rest ->
        Linear_ok (heap s) l n_in n_out = true -> n <> n_in ->
        Agent.get_value self (heap s) x = Raise RuntimeError).
Proof.
  intros Hx.
  assert (Hfwd : forall l rest n_in n_out,
            Linear_ok (heap s) l n_in n_out = true -> n <> n_in ->
            Sequential_forward (heap s) (Linear_ l :: rest) x = Raise RuntimeError).
  { intros l rest n_in n_out Hok Hne. unfold Linear_ok in Hok.
    apply andb_true_iff in Hok as [HW Hb].
    apply has_shape_true in HW as (W & HW & HsW & _).
    apply has_shape_true in Hb as (b & Hb & Hsb & _).
    simpl. unfold lookup_tensor. rewrite HW. simpl. rewrite Hb. simpl.
    unfold F_linear. rewrite Hx, HsW, Hsb. simpl rev. cbv iota beta.
    apply Nat.eqb_neq in Hne. rewrite Hne. reflexivity. }
  split.
  - intros l rest n_in n_out action Hact Hok Hne.
    assert (Hp : Agent.policy self (heap s) x = Raise RuntimeError).
    { unfold Agent.policy. rewrite Hact, (Hfwd l rest n_in n_out Hok Hne). reflexivity. }
    destruct action as [a|].
    + rewrite get_action_and_value_Some, Hp. reflexivity.
    + rewrite get_action_and_value_None, Hp. reflexivity.
  - intros l rest n_in n_out Hcr Hok Hne. unfold Agent.get_value.
    rewrite Hcr. eapply Hfwd; eauto.
Qed.

(** X4: the actor and the critic are separate.  For an agent whose
    parameters are stored at pairwise different locations, writing to the
    critic's parameters changes neither the policy distribution nor the
    action, log-probability and entropy returned by
    [get_action_and_value]; writing to the actor's parameters or to
    [actor_logstd] does not change [get_value]. *)
Theorem actor_and_critic_are_separate
    (self : Agent.t) (h : list (Tensor F)) :
  NoDup (Agent_params self) ->
  (forall h2 x,
      modified_only_at (Sequential_params (Agent.critic self)) h h2 ->
      Agent.policy self h2 x = Agent.policy self h x
      /\ forall action g a lp ent v s1 a' lp' ent' v' s2,
           Agent.get_action_and_value self x action {| heap := h; gen := g |}
           = (Ok (a, lp, ent, v), s1) ->
           Agent.get_action_and_value self x action {| heap := h2; gen := g |}
           = (Ok (a', lp', ent', v'), s2) ->
           a' = a /\ lp' = lp /\ ent' = ent /\ gen s2 = gen s1)
  /\ (forall h2 x,
        modified_only_at
          (Sequential_params (Agent.actor_mean self) ++ [Agent.actor_logstd self]) h h2 ->
        Agent.get_value self h2 x = Agent.get_value self h x).
Proof.
  intros Hnd. unfold Agent_params in Hnd.
  apply list.NoDup_app in Hnd as (_ & Hdisj & _).
  split.
  - intros h2 x Hmod.
    assert (Hp : Agent.policy self h2 x = Agent.policy self h x).
    { unfold Agent.policy.
      rewrite (Sequential_forward_agree h2 h (Agent.actor_mean self)).
      - unfold lookup_tensor. rewrite (Hmod (Agent.actor_logstd self)); [reflexivity|].
        intros Hin. apply (Hdisj _ Hin). apply elem_of_app. right.
        apply elem_of_cons. now left.
      - intros l Hl. apply Hmod. intros Hin. apply (Hdisj _ Hin).
        apply elem_of_app. now left. }
    split; [exact Hp|].
    assert (Hsome : forall a0 g0 a lp ent v s1 a' lp' ent' v' s2,
              Agent.get_action_and_value self x (Some a0) {| heap := h; gen := g0 |}
              = (Ok (a, lp, ent, v), s1) ->
              Agent.get_action_and_value self x (Some a0) {| heap := h2; gen := g0 |}
              = (Ok (a', lp', ent', v'), s2) ->
              a' = a /\ lp' = lp /\ ent' = ent /\ gen s2 = gen s1).
    { intros a0 g0 a lp ent v s1 a' lp' ent' v' s2.
      rewrite !get_action_and_value_Some. simpl heap. rewrite Hp.
      destruct (Agent.policy self h x) as [probs|]; simpl; [|discriminate].
      destruct (Normal_log_prob probs a0) as [lp0|]; simpl; [|discriminate].
      destruct (sum1 lp0); simpl; [|discriminate].
      destruct (sum1 (Normal_entropy probs)); simpl; [|discriminate].
      destruct (Agent.get_value self h x); simpl; [|discriminate].
      destruct (Agent.get_value self h2 x); simpl; [|discriminate].
      intros [= <- <- <- <- <-] [= <- <- <- <- <-]. auto. }
    intros [a0|] g a lp ent v s1 a' lp' ent' v' s2; [apply Hsome|].
    rewrite !get_action_and_value_None. simpl heap. rewrite Hp.
    destruct (Agent.policy self h x) as [probs|]; [|discriminate].
    rewrite !Normal_sample_spec. simpl. apply Hsome.
  - intros h2 x Hmod. unfold Agent.get_value. apply Sequential_forward_agree.
    intros l Hl. apply Hmod. intros Hin. exact (Hdisj _ Hl Hin).
Qed.
End AgentExtras.

(** * Further properties of the constructors *)

Section InitExtras.
Context {F G : Type} `{Scalar F} `{Generator G F}.

Lemma constant_exact (l : loc) (val : F) (s : State F G) (t : Tensor F) :
  heap s !! l = Some t ->
  constant_ l val s
  = (Ok tt, {| heap := <[l := {| shape := shape t;
                                 data := repeat val (length (data t)) |}]> (heap s);
               gen := gen s |}).
Proof.
  intros Hl. unfold constant_. rewrite (bind_Ok _ _ s s t) by now apply load_Ok.
  rewrite store_Ok by (eapply lookup_lt_Some; eauto).
  do 4 f_equal. clear. induction (data t) as [|a d IH]; simpl; [reflexivity|].
  now rewrite IH.
Qed.

(** X5: [layer_init] works in place.  On a layer whose weight is a
    stored matrix and whose bias is stored elsewhere it returns the very
    layer it was given; no storage is allocated; only the weight and the
    bias of the layer are written; afterwards every entry of the bias is
    [bias_const], and weight and bias have the shapes they had. *)
Theorem layer_init_in_place
    (layer : Linear) (std bias_const : F) (s : State F G) (W b : Tensor F)
    (rows cols : nat) :
  heap s !! weight layer = Some W -> shape W = [rows; cols] ->
  heap s !! bias layer = Some b -> weight layer <> bias layer ->
  exists s' W',
    layer_init layer std bias_const s = (Ok layer, s')
    /\ length (heap s') = length (heap s)
    /\ (forall l, l <> weight layer -> l <> bias layer -> heap s' !! l = heap s !! l)
    /\ heap s' !! bias layer
       = Some {| shape := shape b; data := repeat bias_const (length (data b)) |}
    /\ heap s' !! weight layer = Some W'
    /\ shape W' = shape W /\ length (data W') = length (data W).
Proof.
  intros HW HsW Hb Hne. unfold layer_init.
  destruct (orthogonal_spec (weight layer) std s W rows cols HW HsW)
    as (W' & g' & Ho & HsW' & HlW').
  rewrite (bind_Ok _ _ _ _ _ Ho).
  assert (Hb' : heap {| heap := <[weight layer := W']> (heap s); gen := g' |}
                !! bias layer = Some b).
  { simpl. now rewrite list_lookup_insert_ne. }
  rewrite (bind_Ok _ _ _ _ _ (constant_exact _ bias_const _ _ Hb')). unfold ret.
  eexists _, W'. split; [reflexivity|]. simpl.
  pose proof (lookup_lt_Some _ _ _ HW). pose proof (lookup_lt_Some _ _ _ Hb).
  split; [now rewrite !length_insert|].
  split; [intros l Hl1 Hl2; now rewrite !list_lookup_insert_ne by auto|].
  split; [apply list_lookup_insert_eq; now rewrite length_insert|].
  split; [|auto].
  rewrite list_lookup_insert_ne by auto. now apply list_lookup_insert_eq.
Qed.

(** X6: [layer_init] initialises the weight first: on a layer whose
    weight has fewer than two dimensions it raises [ValueError] and the
    bias has not been touched. *)
Theorem layer_init_needs_a_matrix
    (layer : Linear) (std bias_const : F) (s : State F G) (W : Tensor F) :
  heap s !! weight layer = Some W -> length (shape W) < 2 ->
  layer_init layer std bias_const s = (Raise ValueError, s).
Proof.
  intros HW Hrank. unfold layer_init, orthogonal_.
  unfold bind at 1. unfold bind at 1. rewrite (load_Ok _ _ _ HW).
  destruct (shape W) as [|r [|c rest]]; simpl in Hrank; try lia; reflexivity.
Qed.

Lemma new_layer_exact (n_in n_out : nat) (std bias_const : F) (s : State F G) :
  exists W b g',
    (l <- nn_Linear n_in n_out ;; layer_init l std bias_const) s
    = (Ok {| in_features := n_in; out_features := n_out;
             weight := length (heap s); bias := S (length (heap s)) |},
       {| heap := heap s ++ [W; b]; gen := g' |})
    /\ (shape W = [n_out; n_in] /\ length (data W) = n_out * n_in)
    /\ b = {| shape := [n_out]; data := repeat bias_const n_out |}.
Proof.
  destruct (nn_Linear_spec n_in n_out s) as (W0 & b0 & g0 & Hnew & HsW & HlW & Hsb & Hlb).
  rewrite (bind_Ok _ _ _ _ _ Hnew). unfold layer_init. simpl weight. simpl bias.
  edestruct (orthogonal_spec (length (heap s)) std
               {| heap := heap s ++ [W0; b0]; gen := g0 |} W0) as (W1 & g1 & Ho & HsW1 & HlW1).
  { simpl. now rewrite lookup_app_at0. }
  { exact HsW. }
  rewrite (bind_Ok _ _ _ _ _ Ho). simpl heap. rewrite insert_app_at0.
  erewrite bind_Ok.
  2:{ apply (constant_exact _ _ _ b0). simpl. now rewrite lookup_app_at1. }
  simpl heap. simpl gen. rewrite insert_app_at1. unfold ret.
  eexists W1, _, g1. split; [reflexivity|]. rewrite Hsb, Hlb, HsW1, HlW1. auto.
Qed.

Lemma new_layer_in_exact (sh : list nat) (n_out : nat) (std bias_const : F) (s : State F G) :
  sh <> [] ->
  exists W b g',
    (n <- lift (np_prod sh) ;; l <- nn_Linear n n_out ;; layer_init l std bias_const) s
    = (Ok {| in_features := numel sh; out_features := n_out;
             weight := length (heap s); bias := S (length (heap s)) |},
       {| heap := heap s ++ [W; b]; gen := g' |})
    /\ (shape W = [n_out; numel sh] /\ length (data W) = n_out * numel sh)
    /\ b = {| shape := [n_out]; data := repeat bias_const n_out |}.
Proof.
  intros Hsh. rewrite (lift_bind_Ok _ _ _ _ (np_prod_Ok sh Hsh)). apply new_layer_exact.
Qed.

Lemma new_layer_out_exact (sh : list nat) (n_in : nat) (std bias_const : F) (s : State F G) :
  sh <> [] ->
  exists W b g',
    (n <- lift (np_prod sh) ;; l <- nn_Linear n_in n ;; layer_init l std bias_const) s
    = (Ok {| in_features := n_in; out_features := numel sh;
             weight := length (heap s); bias := S (length (heap s)) |},
       {| heap := heap s ++ [W; b]; gen := g' |})
    /\ (shape W = [numel sh; n_in] /\ length (data W) = numel sh * n_in)
    /\ b = {| shape := [numel sh]; data := repeat bias_const (numel sh) |}.
Proof.
  intros Hsh. rewrite (lift_bind_Ok _ _ _ _ (np_prod_Ok sh Hsh)). apply new_layer_exact.
Qed.

(** The agent [Agent(envs)] builds and the thirteen tensors it allocates,
    in order. *)
Lemma Agent_init_layout (envs : Envs) (s : State F G) :
  Envs_ok envs = true ->
  exists W0 b0 W1 b1 W2 b2 W3 b3 W4 b4 W5 b5 g',
    let L := length (heap s) in
    Agent.init envs s
    = (Ok {| Agent.critic :=
               [Linear_ {| in_features := obs_dim envs; out_features := 256;
                           weight := L; bias := L + 1 |};
                Tanh_;
                Linear_ {| in_features := 256; out_features := 256;
                           weight := L + 2; bias := L + 3 |};
                Tanh_;
                Linear_ {| in_features := 256; out_features := 1;
                           weight := L + 4; bias := L + 5 |}];
             Agent.actor_mean :=
               [Linear_ {| in_features := obs_dim envs; out_features := 256;
                           weight := L + 6; bias := L + 7 |};
                Tanh_;
                Linear_ {| in_features := 256; out_features := 256;
                           weight := L + 8; bias := L + 9 |};
                Tanh_;
                Linear_ {| in_features := 256; out_features := act_dim envs;
                           weight := L + 10; bias := L + 11 |}];
             Agent.actor_logstd := L + 12 |},
       {| heap := heap s ++ [W0; b0; W1; b1; W2; b2; W3; b3; W4; b4; W5; b5;
                             torch_zeros [1; act_dim envs]];
          gen := g' |})
    /\ (b0 = {| shape := [256]; data := repeat default_bias_const 256 |}
        /\ b1 = {| shape := [256]; data := repeat default_bias_const 256 |}
        /\ b2 = {| shape := [1]; data := repeat default_bias_const 1 |}
        /\ b3 = {| shape := [256]; data := repeat default_bias_const 256 |}
        /\ b4 = {| shape := [256]; data := repeat default_bias_const 256 |}
        /\ b5 = {| shape := [act_dim envs];
                   data := repeat default_bias_const (act_dim envs) |}).
Proof.
  intros Henvs. apply Envs_ok_true in Henvs as [Hobs Hact].
  unfold Agent.init, obs_dim, act_dim.
  destruct (new_layer_in_exact _ 256 default_std default_bias_const s Hobs)
    as (W0 & b0 & g0 & R0 & _ & E0).
  rewrite (bind_Ok _ _ _ _ _ R0).
  edestruct (new_layer_exact 256 256 default_std default_bias_const)
    as (W1 & b1 & g1 & R1 & _ & E1).
  rewrite (bind_Ok _ _ _ _ _ R1).
  edestruct (new_layer_exact 256 1 (of_Q 1) default_bias_const)
    as (W2 & b2 & g2 & R2 & _ & E2).
  rewrite (bind_Ok _ _ _ _ _ R2).
  edestruct (new_layer_in_exact (Space_shape (single_observation_space envs)) 256
               default_std default_bias_const) as (W3 & b3 & g3 & R3 & _ & E3);
    [exact Hobs|].
  rewrite (bind_Ok _ _ _ _ _ R3).
  edestruct (new_layer_exact 256 256 default_std default_bias_const)
    as (W4 & b4 & g4 & R4 & _ & E4).
  rewrite (bind_Ok _ _ _ _ _ R4).
  edestruct (new_layer_out_exact (Space_shape (single_action_space envs)) 256
               (of_Q (1 # 100)) default_bias_const) as (W5 & b5 & g5 & R5 & _ & E5);
    [exact Hact|].
  rewrite (bind_Ok _ _ _ _ _ R5).
  erewrite bind_Ok.
  2:{ rewrite (lift_bind_Ok _ _ _ _ (np_prod_Ok _ Hact)). apply alloc_spec. }
  exists W0, b0, W1, b1, W2, b2, W3, b3, W4, b4, W5, b5, g5.
  cbv zeta. unfold ret. simpl heap. simpl gen.
  split; [|tauto].
  rewrite <- !app_assoc. simpl app.
  rewrite !length_app. simpl length.
  repeat (f_equal; try lia).
Qed.

Lemma concat_repeat_repeat (a : F) (n B : nat) :
  concat (repeat (repeat a n) B) = repeat a (B * n).
Proof.
  induction B as [|B IH]; simpl; [reflexivity|]. now rewrite IH, repeat_app.
Qed.

(** What the later results use of a run of [Agent(envs)]. *)
Lemma Agent_init_run (envs : Envs) (s : State F G) :
  Envs_ok envs = true ->
  exists a s',
    Agent.init envs s = (Ok a, s')
    /\ Agent_ok (heap s') a (obs_dim envs) (act_dim envs) = true
    /\ extends (heap s) (heap s')
    /\ length (heap s') = length (heap s) + 13
    /\ heap s' !! Agent.actor_logstd a = Some (torch_zeros [1; act_dim envs]).
Proof.
  intros Henvs.
  destruct (Agent_init_ok envs s Henvs) as (a & s' & Hrun & Hext & Hok).
  destruct (Agent_init_layout envs s Henvs)
    as (W0 & b0 & W1 & b1 & W2 & b2 & W3 & b3 & W4 & b4 & W5 & b5 & g' & Hlay & _).
  cbv zeta in Hlay. rewrite Hlay in Hrun. injection Hrun as <- <-.
  eexists _, _. split; [exact Hlay|]. split; [exact Hok|]. split; [exact Hext|].
  simpl heap. split; [rewrite length_app; reflexivity|].
  simpl. now rewrite lookup_app_at.
Qed.

(** X7: [Agent(envs)], for observation and action shapes that are not
    empty and whose sizes numpy multiplies without overflow (sizes and
    products below 2^63), returns an agent shaped for the environment
    (critic obs to 256 to 256 to 1, actor obs to 256 to 256 to actions).  It allocates
    thirteen tensors and writes to no storage that existed before; the
    thirteen parameters are stored at different locations, so the critic
    and the actor share nothing; every bias is filled with [0.0] and
    [actor_logstd] is the zero tensor of shape (1, actions). *)
Theorem Agent_init_builds_separate_networks (envs : Envs) (s : State F G) :
  Envs_ok envs = true -> Envs_fit envs = true ->
  exists a s',
    Agent.init envs s = (Ok a, s')
    /\ Agent_ok (heap s') a (obs_dim envs) (act_dim envs) = true
    /\ extends (heap s) (heap s')
    /\ length (heap s') = length (heap s) + 13
    /\ NoDup (Agent_params a)
    /\ (forall l, l ∈ Agent_params a -> length (heap s) <= l)
    /\ heap s' !! Agent.actor_logstd a = Some (torch_zeros [1; act_dim envs])
    /\ (forall l, Linear_ l ∈ Agent.critic a ++ Agent.actor_mean a ->
          heap s' !! bias l
          = Some {| shape := [out_features l];
                    data := repeat default_bias_const (out_features l) |}).
Proof.
  intros Henvs _.
  destruct (Agent_init_ok envs s Henvs) as (a & s' & Hrun & Hext & Hok).
  destruct (Agent_init_layout envs s Henvs)
    as (W0 & b0 & W1 & b1 & W2 & b2 & W3 & b3 & W4 & b4 & W5 & b5 & g' & Hlay
        & E0 & E1 & E2 & E3 & E4 & E5).
  cbv zeta in Hlay. rewrite Hlay in Hrun. injection Hrun as <- <-.
  eexists _, _. split; [exact Hlay|]. split; [exact Hok|]. split; [exact Hext|].
  simpl heap. split; [rewrite length_app; reflexivity|].
  split; [|split; [|split]].
  - unfold Agent_params, Sequential_params. simpl.
    repeat (apply NoDup_cons_2; [rewrite ?elem_of_cons, elem_of_nil; lia|]).
    apply NoDup_nil_2.
  - intros l. unfold Agent_params, Sequential_params. simpl.
    rewrite !elem_of_cons, elem_of_nil. lia.
  - simpl. now rewrite lookup_app_at.
  - intros l. simpl. rewrite !elem_of_cons, elem_of_nil.
    intros [Hl|[Hl|[Hl|[Hl|[Hl|[Hl|[Hl|[Hl|[Hl|[Hl|[]]]]]]]]]]];
      try discriminate Hl; injection Hl as ->; simpl bias; simpl out_features;
      rewrite lookup_app_at; simpl lookup; congruence.
Qed.

(** X8: a newly built agent starts with standard deviation [exp(0)] in
    every action dimension.  For shapes that are not empty and whose sizes
    numpy multiplies without overflow, and for every batch of observations
    of the environment's size, the Gaussian that [get_action_and_value]
    of [Agent(envs)] builds has the scale [exp(0.0)] in every entry, and
    the call returns unless the validation of [Normal] raises
    [ValueError]. *)
Theorem new_agent_has_unit_logstd
    (envs : Envs) (s : State F G) (x : Tensor F) (B : nat) (g : G) :
  Envs_ok envs = true -> Envs_fit envs = true ->
  shape x = [B; obs_dim envs] -> length (data x) = B * obs_dim envs ->
  exists a s' mean act lp ent v s2,
    Agent.init envs s = (Ok a, s')
    /\ Sequential_forward (heap s') (Agent.actor_mean a) x = Ok mean
    /\ let std := {| shape := [B; act_dim envs];
                     data := repeat (fexp fzero) (B * act_dim envs) |} in
       Agent.policy a (heap s') x = new_Normal mean std
       /\ Agent.get_action_and_value a x None {| heap := heap s'; gen := g |}
          = (if all_real mean && all_positive std then
               (if all_real act then Ok (act, lp, ent, v) else Raise ValueError, s2)
             else (Raise ValueError, {| heap := heap s'; gen := g |})).
Proof.
  intros Henvs _ Hx Hlen.
  destruct (Agent_init_run envs s Henvs) as (a & s' & Hrun & Hok & _ & _ & Hls).
  destruct (get_action_and_value_spec a (heap s') g x None _ _ B Hok Hx Hlen)
    as (mean & ls & act & v & g' & Hm & _ & Hl & _ & _ & _ & _ & Hp & _ & Hgo);
    [discriminate|].
  cbv zeta in Hp, Hgo. rewrite Hls in Hl. injection Hl as <-.
  assert (Hstd : torch_exp {| shape := [B; act_dim envs];
                              data := concat (repeat (data (torch_zeros [1; act_dim envs]))
                                                     B) |}
                 = {| shape := [B; act_dim envs];
                      data := repeat (fexp fzero) (B * act_dim envs) |}).
  { unfold torch_exp, tmap. simpl. f_equal.
    rewrite concat_repeat_repeat, map_repeat. f_equal. lia. }
  rewrite Hstd in Hp, Hgo.
  eexists a, s', mean, act, _, _, v, _. split; [exact Hrun|]. split; [exact Hm|].
  cbv zeta. split; [exact Hp | exact Hgo].
Qed.

(** X9: [Agent(envs)] on an empty shape.  With an empty observation shape
    the constructor raises [TypeError] at its first layer, before anything
    is allocated; with an empty action shape it raises [TypeError] at the
    output layer of the actor, after the five layers before it have been
    allocated. *)
Theorem Agent_init_refuses_empty_shapes (envs : Envs) (s : State F G) :
  (Space_shape (single_observation_space envs) = [] ->
   Agent.init envs s = (Raise TypeError, s))
  /\ (Space_shape (single_observation_space envs) <> [] ->
      Space_shape (single_action_space envs) = [] ->
      exists s', Agent.init envs s = (Raise TypeError, s')
                 /\ length (heap s') = length (heap s) + 10).
Proof.
  split.
  - intros Hobs. unfold Agent.init. rewrite Hobs. reflexivity.
  - intros Hobs Hact. unfold Agent.init.
    destruct (new_layer_in_exact _ 256 default_std default_bias_const s Hobs)
      as (W0 & b0 & g0 & R0 & _).
    rewrite (bind_Ok _ _ _ _ _ R0).
    edestruct (new_layer_exact 256 256 default_std default_bias_const)
      as (W1 & b1 & g1 & R1 & _).
    rewrite (bind_Ok _ _ _ _ _ R1).
    edestruct (new_layer_exact 256 1 (of_Q 1) default_bias_const)
      as (W2 & b2 & g2 & R2 & _).
    rewrite (bind_Ok _ _ _ _ _ R2).
    edestruct (new_layer_in_exact (Space_shape (single_observation_space envs)) 256
                 default_std default_bias_const) as (W3 & b3 & g3 & R3 & _); [exact Hobs|].
    rewrite (bind_Ok _ _ _ _ _ R3).
    edestruct (new_layer_exact 256 256 default_std default_bias_const)
      as (W4 & b4 & g4 & R4 & _).
    rewrite (bind_Ok _ _ _ _ _ R4).
    rewrite Hact. eexists. split; [reflexivity|].
    simpl heap. rewrite !length_app. simpl length. lia.
Qed.

(** X10: [SampledAgent(envs, critic, actor_mean, actor_logstd)] with an
    [nn.Parameter] for [actor_logstd] returns an agent made of exactly
    the three arguments: the networks its parent constructor builds are
    allocated (thirteen tensors) and dropped.  Storage that existed before
    is not written, so the agent computes with the arguments what they
    computed before the call.  With a plain tensor for [actor_logstd] the
    constructor raises [TypeError], after the parent constructor has
    run. *)
Theorem SampledAgent_init_keeps_arguments
    (envs : Envs) (critic actor_mean : list Module) (actor_logstd : loc) (s : State F G) :
  Envs_ok envs = true ->
  (forall l, l ∈ Sequential_params critic ++ Sequential_params actor_mean ++ [actor_logstd] ->
             l < length (heap s)) ->
  exists s',
    SampledAgent.init envs critic actor_mean (Parameter_ actor_logstd) s
    = (Ok {| Agent.critic := critic; Agent.actor_mean := actor_mean;
             Agent.actor_logstd := actor_logstd |}, s')
    /\ SampledAgent.init envs critic actor_mean (Tensor_ actor_logstd) s
       = (Raise TypeError, s')
    /\ length (heap s') = length (heap s) + 13
    /\ extends (heap s) (heap s')
    /\ forall x,
         Sequential_forward (heap s') critic x = Sequential_forward (heap s) critic x
         /\ Agent.policy {| Agent.critic := critic; Agent.actor_mean := actor_mean;
                            Agent.actor_logstd := actor_logstd |} (heap s') x
            = Agent.policy {| Agent.critic := critic; Agent.actor_mean := actor_mean;
                              Agent.actor_logstd := actor_logstd |} (heap s) x.
Proof.
  intros Henvs Hin. unfold SampledAgent.init.
  destruct (Agent_init_run envs s Henvs) as (a & s' & Hrun & _ & Hext & Hlen & _).
  rewrite !(bind_Ok _ _ _ _ _ Hrun). unfold ret, raise.
  exists s'. split; [reflexivity|]. split; [reflexivity|].
  split; [exact Hlen|]. split; [exact Hext|].
  assert (Hag : agree_on (Sequential_params critic ++ Sequential_params actor_mean
                            ++ [actor_logstd]) (heap s') (heap s)).
  { intros l Hl. apply Hin in Hl.
    destruct (lookup_lt_is_Some_2 _ _ Hl) as [t Ht].
    rewrite Ht. eapply extends_lookup; eauto. }
  intros x. split.
  - apply Sequential_forward_agree. intros l Hl. apply Hag.
    apply elem_of_app. now left.
  - apply policy_agree. exact Hag.
Qed.
End InitExtras.

(** * Further properties of the sampling transform *)

Section SamplingExtras.
Context {F G : Type} `{Scalar F} `{Generator G F} `{BayesianOps F G}.

(** X12: [construct_vanilla_layer] reads the first two dimensions of the
    weights and nothing else.  On weights with fewer than two dimensions
    it raises [IndexError] and changes nothing.  Otherwise it returns a
    layer on the two tensors it was given, from [shape[1]] to [shape[0]]
    features, whatever the further dimensions of the weights and whatever
    the biases are; the weight and bias that [nn.Linear] initialised for
    the layer are two new tensors that the layer no longer refers to. *)
Theorem construct_vanilla_layer_reads_two_dimensions
    (weights biases : loc) (Wt : Tensor F) (s : State F G) :
  heap s !! weights = Some Wt ->
  (length (shape Wt) < 2 ->
   BayesianAgent.construct_vanilla_layer weights biases s = (Raise IndexError, s))
  /\ (forall n_out n_in rest,
        shape Wt = n_out :: n_in :: rest ->
        exists W0 b0 g',
          BayesianAgent.construct_vanilla_layer weights biases s
          = (Ok {| in_features := n_in; out_features := n_out;
                   weight := weights; bias := biases |},
             {| heap := heap s ++ [W0; b0]; gen := g' |})
          /\ shape W0 = [n_out; n_in] /\ shape b0 = [n_out]
          /\ weights <> length (heap s) /\ weights <> S (length (heap s))).
Proof.
  intros Hw. split.
  - intros Hrank. unfold BayesianAgent.construct_vanilla_layer.
    rewrite (bind_Ok _ _ _ _ _ (load_Ok _ _ _ Hw)).
    unfold bind at 1. unfold lift, shape_at.
    destruct (shape Wt) as [|a [|b rest]]; simpl in *; try reflexivity. lia.
  - intros n_out n_in rest Hs. unfold BayesianAgent.construct_vanilla_layer.
    rewrite (bind_Ok _ _ _ _ _ (load_Ok _ _ _ Hw)).
    unfold bind at 1. unfold lift, shape_at. rewrite Hs. simpl.
    unfold bind at 1. simpl.
    destruct (nn_Linear_spec n_in n_out s) as (W0 & b0 & g' & Hnew & HsW & _ & Hsb & _).
    rewrite (bind_Ok _ _ _ _ _ Hnew). exists W0, b0, g'.
    split; [reflexivity|]. split; [exact HsW|]. split; [exact Hsb|].
    apply lookup_lt_Some in Hw. lia.
Qed.

Lemma BayesianAgent_ok_mono (h h' : list (Tensor F)) (agent : BayesianAgent.t) :
  extends h h' -> BayesianAgent_ok h agent = true -> BayesianAgent_ok h' agent = true.
Proof.
  intros Hext. unfold BayesianAgent_ok. rewrite !andb_true_iff.
  intros [[[Hc Ha] Hls] Henvs]. repeat split; auto.
  - eapply BSequential_ok_mono; eauto.
  - eapply BSequential_ok_mono; eauto.
  - eapply has_shape_mono; eauto.
Qed.

Lemma extends_lookup_lt (h h' : list (Tensor F)) (l : loc) :
  extends h h' -> l < length h -> h' !! l = h !! l.
Proof.
  intros Hext Hl. destruct (lookup_lt_is_Some_2 _ _ Hl) as [t Ht].
  rewrite Ht. eapply extends_lookup; eauto.
Qed.

(** X13: every call of [sample_vanilla_agent] gives an agent in storage of
    its own.  Two agents sampled one after the other from a well-formed
    Bayesian agent have no parameter in common, the second call leaves
    the parameters of the first agent as they were, and whatever is later
    written to the parameters of the first agent, the second returns what
    it returned before. *)
Theorem sampled_agents_share_nothing (agent : BayesianAgent.t) (s : State F G) :
  BayesianAgent_ok (heap s) agent = true ->
  exists a1 s1 a2 s2,
    BayesianAgent.sample_vanilla_agent agent s = (Ok a1, s1)
    /\ BayesianAgent.sample_vanilla_agent agent s1 = (Ok a2, s2)
    /\ (forall l, l ∈ Agent_params a1 -> l ∉ Agent_params a2)
    /\ (forall l, l ∈ Agent_params a1 -> heap s2 !! l = heap s1 !! l)
    /\ forall h'',
         modified_only_at (Agent_params a1) (heap s2) h'' ->
         forall x,
           Agent.get_value a2 h'' x = Agent.get_value a2 (heap s2) x
           /\ forall action g,
                (Agent.get_action_and_value a2 x action {| heap := h''; gen := g |}).1
                = (Agent.get_action_and_value a2 x action
                     {| heap := heap s2; gen := g |}).1.
Proof.
  intros Hok.
  destruct (sample_vanilla_agent_ok agent s Hok)
    as (a_news1 & c_news1 & ls1 & s1 & R1 & E1 & Fr1 & _).
  pose proof (BayesianAgent_ok_mono _ _ _ E1 Hok) as Hok1.
  destruct (sample_vanilla_agent_ok agent s1 Hok1)
    as (a_news2 & c_news2 & ls2 & s2 & R2 & E2 & Fr2 & _).
  cbv zeta in *. eexists _, _, _, _. split; [exact R1|]. split; [exact R2|].
  rewrite list.Forall_forall in Fr1, Fr2.
  assert (Hdis : forall l, l ∈ Agent_params
                   {| Agent.critic := concat c_news1; Agent.actor_mean := concat a_news1;
                      Agent.actor_logstd := ls1 |} ->
                 l ∉ Agent_params
                   {| Agent.critic := concat c_news2; Agent.actor_mean := concat a_news2;
                      Agent.actor_logstd := ls2 |}).
  { intros l Hl1 Hl2. apply Fr1 in Hl1. apply Fr2 in Hl2. lia. }
  split; [exact Hdis|]. split.
  - intros l Hl. apply Fr1 in Hl. apply extends_lookup_lt; [exact E2 | lia].
  - intros h'' Hmod x.
    assert (Hag : agree_on (Agent_params
                   {| Agent.critic := concat c_news2; Agent.actor_mean := concat a_news2;
                      Agent.actor_logstd := ls2 |}) h'' (heap s2)).
    { intros l Hl. apply Hmod. intros Hl1. exact (Hdis l Hl1 Hl). }
    split; [apply get_value_agree; exact Hag|].
    intros action g. apply get_action_and_value_agree. exact Hag.
Qed.
(** The agent [BayesianAgent(envs, n)] builds, with the features of its
    layers. *)
Lemma BayesianAgent_init_shapes (envs : Envs) (n : nat) (s : State F G) :
  Envs_ok envs = true ->
  exists c0 c2 c4 a0 a2 a4 ls s',
    BayesianAgent.init envs n s
    = (Ok {| BayesianAgent.critic :=
               [BayesianLinear_ c0; Plain Tanh_; BayesianLinear_ c2; Plain Tanh_;
                Plain (Linear_ c4)];
             BayesianAgent.actor_mean :=
               [BayesianLinear_ a0; Plain Tanh_; BayesianLinear_ a2; Plain Tanh_;
                Plain (Linear_ a4)];
             BayesianAgent.actor_logstd := ls;
             BayesianAgent.envs := envs |}, s')
    /\ (b_in_features c0 = obs_dim envs /\ b_out_features c0 = 256
        /\ b_in_features c2 = 256 /\ b_out_features c2 = 256
        /\ in_features c4 = 256 /\ out_features c4 = 1)
    /\ (b_in_features a0 = obs_dim envs /\ b_out_features a0 = 256
        /\ b_in_features a2 = 256 /\ b_out_features a2 = 256
        /\ in_features a4 = 256 /\ out_features a4 = act_dim envs)
    /\ Linear_ok (heap s') c4 256 1 = true
    /\ Linear_ok (heap s') a4 256 (act_dim envs) = true
    /\ has_shape (heap s') ls [1; act_dim envs] = true.
Proof.
  intros Henvs. apply Envs_ok_true in Henvs as [Hobs Hact].
  unfold BayesianAgent.init.
  destruct (new_BayesianLinear_in_ok _ 256 n n s Hobs)
    as (c0 & s1 & R1 & E1 & K1 & I1 & O1 & _).
  rewrite (bind_Ok _ _ _ _ _ R1).
  destruct (new_BayesianLinear_ok 256 256 n n s1)
    as (c2 & s2 & R2 & E2 & K2 & I2 & O2 & _).
  rewrite (bind_Ok _ _ _ _ _ R2).
  destruct (new_layer_ok 256 1 (of_Q 1) default_bias_const s2)
    as (c4 & s3 & R3 & E3 & K3 & I3 & O3).
  rewrite (bind_Ok _ _ _ _ _ R3).
  destruct (new_BayesianLinear_in_ok _ 256 n n s3 Hobs)
    as (a0 & s4 & R4 & E4 & K4 & I4 & O4 & _).
  rewrite (bind_Ok _ _ _ _ _ R4).
  destruct (new_BayesianLinear_ok 256 256 n n s4)
    as (a2 & s5 & R5 & E5 & K5 & I5 & O5 & _).
  rewrite (bind_Ok _ _ _ _ _ R5).
  destruct (new_layer_out_ok _ 256 (of_Q (1 # 100)) default_bias_const s5 Hact)
    as (a4 & s6 & R6 & E6 & K6 & I6 & O6).
  rewrite (bind_Ok _ _ _ _ _ R6).
  destruct (alloc_zeros_ok _ s6 Hact) as (s7 & R7 & E7 & K7).
  rewrite (bind_Ok _ _ _ _ _ R7).
  exists c0, c2, c4, a0, a2, a4. eexists _, _. split; [reflexivity|].
  assert (E57 := extends_trans _ _ _ E6 E7).
  assert (E47 := extends_trans _ _ _ E5 E57).
  assert (E37 := extends_trans _ _ _ E4 E47).
  unfold obs_dim, act_dim. repeat split; auto.
  - exact (Linear_ok_mono _ _ _ _ _ E37 K3).
  - exact (Linear_ok_mono _ _ _ _ _ E7 K6).
Qed.

(** What sampling makes of a network of two Bayesian layers and a plain
    output layer. *)
Lemma sampled_net_fits (h h' : list (Tensor F)) (b0 b2 : BayesianLinear) (l4 : Linear)
      (news : list (list Module)) (d_in d1 d2 d_out : nat) :
  Forall2 (contributes h h')
          [BayesianLinear_ b0; Plain Tanh_; BayesianLinear_ b2; Plain Tanh_;
           Plain (Linear_ l4)] news ->
  b_in_features b0 = d_in -> b_out_features b0 = d1 ->
  b_in_features b2 = d1 -> b_out_features b2 = d2 ->
  in_features l4 = d2 -> out_features l4 = d_out ->
  Linear_ok h l4 d2 d_out = true ->
  net_ok h' (concat news) d_in d_out = true.
Proof.
  intros HF I0 O0 I2 O2 I4 O4 Hl4.
  apply Forall2_cons_inv_l in HF as (n0 & r0 & C0 & HF & ->).
  apply Forall2_cons_inv_l in HF as (n1 & r1 & C1 & HF & ->).
  apply Forall2_cons_inv_l in HF as (n2 & r2 & C2 & HF & ->).
  apply Forall2_cons_inv_l in HF as (n3 & r3 & C3 & HF & ->).
  apply Forall2_cons_inv_l in HF as (n4 & r4 & C4 & HF & ->).
  apply Forall2_nil_inv_l in HF as ->.
  simpl in C0, C1, C2, C3, C4. subst n1 n3.
  destruct C0 as (l0 & -> & Hi0 & Ho0 & K0).
  destruct C2 as (l2 & -> & Hi2 & Ho2 & K2).
  destruct C4 as (l4' & -> & Hi4 & Ho4 & _ & _ & HW & Hb).
  simpl. rewrite Hi0, Ho0, Hi2, Ho2, Hi4, Ho4, I0, O0, I2, O2, I4, O4 in *.
  rewrite K0, K2, !Nat.eqb_refl. simpl.
  unfold Linear_ok, has_shape in *. rewrite HW, Hb. rewrite Hl4. reflexivity.
Qed.

(** X14: sampling keeps the shapes.  For shapes that are not empty and
    whose sizes numpy multiplies without overflow, the agent sampled from
    [BayesianAgent(envs, n)], whatever [n], is shaped for the
    environment: critic from observations to one value, actor from
    observations to actions, one log standard deviation per action
    dimension; so on a batch of [B] observations its
    [get_action_and_value] returns an action (B, actions),
    log-probabilities (B), entropies (B) and values (B, 1), unless the
    validation of [Normal] raises [ValueError].  The Bayesian layers are
    those of the specification. *)
Theorem sampled_agent_fits_the_environment (envs : Envs) (n : nat) (s : State F G) :
  Envs_ok envs = true -> Envs_fit envs = true ->
  exists agent s1 sampled s2,
    BayesianAgent.init envs n s = (Ok agent, s1)
    /\ BayesianAgent.sample_vanilla_agent agent s1 = (Ok sampled, s2)
    /\ Agent_ok (heap s2) sampled (obs_dim envs) (act_dim envs) = true
    /\ forall (x : Tensor F) (B : nat) (g : G),
         shape x = [B; obs_dim envs] -> length (data x) = B * obs_dim envs ->
         exists mean std a lp ent v s3,
           Agent.policy sampled (heap s2) x = new_Normal mean std
           /\ Agent.get_action_and_value sampled x None {| heap := heap s2; gen := g |}
              = (if all_real mean && all_positive std then
                   (if all_real a then Ok (a, lp, ent, v) else Raise ValueError, s3)
                 else (Raise ValueError, {| heap := heap s2; gen := g |}))
           /\ shape a = [B; act_dim envs] /\ shape lp = [B]
           /\ shape ent = [B] /\ shape v = [B; 1].
Proof.
  intros Henvs _.
  destruct (BayesianAgent_init_shapes envs n s Henvs)
    as (c0 & c2 & c4 & a0 & a2 & a4 & ls & s1 & Hinit
        & (Ic0 & Oc0 & Ic2 & Oc2 & Ic4 & Oc4) & (Ia0 & Oa0 & Ia2 & Oa2 & Ia4 & Oa4)
        & Kc4 & Ka4 & Kls).
  destruct (BayesianAgent_init_wf envs n s Henvs) as (agent & s1' & Hinit' & _ & Hwf).
  rewrite Hinit in Hinit'. injection Hinit' as <- <-.
  destruct (sample_vanilla_agent_ok _ s1 Hwf)
    as (a_news & c_news & ls' & s2 & Hrun & _ & _ & Ca & Cc & Hls).
  cbv zeta in Hrun. simpl in Ca, Cc, Hls.
  assert (Hok : Agent_ok (heap s2)
                  {| Agent.critic := concat c_news; Agent.actor_mean := concat a_news;
                     Agent.actor_logstd := ls' |} (obs_dim envs) (act_dim envs) = true).
  { unfold Agent_ok. simpl.
    rewrite (sampled_net_fits _ _ _ _ _ _ _ _ _ _ Cc Ic0 Oc0 Ic2 Oc2 Ic4 Oc4 Kc4).
    rewrite (sampled_net_fits _ _ _ _ _ _ _ _ _ _ Ca Ia0 Oa0 Ia2 Oa2 Ia4 Oa4 Ka4).
    unfold has_shape in *. rewrite Hls. exact Kls. }
  eexists _, _, _, _. split; [exact Hinit|]. split; [exact Hrun|]. split; [exact Hok|].
  intros x B g Hx Hlen.
  destruct (get_action_and_value_spec _ (heap s2) g x None _ _ B Hok Hx Hlen)
    as (mean & ls0 & a & v & g' & _ & _ & _ & _ & _ & [Hv _] & [Ha _] & Hp & _ & Hgo);
    [discriminate|].
  cbv zeta in Hp, Hgo.
  eexists mean, _, a, _, _, v, _. split; [exact Hp|]. split; [exact Hgo|]. auto.
Qed.

(** What visiting one component allocates, and how many parameters the
    layers it appends have. *)
Lemma sample_layer_grows (c : BModule) (s : State F G) :
  BModule_ok (heap s) c = true ->
  exists new s',
    BayesianAgent.sample_layer c s = (Ok new, s')
    /\ extends (heap s) (heap s')
    /\ length (heap s')
       = length (heap s)
         + match c with BayesianLinear_ _ => 4 | Plain (Linear_ _) => 2 | Plain _ => 0 end
    /\ length (Sequential_params new)
       = match c with BayesianLinear_ _ => 2 | Plain (Linear_ _) => 2 | Plain _ => 0 end.
Proof.
  destruct c as [b|[l| |cls]]; simpl BModule_ok; intros Hok.
  - destruct (sample_layer_Bayesian_spec b s Hok)
      as (Wt & Bt & W0 & b0 & g1 & g2 & g' & _ & _ & _ & Hrun & _).
    eexists _, _. split; [exact Hrun|]. simpl heap.
    split; [apply extends_app|]. rewrite length_app. auto.
  - unfold Linear_ok in Hok. apply andb_true_iff in Hok as [HW Hb].
    apply has_shape_true in HW as (W & HW & _).
    apply has_shape_true in Hb as (b & Hb & _).
    unfold BayesianAgent.sample_layer.
    rewrite (bind_Ok _ _ _ _ _ (deepcopy_Linear_spec l W b s HW Hb)).
    eexists _, _. split; [reflexivity|]. simpl heap.
    split; [apply extends_app|]. rewrite length_app. auto.
  - exists [], s. simpl. split; [reflexivity|]. split; [apply extends_refl|]. auto.
  - exists [], s. simpl. split; [reflexivity|]. split; [apply extends_refl|]. auto.
Qed.

Lemma sample_layers_grows (seq : list BModule) :
  forall (acc : list Module) (s : State F G),
    forallb (BModule_ok (heap s)) seq = true ->
    exists new s',
      BayesianAgent.sample_layers seq acc s = (Ok (acc ++ new), s')
      /\ extends (heap s) (heap s')
      /\ length (heap s')
         = length (heap s)
           + list_sum (map (fun c => match c with
                                     | BayesianLinear_ _ => 4
                                     | Plain (Linear_ _) => 2
                                     | Plain _ => 0
                                     end) seq)
      /\ length (Sequential_params new)
         = list_sum (map (fun c => match c with
                                   | BayesianLinear_ _ => 2
                                   | Plain (Linear_ _) => 2
                                   | Plain _ => 0
                                   end) seq).
Proof.
  induction seq as [|c seq IH]; intros acc s Hok; simpl in Hok.
  - exists [], s. simpl. rewrite app_nil_r. unfold ret.
    split; [reflexivity|]. split; [apply extends_refl|]. split; [lia | reflexivity].
  - apply andb_true_iff in Hok as [Hc Hseq].
    destruct (sample_layer_grows c s Hc) as (new & s1 & R1 & E1 & L1 & P1).
    destruct (IH (acc ++ new) s1) as (news & s2 & R2 & E2 & L2 & P2).
    { eapply BSequential_ok_mono; eauto. }
    exists (new ++ news), s2. simpl BayesianAgent.sample_layers.
    rewrite (bind_Ok _ _ _ _ _ R1), R2, app_assoc.
    split; [reflexivity|]. split; [eapply extends_trans; eauto|].
    simpl map. simpl list_sum. split; [lia|].
    unfold Sequential_params in *. rewrite map_app, concat_app, length_app. lia.
Qed.

(** X15: what one call of [sample_vanilla_agent] allocates.  On a
    well-formed Bayesian agent the call allocates four tensors for every
    Bayesian layer (the two draws and the two initial parameters of the
    [nn.Linear] that [construct_vanilla_layer] replaces), two for every
    plain linear layer, one for [actor_logstd] and thirteen in the parent
    constructor of [SampledAgent]; the sampled agent has two parameters
    for every Bayesian or plain linear layer and one more, so the
    thirteen and two for every Bayesian layer are left unused. *)
Theorem sample_vanilla_agent_allocations (agent : BayesianAgent.t) (s : State F G) :
  BayesianAgent_ok (heap s) agent = true ->
  exists sampled s',
    BayesianAgent.sample_vanilla_agent agent s = (Ok sampled, s')
    /\ length (heap s')
       = length (heap s)
         + list_sum (map (fun c => match c with
                                   | BayesianLinear_ _ => 4
                                   | Plain (Linear_ _) => 2
                                   | Plain _ => 0
                                   end)
                         (BayesianAgent.actor_mean agent ++ BayesianAgent.critic agent))
         + 1 + 13
    /\ length (Agent_params sampled)
       = list_sum (map (fun c => match c with
                                 | BayesianLinear_ _ => 2
                                 | Plain (Linear_ _) => 2
                                 | Plain _ => 0
                                 end)
                       (BayesianAgent.actor_mean agent ++ BayesianAgent.critic agent))
         + 1.
Proof.
  unfold BayesianAgent_ok. rewrite !andb_true_iff. intros [[[Hc Ha] Hls] Henvs].
  unfold BayesianAgent.sample_vanilla_agent.
  destruct (sample_layers_grows (BayesianAgent.actor_mean agent) [] s Ha)
    as (a_new & s1 & R1 & E1 & L1 & P1).
  rewrite (bind_Ok _ _ _ _ _ R1).
  destruct (sample_layers_grows (BayesianAgent.critic agent) [] s1)
    as (c_new & s2 & R2 & E2 & L2 & P2).
  { eapply BSequential_ok_mono; eauto. }
  rewrite (bind_Ok _ _ _ _ _ R2).
  apply has_shape_true in Hls as (ls & Hl & _).
  assert (E02 : extends (heap s) (heap s2)) by (eapply extends_trans; eauto).
  pose proof (extends_lookup _ _ _ _ E02 Hl) as Hl2.
  rewrite (bind_Ok _ _ _ _ _ (deepcopy_param_spec _ _ _ Hl2)).
  unfold SampledAgent.init.
  destruct (Agent_init_run (BayesianAgent.envs agent)
              {| heap := heap s2 ++ [ls]; gen := gen s2 |} Henvs)
    as (a & s4 & R4 & _ & _ & L4 & _).
  rewrite (bind_Ok _ _ _ _ _ R4). unfold ret. simpl app.
  eexists _, _. split; [reflexivity|].
  simpl heap in L4. rewrite length_app in L4. simpl length in L4.
  rewrite !map_app, !list_sum_app.
  split; [lia|].
  unfold Agent_params. simpl. rewrite !length_app. simpl. lia.
Qed.
(** X16: [sample_vanilla_agent] visits the actor first.  The layers of the
    sampled actor are stored before those of the sampled critic, these
    before the copy of [actor_logstd], and all of them after everything
    that was stored when the call began: the draws for the actor are the
    first ones taken from the generator. *)
Theorem sample_vanilla_agent_visits_actor_first (agent : BayesianAgent.t) (s : State F G) :
  BayesianAgent_ok (heap s) agent = true ->
  exists sampled s',
    BayesianAgent.sample_vanilla_agent agent s = (Ok sampled, s')
    /\ Agent.actor_logstd sampled < length (heap s')
    /\ (forall lc, lc ∈ Sequential_params (Agent.critic sampled) ->
                   length (heap s) <= lc < Agent.actor_logstd sampled)
    /\ (forall la, la ∈ Sequential_params (Agent.actor_mean sampled) ->
                   length (heap s) <= la < Agent.actor_logstd sampled)
    /\ forall la lc,
         la ∈ Sequential_params (Agent.actor_mean sampled) ->
         lc ∈ Sequential_params (Agent.critic sampled) ->
         la < lc.
Proof.
  unfold BayesianAgent_ok. rewrite !andb_true_iff. intros [[[Hc Ha] Hls] Henvs].
  unfold BayesianAgent.sample_vanilla_agent.
  destruct (sample_layers_ok (BayesianAgent.actor_mean agent) [] s Ha)
    as (a_news & s1 & R1 & E1 & Fr1 & _).
  rewrite (bind_Ok _ _ _ _ _ R1).
  destruct (sample_layers_ok (BayesianAgent.critic agent) [] s1)
    as (c_news & s2 & R2 & E2 & Fr2 & _).
  { eapply BSequential_ok_mono; eauto. }
  rewrite (bind_Ok _ _ _ _ _ R2).
  apply has_shape_true in Hls as (ls & Hl & _).
  assert (E02 : extends (heap s) (heap s2)) by (eapply extends_trans; eauto).
  pose proof (extends_lookup _ _ _ _ E02 Hl) as Hl2.
  rewrite (bind_Ok _ _ _ _ _ (deepcopy_param_spec _ _ _ Hl2)).
  unfold SampledAgent.init.
  destruct (Agent_init_run (BayesianAgent.envs agent)
              {| heap := heap s2 ++ [ls]; gen := gen s2 |} Henvs)
    as (a & s4 & R4 & _ & _ & L4 & _).
  rewrite (bind_Ok _ _ _ _ _ R4). unfold ret. simpl app.
  eexists _, _. split; [reflexivity|].
  simpl heap in L4. rewrite length_app in L4. simpl length in L4.
  pose proof (extends_length _ _ E1). pose proof (extends_length _ _ E2).
  rewrite list.Forall_forall in Fr1, Fr2. simpl.
  split; [lia|]. split; [|split].
  - intros lc Hlc. apply Fr2 in Hlc. lia.
  - intros la Hla. apply Fr1 in Hla. lia.
  - intros la lc Hla Hlc. apply Fr1 in Hla. apply Fr2 in Hlc. lia.
Qed.
End SamplingExtras.

(** * The further properties on concrete inputs *)

Lemma get_action_and_value_replay_witness :
  exists a lp ent v s',
    Agent.get_action_and_value agent1 obs1 None state0 = (Ok (a, lp, ent, v), s')
    /\ Agent.get_action_and_value agent1 obs1 (Some a) s' = (Ok (a, lp, ent, v), s')
    /\ heap s' = heap state0.
Proof.
  destruct (Agent.get_action_and_value agent1 obs1 None state0)
    as [[[[[a lp] ent] v]|e] s'] eqn:Hrun.
  - exists a, lp, ent, v, s'. split; [reflexivity|].
    exact (get_action_and_value_replay agent1 obs1 a lp ent v state0 s' Hrun).
  - vm_compute in Hrun. discriminate Hrun.
Defined.

Lemma entropy_depends_on_logstd_only_witness :
  Agent_ok heap0 agent1 2 1 = true
  /\ shape obs1 = [2; 2]
  /\ exists ls a lp v s',
       heap0 !! Agent.actor_logstd agent1 = Some ls
       /\ Agent.get_action_and_value agent1 obs1 None {| heap := heap0; gen := 0 |}
          = (Ok (a, lp,
                 {| shape := [2];
                    data := repeat (fsum (map (fun e => normal_entropy (fexp e)) (data ls)))
                                   2 |},
                 v), s').
Proof.
  split; [vm_compute; reflexivity|]. split; [reflexivity|].
  assert (Hr : match (Agent.get_action_and_value agent1 obs1 None
                        {| heap := heap0; gen := 0 |}).1 with
               | Ok _ => true
               | Raise _ => false
               end = true) by (vm_compute; reflexivity).
  destruct (entropy_depends_on_logstd_only agent1 heap0 0 obs1 None 2 1 2)
    as (ls & mean & std & a & lp & v & s' & Hl & _ & Hrun).
  - vm_compute; reflexivity.
  - reflexivity.
  - vm_compute; reflexivity.
  - discriminate.
  - rewrite Hrun in Hr.
    destruct (all_real mean && all_positive std); [|discriminate Hr].
    destruct (all_real a); [|discriminate Hr].
    exists ls, a, lp, v, s'. split; [exact Hl | exact Hrun].
Defined.

Lemma wrong_feature_count_is_refused_witness :
  shape obs1 = [2; 2]
  /\ Linear_ok (heap state0)
       {| in_features := 3; out_features := 2; weight := 0; bias := 2 |} 3 2 = true
  /\ Agent.get_action_and_value
       {| Agent.critic := plain_net; Agent.actor_mean := plain_net;
          Agent.actor_logstd := 12 |} obs1 None state0
     = (Raise RuntimeError, state0)
  /\ Agent.get_value
       {| Agent.critic := plain_net; Agent.actor_mean := plain_net;
          Agent.actor_logstd := 12 |} (heap state0) obs1
     = Raise RuntimeError.
Proof.
  split; [reflexivity|]. split; [vm_compute; reflexivity|].
  destruct (wrong_feature_count_is_refused
              {| Agent.critic := plain_net; Agent.actor_mean := plain_net;
                 Agent.actor_logstd := 12 |} obs1 state0 2 2 eq_refl) as [Hact Hval].
  split.
  - apply (Hact _ _ 3 2 None eq_refl); [vm_compute; reflexivity | lia].
  - apply (Hval _ _ 3 2 eq_refl); [vm_compute; reflexivity | lia].
Defined.

Lemma actor_and_critic_are_separate_witness :
  NoDup (Agent_params agent1)
  /\ modified_only_at (Sequential_params (Agent.critic agent1)) heap0
       (<[4 := const_tensor [1; 2] 9]> heap0)
  /\ Agent.policy agent1 (<[4 := const_tensor [1; 2] 9]> heap0) obs1
     = Agent.policy agent1 heap0 obs1.
Proof.
  assert (Hnd : NoDup (Agent_params agent1)).
  { apply (bool_decide_unpack _). vm_compute. reflexivity. }
  assert (Hmod : modified_only_at (Sequential_params (Agent.critic agent1)) heap0
                   (<[4 := const_tensor [1; 2] 9]> heap0)).
  { intros l Hl. apply list_lookup_insert_ne. intros <-. apply Hl.
    apply (bool_decide_unpack _). vm_compute. reflexivity. }
  split; [exact Hnd|]. split; [exact Hmod|].
  exact (proj1 (proj1 (actor_and_critic_are_separate agent1 heap0 Hnd) _ obs1 Hmod)).
Defined.

Lemma layer_init_in_place_witness :
  heap state0 !! weight (linear0 4) = Some (const_tensor [1; 2] 5)
  /\ heap state0 !! bias (linear0 4) = Some (const_tensor [1] 6)
  /\ exists s',
       layer_init (linear0 4) (SConst 1) (SConst 0) state0 = (Ok (linear0 4), s')
       /\ length (heap s') = length (heap state0)
       /\ heap s' !! bias (linear0 4) = Some {| shape := [1]; data := [SConst 0] |}.
Proof.
  split; [reflexivity|]. split; [reflexivity|].
  destruct (layer_init_in_place (linear0 4) (SConst 1) (SConst 0) state0
              (const_tensor [1; 2] 5) (const_tensor [1] 6) 1 2)
    as (s' & W' & Hrun & Hlen & _ & Hb & _).
  - reflexivity.
  - reflexivity.
  - reflexivity.
  - simpl. lia.
  - exists s'. split; [exact Hrun|]. split; [exact Hlen | exact Hb].
Defined.

Lemma layer_init_needs_a_matrix_witness :
  heap state0 !! 2 = Some (const_tensor [2] 3)
  /\ layer_init {| in_features := 1; out_features := 2; weight := 2; bias := 3 |}
       (SConst 1) (SConst 0) state0
     = (Raise ValueError, state0).
Proof.
  split; [reflexivity|].
  apply (layer_init_needs_a_matrix _ _ _ _ (const_tensor [2] 3)).
  - reflexivity.
  - simpl. lia.
Defined.

Lemma Agent_init_builds_separate_networks_witness :
  Envs_ok envs0 = true
  /\ Envs_fit envs0 = true
  /\ exists a s',
       Agent.init envs0 state0 = (Ok a, s')
       /\ Agent_ok (heap s') a 3 1 = true
       /\ length (heap s') = 26
       /\ NoDup (Agent_params a).
Proof.
  split; [reflexivity|]. split; [vm_compute; reflexivity|].
  destruct (Agent_init_builds_separate_networks envs0 state0 eq_refl)
    as (a & s' & Hrun & Hok & _ & Hlen & Hnd & _).
  - vm_compute; reflexivity.
  - exists a, s'. split; [exact Hrun|]. split; [exact Hok|]. split; [exact Hlen | exact Hnd].
Defined.

Lemma new_agent_has_unit_logstd_witness :
  Envs_ok envs0 = true
  /\ Envs_fit envs0 = true
  /\ shape obs3 = [1; obs_dim envs0]
  /\ exists a s' mean,
       Agent.init envs0 state0 = (Ok a, s')
       /\ Agent.policy a (heap s') obs3
          = new_Normal mean {| shape := [1; 1]; data := [fexp fzero] |}.
Proof.
  split; [reflexivity|]. split; [vm_compute; reflexivity|]. split; [reflexivity|].
  destruct (new_agent_has_unit_logstd envs0 state0 obs3 1 0 eq_refl)
    as (a & s' & mean & act & lp & ent & v & s2 & Hrun & _ & Hp & _).
  - vm_compute; reflexivity.
  - reflexivity.
  - reflexivity.
  - exists a, s', mean. split; [exact Hrun | exact Hp].
Defined.

Lemma Agent_init_refuses_empty_shapes_witness :
  Agent.init {| single_observation_space := Box []; single_action_space := Box [1] |} state0
  = (Raise TypeError, state0)
  /\ exists s',
       Agent.init {| single_observation_space := Box [3]; single_action_space := Box [] |}
         state0
       = (Raise TypeError, s')
       /\ length (heap s') = 23.
Proof.
  split.
  - apply (proj1 (Agent_init_refuses_empty_shapes
                    {| single_observation_space := Box [];
                       single_action_space := Box [1] |} state0)).
    reflexivity.
  - apply (proj2 (Agent_init_refuses_empty_shapes
                    {| single_observation_space := Box [3];
                       single_action_space := Box [] |} state0)).
    + discriminate.
    + reflexivity.
Defined.

Lemma SampledAgent_init_keeps_arguments_witness :
  Envs_ok envs0 = true
  /\ exists s',
       SampledAgent.init envs0 (Agent.critic agent1) (Agent.actor_mean agent1)
         (Parameter_ 12) state0
       = (Ok agent1, s')
       /\ SampledAgent.init envs0 (Agent.critic agent1) (Agent.actor_mean agent1)
            (Tensor_ 12) state0
          = (Raise TypeError, s')
       /\ length (heap s') = 26
       /\ Sequential_forward (heap s') (Agent.critic agent1) obs1
          = Sequential_forward heap0 (Agent.critic agent1) obs1.
Proof.
  split; [reflexivity|].
  destruct (SampledAgent_init_keeps_arguments envs0 (Agent.critic agent1)
              (Agent.actor_mean agent1) 12 state0 eq_refl)
    as (s' & Hrun & Hbad & Hlen & _ & Hsame).
  - intros l Hl. change (l ∈ [4; 5; 10; 11; 12]) in Hl. change (l < 13).
    rewrite !elem_of_cons, elem_of_nil in Hl. lia.
  - exists s'. split; [exact Hrun|]. split; [exact Hbad|]. split; [exact Hlen|].
    exact (proj1 (Hsame obs1)).
Defined.

Lemma construct_vanilla_layer_reads_two_dimensions_witness :
  heap state0 !! 2 = Some (const_tensor [2] 3)
  /\ BayesianAgent.construct_vanilla_layer 2 3 state0 = (Raise IndexError, state0)
  /\ heap state0 !! 0 = Some (const_tensor [2; 3] 1)
  /\ exists W0 b0 g',
       BayesianAgent.construct_vanilla_layer 0 2 state0
       = (Ok {| in_features := 3; out_features := 2; weight := 0; bias := 2 |},
          {| heap := heap state0 ++ [W0; b0]; gen := g' |}).
Proof.
  split; [reflexivity|]. split; [|split; [reflexivity|]].
  - apply (proj1 (construct_vanilla_layer_reads_two_dimensions 2 3 (const_tensor [2] 3)
                    state0 eq_refl)).
    simpl. lia.
  - destruct (proj2 (construct_vanilla_layer_reads_two_dimensions 0 2
                       (const_tensor [2; 3] 1) state0 eq_refl) 2 3 [] eq_refl)
      as (W0 & b0 & g' & Hrun & _).
    exists W0, b0, g'. exact Hrun.
Defined.

Lemma sampled_agents_share_nothing_witness :
  BayesianAgent_ok (heap state0) agent0 = true
  /\ exists a1 s1 a2 s2,
       BayesianAgent.sample_vanilla_agent agent0 state0 = (Ok a1, s1)
       /\ BayesianAgent.sample_vanilla_agent agent0 s1 = (Ok a2, s2)
       /\ forall l, l ∈ Agent_params a1 -> l ∉ Agent_params a2.
Proof.
  split; [vm_compute; reflexivity|].
  destruct (sampled_agents_share_nothing agent0 state0)
    as (a1 & s1 & a2 & s2 & R1 & R2 & Hdis & _).
  - vm_compute; reflexivity.
  - exists a1, s1, a2, s2. split; [exact R1|]. split; [exact R2 | exact Hdis].
Defined.

Lemma sampled_agent_fits_the_environment_witness :
  Envs_ok envs0 = true
  /\ Envs_fit envs0 = true
  /\ exists agent s1 sampled s2,
       BayesianAgent.init envs0 256 state0 = (Ok agent, s1)
       /\ BayesianAgent.sample_vanilla_agent agent s1 = (Ok sampled, s2)
       /\ Agent_ok (heap s2) sampled 3 1 = true.
Proof.
  split; [reflexivity|]. split; [vm_compute; reflexivity|].
  destruct (sampled_agent_fits_the_environment envs0 256 state0 eq_refl)
    as (agent & s1 & sampled & s2 & Hinit & Hrun & Hok & _).
  - vm_compute; reflexivity.
  - exists agent, s1, sampled, s2. split; [exact Hinit|]. split; [exact Hrun | exact Hok].
Defined.

Lemma sample_vanilla_agent_allocations_witness :
  BayesianAgent_ok (heap state0) agent0 = true
  /\ exists sampled s',
       BayesianAgent.sample_vanilla_agent agent0 state0 = (Ok sampled, s')
       /\ length (heap s') = 13 + 12 + 1 + 13
       /\ length (Agent_params sampled) = 9.
Proof.
  split; [vm_compute; reflexivity|].
  destruct (sample_vanilla_agent_allocations agent0 state0)
    as (sampled & s' & Hrun & Hlen & Hpar).
  - vm_compute; reflexivity.
  - exists sampled, s'. split; [exact Hrun|]. split; [exact Hlen | exact Hpar].
Defined.

Lemma sample_vanilla_agent_visits_actor_first_witness :
  BayesianAgent_ok (heap state0) agent0 = true
  /\ exists sampled s',
       BayesianAgent.sample_vanilla_agent agent0 state0 = (Ok sampled, s')
       /\ forall la lc,
            la ∈ Sequential_params (Agent.actor_mean sampled) ->
            lc ∈ Sequential_params (Agent.critic sampled) ->
            la < lc.
Proof.
  split; [vm_compute; reflexivity|].
  destruct (sample_vanilla_agent_visits_actor_first agent0 state0)
    as (sampled & s' & Hrun & _ & _ & _ & Hord).
  - vm_compute; reflexivity.
  - exists sampled, s'. split; [exact Hrun | exact Hord].
Defined.
